(** * iohub: the multi-page TIFF coordinate index and the OME-NGFF node tree

    A shallow embedding of [iohub/multipagetiff_v2.py] (the reader that maps
    an acquisition coordinate to a page of a set of OME-TIFF files) and of
    [iohub/ngff.py] (the plate / row / well / position hierarchy over a Zarr
    store), with the properties stated about them.

    Python values are embedded as follows: integers as [Z], page numbers and
    axis indices produced by [range] / [enumerate] as [nat], strings as
    [string], a [dict] used as a map as a [gmap], lists as [list]; a raised
    exception is a value of [exn] carried by [result]; the list objects that
    [ngff.py] hands from a node to its children live in an explicit heap and
    are named by their address. *)

From Stdlib Require Import ZArith Ascii String List Lia.
From stdpp Require Import base option list gmap strings.

Local Open Scope string_scope.
Local Open Scope Z_scope.

(** ** Python exceptions and fallible computations *)

Inductive exn : Type :=
  | IndexError
  | KeyError
  | ValueError
  | TypeError
  | AttributeError
  | FileNotFoundError
  | FileExistsError
  | RuntimeError
  | ValidationError
  | ContainsGroupError
  | ContainsArrayError.

Inductive result (A : Type) : Type :=
  | Ok (a : A)
  | Raise (e : exn).

Arguments Ok {A} a.
Arguments Raise {A} e.

Definition bind {A B : Type} (m : result A) (f : A → result B) : result B :=
  match m with
  | Ok a => f a
  | Raise e => Raise e
  end.

Declare Scope py_scope.
Delimit Scope py_scope with py.
Notation "'let*' x ':=' m 'in' k" := (bind m (fun x => k))
  (at level 10, x pattern, m at level 100, k at level 200) : py_scope.
Local Open Scope py_scope.

(** [for x in xs: acc = body(acc, x)], stopping at the first exception. *)
Fixpoint for_each {A S : Type} (body : S → A → result S) (xs : list A) (s : S)
  : result S :=
  match xs with
  | [] => Ok s
  | x :: xs' => let* s' := body s x in for_each body xs' s'
  end.

(** [l[i]] for [0 <= i]: an index past the end raises [IndexError]. *)
Definition getitem {A : Type} (l : list A) (i : nat) : result A :=
  match l !! i with
  | Some x => Ok x
  | None => Raise IndexError
  end.

(** [needle in haystack] on Python strings. *)
Fixpoint str_contains (needle haystack : string) : bool :=
  if String.prefix needle haystack then true
  else match haystack with
       | EmptyString => false
       | String _ rest => str_contains needle rest
       end.

(** ** The OME-TIFF reader ([multipagetiff_v2.py]) *)

Module MultipageTiff.

(** What the reader reads of an opened [TiffFile]: the four arrays of
    [micromanager_metadata['IndexMap']], aligned with the page number, and
    the tags of every page. *)
Record Tag : Type := mkTag { tag_name : string; tag_value : list Z }.

Record IndexMap : Type := mkIndexMap {
  Position : list Z;
  Frame : list Z;
  Channel : list Z;
  Slice : list Z
}.

Record TiffFile : Type := mkTiffFile {
  filename : string;
  index_map : IndexMap;
  pages : list (list Tag)
}.

(** The [Summary] fields that [_set_mm_meta] copies into the reader. *)
Record Summary : Type := mkSummary {
  Height : Z;
  Width : Z;
  Frames : Z;
  Slices : Z;
  Channels : Z
}.

Definition coord : Type := (Z * Z * Z * Z)%type.

(** [(file, page, byte_offset)]; the offset is [None] when no tag of the
    page is a strip-offset tag. *)
Definition entry : Type := (string * nat * option Z)%type.

Record Reader : Type := mkReader {
  coord_map : gmap coord entry;
  positions : Z;
  frames : Z;
  channels : Z;
  slices : Z;
  height : Z;
  width : Z
}.

(** The attributes as [__init__] leaves them before [_gather_index_maps]:
    an empty [coord_map], [positions = 0], the rest from the summary. *)
Definition init_reader (s : Summary) : Reader :=
  {| coord_map := ∅;
     positions := 0;
     frames := Frames s;
     channels := Channels s;
     slices := Slices s;
     height := Height s;
     width := Width s |}.

(** [_get_byte_offset]: the first value of the first tag whose name holds
    ['StripOffset'], [None] when the loop ends without a [return]. *)
Fixpoint first_strip_offset (tags : list Tag) : result (option Z) :=
  match tags with
  | [] => Ok None
  | tag :: rest =>
      if str_contains "StripOffset" (tag_name tag)
      then let* v := getitem (tag_value tag) 0 in Ok (Some v)
      else first_strip_offset rest
  end.

Definition _get_byte_offset (tf : TiffFile) (page : nat) : result (option Z) :=
  let* tags := getitem (pages tf) page in first_strip_offset tags.

(** The body of the page loop of [_gather_index_maps]. *)
Definition index_page (tf : TiffFile) (r : Reader) (page : nat) : result Reader :=
  let meta := index_map tf in
  let* c0 := getitem (Position meta) page in
  let* c1 := getitem (Frame meta) page in
  let* c2 := getitem (Channel meta) page in
  let* c3 := getitem (Slice meta) page in
  let* offset := _get_byte_offset tf page in
  let cm := <[(c0, c1, c2, c3) := (filename tf, page, offset)]> (coord_map r) in
  let positions' := if c0 >? positions r then c0 else positions r in
  let frames' := if c1 >? frames r then c1 else frames r in
  let channels' := if c2 >? channels r then c2 else channels r in
  let slices' := if c3 >? slices r then c2 else slices r in
  Ok {| coord_map := cm;
        positions := positions';
        frames := frames';
        channels := channels';
        slices := slices';
        height := height r;
        width := width r |}.

Definition index_file (r : Reader) (tf : TiffFile) : result Reader :=
  for_each (index_page tf) (seq 0 (length (Channel (index_map tf)))) r.

Definition _gather_index_maps (files : list TiffFile) (r : Reader) : result Reader :=
  for_each index_file files r.

(** The index of a data set: [__init__] up to the end of
    [_gather_index_maps]. *)
Definition build (files : list TiffFile) (s : Summary) : result Reader :=
  _gather_index_maps files (init_reader s).

(** The look-up of [_get_image]: [self.coord_map[(p, t, c, z)]]. *)
Definition lookup_coord (r : Reader) (k : coord) : result entry :=
  match coord_map r !! k with
  | Some e => Ok e
  | None => Raise KeyError
  end.

(** [_get_dimensions]: one pass over the keys of [coord_map]. *)
Definition dims_step (position : Z) (k : coord) (acc : Z * Z * Z) : Z * Z * Z :=
  let '(k0, k1, k2, k3) := k in
  let '(t, c, z) := acc in
  if negb (position =? k0) then acc
  else (if k1 >? t then k1 else t,
        if k2 >? c then k2 else c,
        if k3 >? z then k3 else z).

Definition _get_dimensions (r : Reader) (position : Z) : Z * Z * Z :=
  map_fold (fun k _ acc => dims_step position k acc) (0, 0, 0) (coord_map r).

(** [_create_position_array]: the shape of the array it allocates and, in
    the order of its three loops, the planes it fetches with [_get_image];
    a coordinate missing from the index raises [KeyError]. *)
Definition range (n : Z) : list Z := Z.of_nat <$> seq 0 (Z.to_nat n).

Definition _create_position_array (r : Reader) (pos : Z)
  : result (list Z * list (coord * entry)) :=
  let '(timepoints, channels_, slices_) := _get_dimensions r pos in
  let cells :=
    t ← range timepoints; c ← range channels_; z ← range slices_;
    [(pos, t, c, z)] in
  let* planes :=
    for_each (fun acc k => let* e := lookup_coord r k in Ok (acc ++ [(k, e)])%list)
             cells [] in
  Ok ([timepoints; channels_; slices_; height r; width r], planes).

(** What the page directories record: page [page] of file [tf] holds the
    plane of coordinate [k], and [e] names that page and its byte offset. *)
Definition page_record (tf : TiffFile) (page : nat) (k : coord) (e : entry) : Prop :=
  ∃ p t c z off,
    Position (index_map tf) !! page = Some p ∧
    Frame (index_map tf) !! page = Some t ∧
    Channel (index_map tf) !! page = Some c ∧
    Slice (index_map tf) !! page = Some z ∧
    _get_byte_offset tf page = Ok off ∧
    k = (p, t, c, z) ∧ e = (filename tf, page, off).

Definition recorded (files : list TiffFile) (k : coord) (e : entry) : Prop :=
  ∃ tf page, tf ∈ files ∧ page_record tf page k e.

(** [_get_dimensions] looks only at the keys of its position: each
    component bounds the coordinates of that position and is either 0 or
    reached by one of them. *)
Definition dims_spec (p : Z) (m : gmap coord entry) (d : Z * Z * Z) : Prop :=
  let '(t, c, z) := d in
  (∀ k1 k2 k3, is_Some (m !! (p, k1, k2, k3)) → k1 ≤ t ∧ k2 ≤ c ∧ k3 ≤ z) ∧
  (t = 0 ∨ ∃ k2 k3, is_Some (m !! (p, t, k2, k3))) ∧
  (c = 0 ∨ ∃ k1 k3, is_Some (m !! (p, k1, c, k3))) ∧
  (z = 0 ∨ ∃ k1 k2, is_Some (m !! (p, k1, k2, z))).

(** A tag whose name holds ['StripOffset']. *)
Definition is_strip_offset_tag (t : Tag) : Prop :=
  ∃ a b, tag_name t = a +:+ ("StripOffset" +:+ b).

(** The position, frame and channel extents bound the keys of the index
    and do not fall below the values they started from. *)
Definition extents_bound (p0 t0 c0 : Z) (r : Reader) : Prop :=
  (∀ p t c z, is_Some (coord_map r !! (p, t, c, z)) →
              p ≤ positions r ∧ t ≤ frames r ∧ c ≤ channels r) ∧
  p0 ≤ positions r ∧ t0 ≤ frames r ∧ c0 ≤ channels r.

(** The position extent is 0 or the position of a plane of the index. *)
Definition positions_attained (r : Reader) : Prop :=
  positions r = 0 ∨ ∃ t c z, is_Some (coord_map r !! (positions r, t, c, z)).

(** [get_num_positions] *)
Definition get_num_positions (r : Reader) : Z := positions r.

(** *** Position arrays *)

(** A position array: the shape it was allocated with and the planes
    written into it so far, by (t, c, z). *)
Record position_array (plane : Type) : Type := mkPositionArray {
  pa_shape : list Z;
  pa_planes : gmap (Z * Z * Z) plane
}.

Arguments mkPositionArray {plane} _ _.
Arguments pa_shape {plane} _.
Arguments pa_planes {plane} _.

(** The reader with its cache of position arrays. *)
Record ReaderState (plane : Type) : Type := mkReaderState {
  reader : Reader;
  position_arrays : gmap Z (position_array plane)
}.

Arguments mkReaderState {plane} _ _.
Arguments reader {plane} _.
Arguments position_arrays {plane} _.

(** The cells of an array of extents (T, C, Z), in the order of the three
    loops of [_create_position_array]. *)
Definition cells (timepoints channels_ slices_ : Z) : list (Z * Z * Z) :=
  t ← range timepoints; c ← range channels_; z ← range slices_; [(t, c, z)].

Section Assembly.
Context {plane : Type}.

(** [np.memmap(file, dtype=self.dtype, mode='r', offset=..., shape=(height,
    width))]: the plane read at that offset of that file, or what numpy
    raises. *)
Variable memmap : string → option Z → result plane.

Definition _get_image (r : Reader) (p t c z : Z) : result plane :=
  let* e := lookup_coord r (p, t, c, z) in
  memmap e.1.1 e.2.

(** [self.position_arrays[pos][t, c, z, :, :] = plane] *)
Definition write_plane (st : ReaderState plane) (pos : Z) (cell : Z * Z * Z) (pl : plane)
  : ReaderState plane :=
  match position_arrays st !! pos with
  | Some a =>
      mkReaderState (reader st)
        (<[pos := mkPositionArray (pa_shape a) (<[cell := pl]> (pa_planes a))]>
           (position_arrays st))
  | None => st
  end.

(** The three loops of [_create_position_array]: an exception leaves the
    dictionary of position arrays as it is at that moment. *)
Fixpoint fill_planes (pos : Z) (cs : list (Z * Z * Z)) (st : ReaderState plane)
  : ReaderState plane * result unit :=
  match cs with
  | [] => (st, Ok tt)
  | (t, c, z) :: cs' =>
      match _get_image (reader st) pos t c z with
      | Ok pl => fill_planes pos cs' (write_plane st pos (t, c, z) pl)
      | Raise e => (st, Raise e)
      end
  end.

(** [_create_position_array] on the reader and its cache: the empty array
    is put into [position_arrays] first, then filled plane by plane. *)
Definition create_position_array (st : ReaderState plane) (pos : Z)
  : ReaderState plane * result unit :=
  let '(timepoints, channels_, slices_) := _get_dimensions (reader st) pos in
  let shape := [timepoints; channels_; slices_; height (reader st); width (reader st)] in
  fill_planes pos (cells timepoints channels_ slices_)
    (mkReaderState (reader st) (<[pos := mkPositionArray shape ∅]> (position_arrays st))).

(** [get_zarr] *)
Definition get_zarr (st : ReaderState plane) (position : Z)
  : ReaderState plane * result (position_array plane) :=
  let '(st, r) :=
    match position_arrays st !! position with
    | Some _ => (st, Ok tt)
    | None => create_position_array st position
    end in
  match r with
  | Ok _ => (st, match position_arrays st !! position with
                 | Some a => Ok a
                 | None => Raise KeyError
                 end)
  | Raise e => (st, Raise e)
  end.

(** The loop of [__init__] under [extract_data]:
    [for i in range(self.positions): self._create_position_array(i)]. *)
Fixpoint extract_positions (ps : list Z) (st : ReaderState plane)
  : ReaderState plane * result unit :=
  match ps with
  | [] => (st, Ok tt)
  | i :: ps' =>
      match create_position_array st i with
      | (st', Ok _) => extract_positions ps' st'
      | (st', Raise e) => (st', Raise e)
      end
  end.

(** [__init__] on the files that the glob finds, [s] being the summary
    that [_set_mm_meta] reads from the first of them; [_set_dtype] reads
    [pages[0]] of that file.  An exception leaves no reader. *)
Definition MicromanagerOmeTiffReader_init (files : list TiffFile) (s : Summary)
    (extract_data : bool) : result (ReaderState plane) :=
  match files with
  | [] => Raise ValueError
  | first :: _ =>
      let* _ := getitem (pages first) 0 in
      let* r := build files s in
      if extract_data then
        match extract_positions (range (positions r)) (mkReaderState r ∅) with
        | (st, Ok _) => Ok st
        | (_, Raise e) => Raise e
        end
      else Ok (mkReaderState r ∅)
  end.

End Assembly.

(** *** Summary metadata *)

Section StagePositions.
(** [value] stands for the values that the reader copies without looking
    into them, [num] for the numbers of a stage coordinate. *)
Context {value num : Type} `{EqDecision num}.
Variable zero : num.

Record device : Type := mkDevice { Device : string; Position_um : value }.

(** A stage position as MicroManager 1.4 and 2.0-gamma write it: the list
    under ['DevicePositions'], when the key is there, and the other
    entries of the dictionary. *)
Record stage_position : Type := mkStagePosition {
  DevicePositions : option (list device);
  entries : gmap string value
}.

(** [_simplify_stage_position]: [pop] raises [KeyError] on a missing key. *)
Definition _simplify_stage_position (stage_pos : stage_position)
  : result (gmap string value) :=
  match DevicePositions stage_pos with
  | None => Raise KeyError
  | Some devs =>
      Ok (foldl (λ out dev_pos, <[Device dev_pos := Position_um dev_pos]> out)
                (delete "DevicePositions" (entries stage_pos)) devs)
  end.

(** A stage position as MicroManager 2.0-beta writes it. *)
Record subposition : Type := mkSubposition {
  stageName : string;
  sub_x : num;
  sub_y : num;
  sub_z : num
}.

Record stage_position_beta : Type := mkStagePositionBeta {
  label : value;
  gridRow : value;
  gridCol : value;
  subpositions : list subposition
}.

Inductive beta_entry : Type :=
  | BValue (v : value)
  | BNum (x : num)
  | BNums (l : list num).

(** The [values] of one subposition: its non-zero coordinates, in the
    order x, y, z. *)
Definition sub_values (sub : subposition) : list num :=
  filter (λ v, v ≠ zero) [sub_x sub; sub_y sub; sub_z sub].

Definition sub_entry (sub : subposition) : beta_entry :=
  match sub_values sub with
  | [v] => BNum v
  | values => BNums values
  end.

Definition _simplify_stage_position_beta (stage_pos : stage_position_beta)
  : gmap string beta_entry :=
  foldl (λ new_dict sub, <[stageName sub := sub_entry sub]> new_dict)
        (<["GridCol" := BValue (gridCol stage_pos)]>
           (<["GridRow" := BValue (gridRow stage_pos)]>
              (<["Label" := BValue (label stage_pos)]> ∅)))
        (subpositions stage_pos).

End StagePositions.

Arguments device : clear implicits.
Arguments stage_position : clear implicits.
Arguments subposition : clear implicits.
Arguments stage_position_beta : clear implicits.
Arguments beta_entry : clear implicits.

Section SetMeta.
(** [raw] is an element of ['StagePositions'], of the one or the other
    shape by the version that wrote it; the two simplifiers are the
    methods above on that shape. *)
Context {raw simplified value : Type}.
Variable simplify_beta : raw → result simplified.
Variable simplify : raw → result simplified.

(** ['Summary'] of the metadata of the first file. *)
Record SummaryMeta : Type := mkSummaryMeta {
  MicroManagerVersion : string;
  Positions : Z;
  StagePositions : list raw;
  ChNames : list string;
  z_step_um : value;
  extents : Summary;
  AxisOrder : list string
}.

(** [self.stage_positions]: the integer 0 of [__init__], or a list. *)
Inductive stage_positions_attr : Type :=
  | stage_positions_zero
  | stage_positions_list (l : list simplified).

(** What [_set_mm_meta] assigns. *)
Record MetaAttrs : Type := mkMetaAttrs {
  stage_positions : stage_positions_attr;
  channel_names : list string;
  z_step_size : value;
  attr_extents : Summary;
  dim_order : list string;
  p_dim : nat;
  t_dim : nat;
  c_dim : nat;
  z_dim : nat
}.

(** [l.index(x)] *)
Definition list_index (x : string) (l : list string) : result nat :=
  match list_find (λ y, y = x) l with
  | Some (i, _) => Ok i
  | None => Raise ValueError
  end.

(** [for p in range(n): self.stage_positions.append(f(positions[p]))] *)
Definition simplify_each (f : raw → result simplified) (positions : list raw)
    (indices : list nat) : result (list simplified) :=
  for_each (λ acc p, let* sp := getitem positions p in
                     let* pos := f sp in
                     Ok (acc ++ [pos])%list) indices [].

Definition _set_mm_meta (s : SummaryMeta) : result MetaAttrs :=
  let mm_version := MicroManagerVersion s in
  let* (sp, names) :=
    (if str_contains "beta" mm_version then
       let* sp :=
         (if Positions s >? 1 then
            let* l := simplify_each simplify_beta (StagePositions s)
                                    (seq 0 (length (StagePositions s))) in
            Ok (stage_positions_list l)
          else Ok stage_positions_zero) in
       Ok (sp, [])
     else if String.eqb mm_version "1.4.22" then
       Ok (stage_positions_zero, ChNames s)
     else
       let* sp :=
         (if Positions s >? 1 then
            let* l := simplify_each simplify (StagePositions s)
                                    (seq 0 (Z.to_nat (Positions s))) in
            Ok (stage_positions_list l)
          else Ok stage_positions_zero) in
       Ok (sp, ChNames s)) in
  let order := reverse (AxisOrder s) in
  let* p := list_index "position" order in
  let* t := list_index "time" order in
  let* c := list_index "channel" order in
  let* z := list_index "z" order in
  Ok (mkMetaAttrs sp names (z_step_um s) (extents s) order p t c z).

End SetMeta.

(** *** Sample data sets *)

Definition sample_tags (offset : Z) : list Tag :=
  [mkTag "ImageWidth" [512]; mkTag "StripOffsets" [offset]; mkTag "StripByteCounts" [524288]].

(** One file: position 0 with slices 0, 1, 2 and position 1 with slices
    0, 1, all at time 0 and channel 0. *)
Definition ragged_file : TiffFile :=
  mkTiffFile "ragged_MMStack.ome.tif"
    (mkIndexMap [0; 0; 0; 1; 1] [0; 0; 0; 0; 0] [0; 0; 0; 0; 0] [0; 1; 2; 0; 1])
    [sample_tags 8; sample_tags 524460; sample_tags 1048912;
     sample_tags 1573364; sample_tags 2097816].

Definition ragged_summary : Summary :=
  {| Height := 512; Width := 512; Frames := 1; Slices := 1; Channels := 1 |}.

(** Two files that both hold the plane (0, 0, 0, 0). *)
Definition twice_a : TiffFile :=
  mkTiffFile "a.ome.tif" (mkIndexMap [0; 0] [0; 0] [0; 1] [0; 0])
    [sample_tags 8; sample_tags 524460].

Definition twice_b : TiffFile :=
  mkTiffFile "b.ome.tif" (mkIndexMap [0] [0] [0] [0]) [sample_tags 16].

Definition reader_of (m : result Reader) : Reader :=
  match m with
  | Ok r => r
  | Raise _ => init_reader ragged_summary
  end.

(** Position 0 with the planes (0, 0, 0) and (1, 1, 1): [_get_dimensions]
    spans the box of the single cell (0, 0, 0). *)
Definition boxed_file : TiffFile :=
  mkTiffFile "boxed.ome.tif" (mkIndexMap [0; 0] [0; 1] [0; 1] [0; 1])
    [sample_tags 8; sample_tags 524460].

(** Position 0 with the planes (0, 0, 0) and (1, 1, 2): the cell (0, 0, 1)
    of the box is not in the index. *)
Definition holed_file : TiffFile :=
  mkTiffFile "holed.ome.tif" (mkIndexMap [0; 0] [0; 1] [0; 1] [0; 2])
    [sample_tags 8; sample_tags 524460].

(** A plane stands for the file and the offset it is mapped from. *)
Definition sample_memmap (file : string) (offset : option Z) : result (string * Z) :=
  match offset with
  | Some o => Ok (file, o)
  | None => Raise TypeError
  end.

Definition fresh_state (files : list TiffFile) : ReaderState (string * Z) :=
  mkReaderState (reader_of (build files ragged_summary)) ∅.

Definition after_get_zarr (st : ReaderState (string * Z)) (position : Z)
  : ReaderState (string * Z) :=
  (get_zarr sample_memmap st position).1.

Definition opened_with_data (files : list TiffFile) : ReaderState (string * Z) :=
  match MicromanagerOmeTiffReader_init sample_memmap files ragged_summary true with
  | Ok st => st
  | Raise _ => fresh_state files
  end.

(** The summary of a data set of two positions written by a 2.0-gamma
    version, each position with an XY stage and a Z stage; coordinates in
    tenths of a micrometre. *)
Definition sample_stage_position (name : Z) (x z : Z) : stage_position Z :=
  mkStagePosition (Some [mkDevice "XYStage" x; mkDevice "ZStage" z])
                  {[ "Label" := name; "GridRow" := 0; "GridCol" := name ]}.

Definition sample_summary_meta : SummaryMeta (raw := stage_position Z) (value := Z) :=
  mkSummaryMeta "2.0.0-gamma1" 2
                [sample_stage_position 0 100 5; sample_stage_position 1 200 5]
                ["DAPI"; "GFP"] 5 ragged_summary
                ["position"; "time"; "z"; "channel"].

(** On a stage position of that shape the beta reader finds no ['label']. *)
Definition sample_simplify_beta (sp : stage_position Z) : result (gmap string Z) :=
  Raise KeyError.

Definition sample_meta_attrs : MetaAttrs (simplified := gmap string Z) (value := Z) :=
  match _set_mm_meta sample_simplify_beta _simplify_stage_position sample_summary_meta with
  | Ok a => a
  | Raise _ => mkMetaAttrs stage_positions_zero [] 0 ragged_summary [] 0 0 0 0
  end.

End MultipageTiff.

(** ** The OME-NGFF node tree ([ngff.py]) *)

Module Ngff.

(** *** Attribute documents *)

(** A value of a [.zattrs] document. *)
#[warnings="-register-all"]
Inductive json : Type :=
  | JNull
  | JBool (b : bool)
  | JInt (n : Z)
  | JStr (s : string)
  | JList (l : list json)
  | JDict (d : list (string * json)).

(** Python truthiness, as [if x := attrs.get(key)] tests it. *)
Definition truthy (j : json) : bool :=
  match j with
  | JNull => false
  | JBool b => b
  | JInt n => negb (n =? 0)
  | JStr s => negb (String.eqb s "")
  | JList l => negb (bool_decide (l = []))
  | JDict d => negb (bool_decide (d = []))
  end.

Definition truthy_opt (o : option json) : bool :=
  match o with
  | Some j => truthy j
  | None => false
  end.

(** The display settings of one channel come from [iohub.lf_utils]; the
    node tree reads only their label. *)
Class Display : Type := {
  ChannelMeta : Type;
  label : ChannelMeta → string;
  (** [channel_display_settings(name, clim=None, first_chan=...)];
      [None] stands for the default of [first_chan]. *)
  channel_display_settings : string → option bool → ChannelMeta
}.

(** The schema classes of [iohub.ngff_meta], with the fields that [ngff.py]
    reads or writes. *)
Record AxisMeta : Type := mkAxisMeta {
  axis_name : string;
  axis_type : string;
  axis_unit : option string
}.

Record TransformationMeta : Type := mkTransformationMeta { transformation_type : string }.

Record DatasetMeta : Type := mkDatasetMeta {
  dataset_path : string;
  coordinate_transformations : list TransformationMeta
}.

Record MultiScaleMeta : Type := mkMultiScaleMeta {
  ms_version : string;
  ms_axes : list AxisMeta;
  datasets : list DatasetMeta;
  ms_name : string;
  coordinateTransformations : list TransformationMeta
}.

Definition get_dataset_paths (ms : MultiScaleMeta) : list string :=
  dataset_path <$> datasets ms.

Record OMEROMeta `{Display} : Type := mkOMEROMeta {
  omero_version : string;
  omero_id : Z;
  omero_name : string;
  channels : list ChannelMeta
}.

Record ImagesMeta `{Display} : Type := mkImagesMeta {
  multiscales : list MultiScaleMeta;
  omero : OMEROMeta
}.

Arguments mkOMEROMeta {_} _ _ _ _.
Arguments mkImagesMeta {_} _ _.

Record ImageMeta : Type := mkImageMeta { acquisition : Z; image_path : string }.

Record WellGroupMeta : Type := mkWellGroupMeta { images : list ImageMeta }.

Record AcquisitionMeta : Type := mkAcquisitionMeta { acquisition_id : Z }.

Record PlateAxisMeta : Type := mkPlateAxisMeta { plate_axis_name : string }.

Record WellIndexMeta : Type := mkWellIndexMeta {
  well_path : string;
  row_index : Z;
  column_index : Z
}.

Record PlateMeta : Type := mkPlateMeta {
  plate_version : string;
  plate_name : option string;
  acquisitions : list AcquisitionMeta;
  rows : list PlateAxisMeta;
  columns : list PlateAxisMeta;
  wells : list WellIndexMeta;
  field_count : option Z
}.

#[global] Instance AxisMeta_eq_dec : EqDecision AxisMeta.
Proof. solve_decision. Defined.
#[global] Instance PlateAxisMeta_eq_dec : EqDecision PlateAxisMeta.
Proof. solve_decision. Defined.

(** Validation and serialisation of the documents ([pydantic]), outside the
    repository: a parser returns the typed document or raises. *)
Class Schema `{Display} : Type := {
  (** [ImagesMeta(multiscales=..., omero=...)] *)
  ImagesMeta_parse : json → json → result ImagesMeta;
  (** [metadata.dict] under [TO_DICT_SETTINGS]: the keys it holds and their values *)
  ImagesMeta_dict : ImagesMeta → list (string * json);
  (** [WellGroupMeta] on the entries of the stored [well] document *)
  WellGroupMeta_parse : json → result WellGroupMeta;
  WellGroupMeta_dict : WellGroupMeta → json;
  (** [PlateMeta] on the entries of the stored [plate] document *)
  PlateMeta_parse : json → result PlateMeta;
  PlateMeta_dict : PlateMeta → json
}.

(** The chunked-array engine ([zarr]), as far as it decides on its own. *)
Class Engine : Type := {
  (** [zarr.util.normalize_storage_path] *)
  normalize_storage_path : string → string;
  (** [img.resize(shape)] on an array of shape [old]: the shape the array
      has afterwards, or the exception of the engine. *)
  array_resize : list Z → list Z → result (list Z)
}.

Definition _DEFAULT_AXES : list AxisMeta :=
  [ mkAxisMeta "T" "time" (Some "second");
    mkAxisMeta "C" "channel" None;
    mkAxisMeta "Z" "space" (Some "micrometer");
    mkAxisMeta "Y" "space" (Some "micrometer");
    mkAxisMeta "X" "space" (Some "micrometer") ].

(** [_pad_shape]: [(1,) * pad + shape]; a non-positive [pad] adds nothing. *)
Definition _pad_shape (shape : list Z) (target : nat) : list Z :=
  (replicate (target - length shape)%nat 1 ++ shape)%list.

(** *** The world: list objects, the store, the log *)

(** One group of the store: its attribute document and the shapes of its
    arrays, by name. *)
Record GroupData : Type := mkGroupData {
  attrs : gmap string json;
  arrays : gmap string (list Z)
}.

(** What becomes of the store path on the file system. *)
Inductive path_kind : Type := Missing | RegularFile | Directory.

Definition os_path_exists (k : path_kind) : bool :=
  match k with Missing => false | _ => true end.

Definition os_path_isdir (k : path_kind) : bool :=
  match k with Directory => true | _ => false end.

(** [lists] holds the Python list objects of channel names by address, so
    that two nodes holding the same address hold the same object; [groups]
    holds the groups of the store by path (the root is [""], a child of
    [p] is [p/name]); [warnings] is what [logging.warning] received. *)
Record World : Type := mkWorld {
  lists : gmap nat (list string);
  disk : path_kind;
  groups : gmap string GroupData;
  warnings : list string
}.

Definition M (A : Type) : Type := World → World * result A.

Definition ret {A : Type} (a : A) : M A := λ w, (w, Ok a).

Definition raise {A : Type} (e : exn) : M A := λ w, (w, Raise e).

Definition bindM {A B : Type} (m : M A) (f : A → M B) : M B :=
  λ w, match m w with
       | (w', Ok a) => f a w'
       | (w', Raise e) => (w', Raise e)
       end.

Notation "'let!' x ':=' m 'in' k" := (bindM m (λ x, k))
  (at level 10, x pattern, m at level 100, k at level 200) : py_scope.
Notation "'do!' m 'in' k" := (bindM m (λ _, k))
  (at level 10, m at level 100, k at level 200) : py_scope.

Definition lift {A : Type} (r : result A) : M A := λ w, (w, r).

Definition logging_warning (msg : string) : M unit :=
  λ w, (mkWorld (lists w) (disk w) (groups w) (warnings w ++ [msg])%list, Ok tt).

(** [for x in xs: body(x)] *)
Fixpoint for_eachM {A : Type} (body : A → M unit) (xs : list A) : M unit :=
  match xs with
  | [] => ret tt
  | x :: xs' => do! body x in for_eachM body xs'
  end.

(** A new list object. *)
Definition new_list (l : list string) : M nat :=
  λ w, let a := fresh (dom (lists w)) in
       (mkWorld (<[a := l]> (lists w)) (disk w) (groups w) (warnings w), Ok a).

(** Reading the list at an address; an attribute that was never set is
    [None] and reading it raises [AttributeError]. *)
Definition read_list (a : option nat) : M (list string) :=
  λ w, match a with
       | Some a => match lists w !! a with
                   | Some l => (w, Ok l)
                   | None => (w, Raise AttributeError)
                   end
       | None => (w, Raise AttributeError)
       end.

(** [l.append(x)] on the list object at [a]. *)
Definition list_append (a : nat) (x : string) : M unit :=
  λ w, match lists w !! a with
       | Some l => (mkWorld (<[a := (l ++ [x])%list]> (lists w)) (disk w) (groups w)
                            (warnings w), Ok tt)
       | None => (w, Raise AttributeError)
       end.

(** [if channel_names:] on an optional list object. *)
Definition list_truthy (w : World) (a : option nat) : bool :=
  match a with
  | Some a => match lists w !! a with
              | Some (_ :: _) => true
              | _ => false
              end
  | None => false
  end.

(** *** Paths and the store *)


Fixpoint basename_from (acc s : string) : string :=
  match s with
  | EmptyString => acc
  | String c rest =>
      if Ascii.eqb c "/"%char then basename_from "" rest
      else basename_from (acc +:+ String c "") rest
  end.

Definition basename (s : string) : string := basename_from "" s.

Definition join_path (p name : string) : string :=
  if String.eqb p "" then name else p +:+ "/" +:+ name.

Fixpoint ends_with_slash (s : string) : bool :=
  match s with
  | EmptyString => false
  | String c EmptyString => Ascii.eqb c "/"%char
  | String _ rest => ends_with_slash rest
  end.

(** [os.path.join(a, b)] *)
Definition os_path_join (a b : string) : string :=
  if String.prefix "/" b then b
  else if String.eqb a "" then b
  else if ends_with_slash a then a +:+ b
  else a +:+ "/" +:+ b.

(** [q] is the path of a direct child of [p]: its name. *)
Definition child_key (p q : string) : option string :=
  let name :=
    if String.eqb p "" then Some q
    else if String.prefix (p +:+ "/") q
         then Some (String.substring (String.length p + 1)
                                     (String.length q - String.length p - 1) q)
         else None in
  match name with
  | Some k => if String.eqb k "" || str_contains "/" k then None else Some k
  | None => None
  end.

Fixpoint insert_sorted (x : string) (l : list string) : list string :=
  match l with
  | [] => [x]
  | y :: l' => if String.leb x y then x :: l else y :: insert_sorted x l'
  end.

(** [sorted(...)] of a list of strings. *)
Definition sorted (l : list string) : list string := foldr insert_sorted [] l.

(** [group_keys()]: the sorted keys of the child groups of the group at [p]. *)
Definition group_keys (w : World) (p : string) : list string :=
  sorted (omap (child_key p) (elements (dom (groups w)))).

(** [array_keys()]: the sorted keys of the arrays of the group at [p]. *)
Definition array_keys (w : World) (p : string) : list string :=
  match groups w !! p with
  | Some g => sorted (elements (dom (arrays g)))
  | None => []
  end.

Definition set_groups (w : World) (gs : gmap string GroupData) : World :=
  mkWorld (lists w) (disk w) gs (warnings w).

Definition empty_group : GroupData := mkGroupData ∅ ∅.

(** [q] is [p] or below [p]. *)
Definition under (p q : string) : bool :=
  String.eqb p q || String.prefix (p +:+ "/") q.

(** [group.create_group(name, overwrite=...)] on the group at [p]: a
    member of that name is an error unless [overwrite], which removes it
    with all below it; the path of the new, empty group is returned. *)
Definition create_group (p name : string) (overwrite : bool) : M string :=
  λ w,
  let q := join_path p name in
  let is_array := match groups w !! p with
                  | Some g => bool_decide (is_Some (arrays g !! name))
                  | None => false
                  end in
  let is_group := bool_decide (is_Some (groups w !! q)) in
  if negb overwrite && is_array then (w, Raise ContainsArrayError)
  else if negb overwrite && is_group then (w, Raise ContainsGroupError)
  else
    let kept := filter (λ kv, under q kv.1 = false) (groups w) in
    let parent := match kept !! p with
                  | Some g => <[p := mkGroupData (attrs g) (delete name (arrays g))]> kept
                  | None => kept
                  end in
    (set_groups w (<[q := empty_group]> parent), Ok q).

(** [group[name]] for a child group. *)
Definition group_getitem (p name : string) : M string :=
  λ w, let q := join_path p name in
       match groups w !! q with
       | Some _ => (w, Ok q)
       | None => (w, Raise KeyError)
       end.

(** [path in group]: a group or an array is stored at [path] below [p]. *)
Definition group_contains (w : World) (p path : string) : bool :=
  bool_decide (is_Some (groups w !! join_path p path))
  || existsb (λ q, match groups w !! q with
                   | Some g => existsb (λ a, String.eqb (join_path q a) (join_path p path))
                                       (elements (dom (arrays g)))
                   | None => false
                   end) (elements (dom (groups w))).

(** [group.attrs.get(key)] *)
Definition zattrs_get (p key : string) : M (option json) :=
  λ w, match groups w !! p with
       | Some g => (w, Ok (attrs g !! key))
       | None => (w, Raise KeyError)
       end.

(** [group.attrs.update(doc)] *)
Definition zattrs_update (p : string) (doc : list (string * json)) : M unit :=
  λ w, match groups w !! p with
       | Some g =>
           let a := foldl (λ m kv, <[kv.1 := kv.2]> m) (attrs g) doc in
           (set_groups w (<[p := mkGroupData a (arrays g)]> (groups w)), Ok tt)
       | None => (w, Raise KeyError)
       end.

(** [group.get(key)] followed by [if not znode]: a group without members
    is falsy (its [len] is 0), as is a missing key. *)
Definition group_len (w : World) (q : string) : nat :=
  (length (group_keys w q) + length (array_keys w q))%nat.

Definition get_world : M World := λ w, (w, Ok w).

(** The shape of the array [key] of the group at [p], if there is one. *)
Definition arrays_at (w : World) (p key : string) : option (list Z) :=
  match groups w !! p with
  | Some g => arrays g !! key
  | None => None
  end.

(** The group at [q] has no member: no array, and no group of the store
    is its child. *)
Definition memberless (w : World) (q : string) : Prop :=
  (∃ g, groups w !! q = Some g ∧ arrays g = ∅) ∧
  ∀ k, is_Some (groups w !! k) → child_key q k = None.

(** *** Nodes *)

(** The attributes of an [NGFFNode]; an attribute that [__init__] may leave
    unset is an option, and reading it unset raises [AttributeError].
    [_group] is the path of the node's group. *)
Record NGFFNode (Meta : Type) : Type := mkNode {
  _group : string;
  _channel_names : option nat;
  axes : option (list AxisMeta);
  _version : string;
  _overwrite : bool;
  metadata : option Meta
}.

Arguments mkNode {Meta} _ _ _ _ _ _.
Arguments _group {Meta} _.
Arguments _channel_names {Meta} _.
Arguments axes {Meta} _.
Arguments _version {Meta} _.
Arguments _overwrite {Meta} _.
Arguments metadata {Meta} _.

Definition set_channel_names {Meta} (self : NGFFNode Meta) (a : option nat) : NGFFNode Meta :=
  mkNode (_group self) a (axes self) (_version self) (_overwrite self) (metadata self).

Definition set_axes {Meta} (self : NGFFNode Meta) (ax : option (list AxisMeta)) : NGFFNode Meta :=
  mkNode (_group self) (_channel_names self) ax (_version self) (_overwrite self) (metadata self).

Definition set_metadata {Meta} (self : NGFFNode Meta) (m : option Meta) : NGFFNode Meta :=
  mkNode (_group self) (_channel_names self) (axes self) (_version self) (_overwrite self) m.

(** The keyword arguments a node passes to the constructor of a child:
    the parent's own list object of channel names, its axes, version and
    overwrite flag. Reading an unset attribute raises. *)
Record child_attrs : Type := mkChildAttrs {
  ca_version : string;
  ca_axes : list AxisMeta;
  ca_channel_names : nat;
  ca_overwriting_creation : bool
}.

Definition _child_attrs {Meta} (self : NGFFNode Meta) : result child_attrs :=
  match axes self, _channel_names self with
  | Some ax, Some a => Ok (mkChildAttrs (_version self) ax a (_overwrite self))
  | _, _ => Raise AttributeError
  end.

Definition _warn_invalid_meta {Meta} (self : NGFFNode Meta) (type_name : string) : M unit :=
  logging_warning ("Zarr group at " +:+ _group self +:+
                   " does not have valid metadata for " +:+ type_name).

(** [NGFFNode.__init__]; [_parse_meta] is the method of the subclass. *)
Definition NGFFNode_init {Meta} (_parse_meta : NGFFNode Meta → M (NGFFNode Meta))
    (group : string) (parse_meta : bool) (channel_names : option nat)
    (axes_arg : option (list AxisMeta)) (version : string)
    (overwriting_creation : bool) : M (NGFFNode Meta) :=
  let! w := get_world in
  if negb (list_truthy w channel_names) && negb parse_meta then raise ValueError
  else
    let self :=
      mkNode group
             (if list_truthy w channel_names then channel_names else None)
             (match axes_arg with Some (_ :: _) => axes_arg | _ => None end)
             version overwriting_creation None in
    let! self := (if parse_meta then _parse_meta self else ret self) in
    ret (match axes self with
         | Some _ => self
         | None => set_axes self (Some _DEFAULT_AXES)
         end).

Section Nodes.
Context `{Display, !Schema, Engine}.

(** *** Position *)

Definition Position : Type := NGFFNode ImagesMeta.

Definition Position_parse_meta (self : Position) : M Position :=
  let! raw_multiscales := zattrs_get (_group self) "multiscales" in
  let! raw_omero := zattrs_get (_group self) "omero" in
  match raw_multiscales, raw_omero with
  | Some ms, Some om =>
      if truthy ms && truthy om then
        match ImagesMeta_parse ms om with
        | Ok meta =>
            let! names := new_list (label <$> channels (omero meta)) in
            let! ms0 := lift (getitem (multiscales meta) 0) in
            ret (mkNode (_group self) (Some names) (Some (ms_axes ms0))
                        (_version self) (_overwrite self) (Some meta))
        | Raise ValidationError =>
            do! _warn_invalid_meta self "Position" in ret self
        | Raise e => raise e
        end
      else do! _warn_invalid_meta self "Position" in ret self
  | _, _ => do! _warn_invalid_meta self "Position" in ret self
  end.

Definition Position_init := NGFFNode_init Position_parse_meta.

Definition Position_dump_meta (self : Position) : M unit :=
  match metadata self with
  | Some meta => zattrs_update (_group self) (ImagesMeta_dict meta)
  | None => raise AttributeError
  end.

(** [_find_axis]: the index of the first axis of that type, or [None]. *)
Definition _find_axis (self : Position) (type : string) : result (option nat) :=
  match axes self with
  | Some ax => Ok (fst <$> list_find (λ a, axis_type a = type) ax)
  | None => Raise AttributeError
  end.

(** Whether [images()] yields the array of that shape: [__getitem__]
    raises [KeyError] on a falsy array (first axis of length 0; a rank-0
    array has no [len]), and [ImageArray._get_dims] unpacks the padded
    shape into five names; [iteritems] logs what raises and moves on. *)
Definition loadable (shape : list Z) : bool :=
  match shape with
  | [] => false
  | d :: _ => negb (d =? 0) && bool_decide (length (_pad_shape shape 5) = 5%nat)
  end.

(** The shape that [append_channel] asks the array to take. *)
Definition channel_resize_request (ch_ax : nat) (shape : list Z) : result (list Z) :=
  if bool_decide (ch_ax < length shape)%nat then Ok (alter (λ n, n + 1) ch_ax shape)
  else if bool_decide (ch_ax = length shape) then Ok (_pad_shape shape (length shape + 1))
  else Raise IndexError.

Definition set_array (p key : string) (shape : list Z) : M unit :=
  λ w, match groups w !! p with
       | Some g => (set_groups w (<[p := mkGroupData (attrs g) (<[key := shape]> (arrays g))]>
                                     (groups w)), Ok tt)
       | None => (w, Raise KeyError)
       end.

(** One turn of [for _, img in self.images(): ...] in [append_channel]. *)
Definition resize_image (self : Position) (ch_ax : nat) (key : string) : M unit :=
  let! w := get_world in
  match arrays_at w (_group self) key with
  | Some shape =>
      if loadable shape then
        let! request := lift (channel_resize_request ch_ax shape) in
        let! shape' := lift (array_resize shape request) in
        set_array (_group self) key shape'
      else logging_warning ("Skipped item at " +:+ key)
  | None => logging_warning ("Skipped item at " +:+ key)
  end.

Definition append_omero_channel (meta : ImagesMeta) (c : ChannelMeta) : ImagesMeta :=
  mkImagesMeta (multiscales meta)
    (mkOMEROMeta (omero_version (omero meta)) (omero_id (omero meta))
                 (omero_name (omero meta)) (channels (omero meta) ++ [c])%list).

Definition append_channel (self : Position) (chan_name : string) (resize_arrays : bool)
  : M Position :=
  let! names := read_list (_channel_names self) in
  if bool_decide (chan_name ∈ names) then raise ValueError
  else
    do! (match _channel_names self with
         | Some a => list_append a chan_name
         | None => raise AttributeError
         end) in
    do! (if resize_arrays then
           let! ch_ax := lift (_find_axis self "channel") in
           match ch_ax with
           | None => raise KeyError
           | Some ch_ax =>
               let! w := get_world in
               for_eachM (resize_image self ch_ax) (array_keys w (_group self))
           end
         else ret tt) in
    match metadata self with
    | None => raise AttributeError
    | Some meta =>
        (* [ImagesMeta] declares [omero], so the key is in [metadata.dict()] *)
        let self' := set_metadata self
          (Some (append_omero_channel meta (channel_display_settings chan_name None))) in
        do! Position_dump_meta self' in
        ret self'
    end.

Definition _check_shape (self : Position) (data_shape : list Z) : M unit :=
  match axes self with
  | None => raise AttributeError
  | Some ax =>
      if negb (bool_decide (length data_shape = length ax)) then raise ValueError
      else
        let! names := read_list (_channel_names self) in
        let num_ch := Z.of_nat (length names) in
        let! ch_axis := lift (_find_axis self "channel") in
        match ch_axis with
        | Some (S i) =>
            let! n := lift (getitem data_shape (S i)) in
            if n >? num_ch then raise ValueError
            else if n <? num_ch then logging_warning "Image has fewer channels than the dataset."
            else ret tt
        | _ => ret tt
        end
  end.

(** [_omero_meta]: [first_chan] is bound in the first turn of the loop and
    never rebound, so every channel is built with [first_chan=True]. *)
Definition _omero_meta (self : Position) (id : Z) (name : string) : M OMEROMeta :=
  let! names := read_list (_channel_names self) in
  ret (mkOMEROMeta (_version self) id name
         ((λ n, channel_display_settings n (Some true)) <$> names)).

Definition _create_image_meta (self : Position) (name : string)
    (transform : list TransformationMeta) : M Position :=
  let transform := match transform with
                   | [] => [mkTransformationMeta "identity"]
                   | _ => transform
                   end in
  let dataset_meta := mkDatasetMeta name transform in
  let! self :=
    match metadata self with
    | None =>
        match axes self with
        | None => raise AttributeError
        | Some ax =>
            let! om := _omero_meta self 0 (basename (_group self)) in
            ret (set_metadata self
                   (Some (mkImagesMeta
                            [mkMultiScaleMeta (_version self) ax [dataset_meta] name transform]
                            om)))
        end
    | Some meta =>
        match multiscales meta with
        | [] => raise IndexError
        | ms0 :: rest =>
            if bool_decide (name ∈ get_dataset_paths ms0) then ret self
            else ret (set_metadata self
                        (Some (mkImagesMeta
                                 (mkMultiScaleMeta (ms_version ms0) (ms_axes ms0)
                                    (datasets ms0 ++ [dataset_meta])%list (ms_name ms0)
                                    (coordinateTransformations ms0) :: rest)
                                 (omero meta))))
        end
    end in
  do! Position_dump_meta self in
  ret self.

(** [group.array(name, data, ..., overwrite=...)], by the shape of [data]. *)
Definition group_array (p name : string) (shape : list Z) (overwrite : bool) : M unit :=
  let! w := get_world in
  match groups w !! p with
  | None => raise KeyError
  | Some g =>
      if negb overwrite && bool_decide (is_Some (arrays g !! name))
      then raise ContainsArrayError
      else if negb overwrite && bool_decide (is_Some (groups w !! join_path p name))
      then raise ContainsGroupError
      else
        let kept := filter (λ kv, under (join_path p name) kv.1 = false) (groups w) in
        λ w, (set_groups w (<[p := mkGroupData (attrs g) (<[name := shape]> (arrays g))]> kept),
              Ok tt)
  end.

(** [create_image], by the shape of [data]; the chunk size does not enter
    what is modelled of the array. *)
Definition create_image (self : Position) (name : string) (data_shape : list Z)
    (transform : list TransformationMeta) (check_shape : bool) : M Position :=
  do! (if check_shape then _check_shape self data_shape else ret tt) in
  do! group_array (_group self) name data_shape (_overwrite self) in
  if negb (bool_decide (length (_pad_shape data_shape 5) = 5%nat)) then raise ValueError
  else _create_image_meta self (basename name) transform.

(** [self.channel_names] *)
Definition channel_names {Meta} (self : NGFFNode Meta) : M (list string) :=
  read_list (_channel_names self).

(** The shapes of the arrays of a position, by sorted key. *)
Definition array_shapes (w : World) (self : Position) : list (string * list Z) :=
  omap (λ k, (λ s, (k, s)) <$> arrays_at w (_group self) k)
       (array_keys w (_group self)).

(** What a run leaves alone outside the arrays of the group at [p]. *)
Definition frame (p : string) (w w' : World) : Prop :=
  lists w' = lists w ∧ disk w' = disk w ∧
  (∀ q, q ≠ p → groups w' !! q = groups w !! q) ∧
  attrs <$> groups w' !! p = attrs <$> groups w !! p.

(** The outcome of one turn of the loop of [append_channel] on an array:
    its shape before, the result of the turn, its shape after. *)
Definition turn_outcome (ch_ax : nat) (old : option (list Z)) (r : result unit)
    (new : option (list Z)) : Prop :=
  match old with
  | Some shape =>
      if loadable shape then
        match channel_resize_request ch_ax shape with
        | Ok request =>
            match array_resize shape request with
            | Ok shape' => r = Ok tt ∧ new = Some shape'
            | Raise e => r = Raise e ∧ new = old
            end
        | Raise e => r = Raise e ∧ new = old
        end
      else r = Ok tt ∧ new = old
  | None => r = Ok tt ∧ new = None
  end.

(** The world once [chan_name] is on the list object at [a]. *)
Definition after_append (w : World) (a : nat) (names : list string) (chan_name : string)
  : World :=
  mkWorld (<[a := (names ++ [chan_name])%list]> (lists w)) (disk w) (groups w) (warnings w).

(** [NGFFNode.__getitem__] for a key that names a group; the number of
    ['/'] in the key picks the class of the item along the chain of member
    types, and the caller passes the [_parse_meta] of that class. The item
    is built with [parse_meta=True] and the [_child_attrs] of [self]. A
    missing or member-less group raises [KeyError]. *)
Definition getitem_child {Meta Meta'} (_parse_meta : NGFFNode Meta' → M (NGFFNode Meta'))
    (self : NGFFNode Meta) (key : string) : M (NGFFNode Meta') :=
  let key := normalize_storage_path key in
  let! w := get_world in
  let q := join_path (_group self) key in
  match groups w !! q with
  | None => raise KeyError
  | Some _ =>
      if bool_decide (group_len w q = 0%nat) then raise KeyError
      else
        let! ca := lift (_child_attrs self) in
        NGFFNode_init _parse_meta q true (Some (ca_channel_names ca)) (Some (ca_axes ca))
                      (ca_version ca) (ca_overwriting_creation ca)
  end.

(** [NGFFNode.__delitem__]: the statement [del self[key]] in its body
    calls the method itself.  [depth] is the number of nested calls that
    the interpreter allows; past it Python raises [RecursionError], a
    [RuntimeError].  [member_names] is the [_member_names] of the class of
    the node: [group_keys], or [array_keys] for a position. *)
Fixpoint NGFFNode_delitem {Meta : Type} (member_names : World → string → list string)
    (depth : nat) (self : NGFFNode Meta) (key : string) : M unit :=
  match depth with
  | O => raise RuntimeError
  | S depth' =>
      let key := normalize_storage_path key in
      let! w := get_world in
      if bool_decide (key ∈ member_names w (_group self))
      then NGFFNode_delitem member_names depth' self key
      else ret tt
  end.

(** One turn of [iteritems] on a position: [self[key]] is yielded, or what
    it raises is logged. *)
Definition yield_image (self : Position) (acc : list (string * list Z)) (key : string)
  : M (list (string * list Z)) :=
  let! w := get_world in
  match arrays_at w (_group self) key with
  | Some shape =>
      if loadable shape then ret (acc ++ [(key, shape)])%list
      else do! logging_warning ("Skipped item at " +:+ key) in ret acc
  | None => do! logging_warning ("Skipped item at " +:+ key) in ret acc
  end.

Fixpoint yield_images (self : Position) (keys : list string) (acc : list (string * list Z))
  : M (list (string * list Z)) :=
  match keys with
  | [] => ret acc
  | key :: keys' => let! acc := yield_image self acc key in yield_images self keys' acc
  end.

(** [list(self.images())]: the names and shapes of the arrays that
    [images] yields, in its order. *)
Definition images_list (self : Position) : M (list (string * list Z)) :=
  let! w := get_world in
  yield_images self (array_keys w (_group self)) [].

(** *** Well *)

Definition Well : Type := NGFFNode WellGroupMeta.

Definition Well_parse_meta (self : Well) : M Well :=
  let! well_group_meta := zattrs_get (_group self) "well" in
  match well_group_meta with
  | Some j =>
      if truthy j then
        let! meta := lift (WellGroupMeta_parse j) in
        ret (set_metadata self (Some meta))
      else do! _warn_invalid_meta self "Well" in ret self
  | None => do! _warn_invalid_meta self "Well" in ret self
  end.

Definition Well_init := NGFFNode_init Well_parse_meta.

Definition Well_dump_meta (self : Well) : M unit :=
  match metadata self with
  | Some meta => zattrs_update (_group self) [("well", WellGroupMeta_dict meta)]
  | None => raise AttributeError
  end.

Definition Well_getitem (self : Well) (key : string) : M Position :=
  getitem_child Position_parse_meta self key.

(** [Well.create_position]: the well as it is afterwards, and the new
    position. *)
Definition Well_create_position (self : Well) (name : string) (acquisition_ : Z)
  : M (Well * Position) :=
  let! pos_grp := create_group (_group self) name (_overwrite self) in
  let image_meta := mkImageMeta acquisition_ (basename pos_grp) in
  let self := set_metadata self
    (Some (match metadata self with
           | None => mkWellGroupMeta [image_meta]
           | Some meta => mkWellGroupMeta (images meta ++ [image_meta])%list
           end)) in
  do! Well_dump_meta self in
  let! ca := lift (_child_attrs self) in
  let! pos := Position_init pos_grp false (Some (ca_channel_names ca)) (Some (ca_axes ca))
                            (ca_version ca) (ca_overwriting_creation ca) in
  ret (self, pos).

(** *** Row *)

Definition Row : Type := NGFFNode unit.

Definition Row_parse_meta (self : Row) : M Row := ret self.

(** *** Plate *)

Record Plate : Type := mkPlate {
  plate_node : NGFFNode PlateMeta;
  _name : option string;
  _acquisitions : list AcquisitionMeta;
  _rows : gmap string Z;
  _cols : gmap string Z
}.

(** [_first_pos_attr]: the attribute of the first position of the first
    well of the first row, when there is one and it has the attribute. *)
Inductive node_attr : Type := attr_channel_names | attr_axes.

Definition _first_pos_attr (self : NGFFNode PlateMeta) (attr : node_attr)
  : M (NGFFNode PlateMeta) :=
  let! w := get_world in
  let first (p : string) : option string :=
    match group_keys w p with
    | k :: _ => Some (join_path p k)
    | [] => None
    end in
  match mbind (M := option) first (mbind (M := option) first (first (_group self))) with
  | None =>
      do! logging_warning "No position is found in the dataset." in ret self
  | Some pos_grp =>
      let invalid : M (NGFFNode PlateMeta) :=
        do! logging_warning "Invalid metadata at the first position" in ret self in
      λ w, match Position_init pos_grp true None None "0.4" false w with
           | (w', Ok pos) =>
               match attr with
               | attr_channel_names =>
                   match _channel_names pos with
                   | Some a => (w', Ok (set_channel_names self (Some a)))
                   | None => invalid w'
                   end
               | attr_axes =>
                   match axes pos with
                   | Some ax => (w', Ok (set_axes self (Some ax)))
                   | None => invalid w'
                   end
               end
           | (w', Raise AttributeError) => invalid w'
           | (w', Raise e) => (w', Raise e)
           end
  end.

Definition Plate_parse_meta (self : NGFFNode PlateMeta) : M (NGFFNode PlateMeta) :=
  let! plate_meta := zattrs_get (_group self) "plate" in
  let! self :=
    match plate_meta with
    | Some j =>
        if truthy j then
          let! meta := lift (PlateMeta_parse j) in
          ret (set_metadata self (Some meta))
        else do! _warn_invalid_meta self "Plate" in ret self
    | None => do! _warn_invalid_meta self "Plate" in ret self
    end in
  let! self := match _channel_names self with
               | None => _first_pos_attr self attr_channel_names
               | Some _ => ret self
               end in
  match axes self with
  | None => _first_pos_attr self attr_axes
  | Some _ => ret self
  end.

Definition Plate_init (group : string) (parse_meta : bool) (channel_names_arg : option nat)
    (axes_arg : option (list AxisMeta)) (name : option string)
    (acquisitions_arg : option (list AcquisitionMeta)) (version : string)
    (overwriting_creation : bool) : M Plate :=
  let! node := NGFFNode_init Plate_parse_meta group parse_meta channel_names_arg axes_arg
                             version overwriting_creation in
  ret (mkPlate node name
               (match acquisitions_arg with
                | Some (a :: l) => a :: l
                | _ => [mkAcquisitionMeta 0]
                end)
               ∅ ∅).

Definition set_plate_node (self : Plate) (n : NGFFNode PlateMeta) : Plate :=
  mkPlate n (_name self) (_acquisitions self) (_rows self) (_cols self).

Definition Plate_dump_meta (self : Plate) : M unit :=
  match metadata (plate_node self) with
  | Some meta => zattrs_update (_group (plate_node self)) [("plate", PlateMeta_dict meta)]
  | None => raise AttributeError
  end.

(** A Python value used as the key of [known.get]: the registries are
    keyed by strings, and [create_well] passes the index it was given. *)
Inductive key_arg : Type :=
  | key_None
  | key_int (i : Z)
  | key_str (s : string).

Definition dict_get (known : gmap string Z) (k : key_arg) : option Z :=
  match k with
  | key_str s => known !! s
  | _ => None
  end.

(** [max(used)] over the values of a non-empty registry. *)
Definition max_values (known : gmap string Z) : option Z :=
  match (map_to_list known).*2 with
  | [] => None
  | v :: vs => Some (foldr Z.max v vs)
  end.

Definition _auto_idx (name : key_arg) (known : gmap string Z) : Z :=
  match dict_get known name with
  | Some idx => if negb (idx =? 0) then idx
                else match max_values known with Some m => m + 1 | None => 0 end
  | None => match max_values known with Some m => m + 1 | None => 0 end
  end.

Definition index_arg (i : option Z) : key_arg :=
  match i with
  | Some i => key_int i
  | None => key_None
  end.

Definition _build_meta (self : Plate) (first_row_meta first_col_meta : PlateAxisMeta)
    (first_well_meta : WellIndexMeta) : PlateMeta :=
  mkPlateMeta (_version (plate_node self)) (_name self) (_acquisitions self)
              [first_row_meta] [first_col_meta] [first_well_meta] None.

Definition add_row_well (meta : PlateMeta) (row : option PlateAxisMeta) (well : WellIndexMeta)
  : PlateMeta :=
  mkPlateMeta (plate_version meta) (plate_name meta) (acquisitions meta)
              (match row with Some r => (rows meta ++ [r])%list | None => rows meta end)
              (columns meta) (wells meta ++ [well])%list (field_count meta).

Definition add_column (meta : PlateMeta) (col : PlateAxisMeta) : PlateMeta :=
  mkPlateMeta (plate_version meta) (plate_name meta) (acquisitions meta)
              (rows meta) (columns meta ++ [col])%list (wells meta) (field_count meta).

(** [Plate.create_well]: the plate as it is afterwards, and the new well. *)
Definition create_well (self : Plate) (row_name col_name : string)
    (row_index_arg col_index_arg : option Z) : M (Plate * Well) :=
  let row_name := normalize_storage_path row_name in
  let col_name := normalize_storage_path col_name in
  let row_index := _auto_idx (index_arg row_index_arg) (_rows self) in
  let col_index := _auto_idx (index_arg col_index_arg) (_cols self) in
  let well_index_meta :=
    mkWellIndexMeta (os_path_join row_name col_name) row_index col_index in
  let col_meta := mkPlateAxisMeta col_name in
  let node := plate_node self in
  let! (row_grp, self) :=
    match _rows self !! row_name with
    | None =>
        let! row_grp := create_group (_group node) row_name (_overwrite node) in
        let row_meta := mkPlateAxisMeta row_name in
        let rows' := <[row_name := row_index]> (_rows self) in
        let meta' :=
          match metadata node with
          | None => _build_meta self row_meta col_meta well_index_meta
          | Some meta => add_row_well meta (Some row_meta) well_index_meta
          end in
        ret (row_grp, mkPlate (set_metadata node (Some meta')) (_name self)
                              (_acquisitions self) rows' (_cols self))
    | Some _ =>
        let! row_grp := group_getitem (_group node) row_name in
        match metadata node with
        | None => raise AttributeError
        | Some meta =>
            ret (row_grp,
                 set_plate_node self
                   (set_metadata node (Some (add_row_well meta None well_index_meta))))
        end
    end in
  let! self :=
    match metadata (plate_node self) with
    | None => raise AttributeError
    | Some meta =>
        if bool_decide (col_meta ∈ columns meta) then ret self
        else ret (mkPlate (set_metadata (plate_node self) (Some (add_column meta col_meta)))
                          (_name self) (_acquisitions self) (_rows self)
                          (<[col_name := col_index]> (_cols self)))
    end in
  let! well_grp := create_group row_grp col_name (_overwrite (plate_node self)) in
  do! Plate_dump_meta self in
  let! ca := lift (_child_attrs (plate_node self)) in
  let! well := Well_init well_grp false (Some (ca_channel_names ca)) (Some (ca_axes ca))
                         (ca_version ca) (ca_overwriting_creation ca) in
  ret (self, well).

(** [Plate.create_position]; [self[well_path]] goes two levels down, so
    the member type is that of [Row], a [Well]. *)
Definition create_position (self : Plate) (row_name col_name pos_name : string)
    (row_index_arg col_index_arg : option Z) (acq_index : Z) : M (Plate * Well * Position) :=
  let row_name := normalize_storage_path row_name in
  let col_name := normalize_storage_path col_name in
  let well_path := os_path_join row_name col_name in
  let! w := get_world in
  let! (self, well) :=
    (if group_contains w (_group (plate_node self)) well_path
     then
       let! well := getitem_child Well_parse_meta (plate_node self)
                                  (normalize_storage_path well_path) in
       ret (self, well)
     else create_well self row_name col_name row_index_arg col_index_arg) in
  let! (well, pos) := Well_create_position well pos_name acq_index in
  ret (self, well, pos).

(** *** Opening a store *)

(** [zarr.open_group(store, mode=...)] on the directory store, as the
    docstring of [open_ome_zarr] gives the modes: ['r'] and ['r+'] need an
    existing group, ['w'] creates and overwrites, ['w-'] creates and fails
    on an existing one. The path of the root group is [""]. *)
Definition zarr_open_group (mode : string) : M string :=
  λ w,
  let fresh_store := mkWorld (lists w) Directory {[ "" := empty_group ]} (warnings w) in
  if bool_decide (mode = "r") || bool_decide (mode = "r+") then
    match disk w, groups w !! "" with
    | Directory, Some _ => (w, Ok "")
    | _, _ => (w, Raise KeyError)
    end
  else if bool_decide (mode = "w") then
    match disk w with
    | RegularFile => (w, Raise FileExistsError)
    | _ => (fresh_store, Ok "")
    end
  else if bool_decide (mode = "w-") then
    match disk w, groups w !! "" with
    | RegularFile, _ => (w, Raise FileExistsError)
    | _, Some _ => (w, Raise ContainsGroupError)
    | _, None => (fresh_store, Ok "")
    end
  else (w, Raise ValueError).

(** [_open_store]. With a version other than ["0.4"] the warning message
    is built by [str.join] applied to two arguments, which raises
    [TypeError]. Whatever the engine raises becomes [RuntimeError]. *)
Definition _open_store (mode version : string) : M string :=
  let! w := get_world in
  if negb (os_path_isdir (disk w)) && (bool_decide (mode = "r") || bool_decide (mode = "r+"))
  then raise FileNotFoundError
  else if negb (bool_decide (version = "0.4")) then raise TypeError
  else λ w, match zarr_open_group mode w with
            | (w', Ok root) => (w', Ok root)
            | (w', Raise _) => (w', Raise RuntimeError)
            end.

(** The keyword arguments that [open_ome_zarr] forwards to the node. *)
Record kwargs : Type := mkKwargs {
  kw_name : option (option string);
  kw_acquisitions : option (option (list AcquisitionMeta));
  kw_overwriting_creation : option bool
}.

Inductive Dataset : Type :=
  | PositionNode (p : Position)
  | PlateNode (p : Plate).

Inductive node_class : Type := class_Position | class_Plate.

(** The layout part of [open_ome_zarr]: the class of the node to build. *)
Definition resolve_layout (layout : string) (parse_meta : bool) (meta_keys : list string)
  : result node_class :=
  let* layout :=
    (if bool_decide (layout = "auto") then
       if parse_meta then
         if bool_decide ("plate" ∈ meta_keys) then Ok "hcs"
         else if bool_decide ("multiscales" ∈ meta_keys) then Ok "fov"
         else Raise KeyError
       else Raise ValueError
     else Ok layout) in
  if bool_decide (layout = "fov") then
    if parse_meta && negb (bool_decide ("multiscales" ∈ meta_keys)) then Raise ValueError
    else Ok class_Position
  else if bool_decide (layout = "hcs") then
    if parse_meta && negb (bool_decide ("plate" ∈ meta_keys)) then Raise ValueError
    else Ok class_Plate
  else Raise ValueError.

(** The call [node(group=root, parse_meta=..., channel_names=..., axes=...,
    **kwargs)]; [Position] has no [name] or [acquisitions] parameter. *)
Definition construct (node : node_class) (root : string) (parse_meta : bool)
    (channel_names_arg : option nat) (axes_arg : option (list AxisMeta)) (kw : kwargs)
  : M Dataset :=
  let overwriting := default false (kw_overwriting_creation kw) in
  match node with
  | class_Position =>
      match kw_name kw, kw_acquisitions kw with
      | None, None =>
          let! p := Position_init root parse_meta channel_names_arg axes_arg "0.4" overwriting in
          ret (PositionNode p)
      | _, _ => raise TypeError
      end
  | class_Plate =>
      let! p := Plate_init root parse_meta channel_names_arg axes_arg
                           (default None (kw_name kw)) (default None (kw_acquisitions kw))
                           "0.4" overwriting in
      ret (PlateNode p)
  end.

(** The mode that [open_ome_zarr] works with after its first statement. *)
Definition resolve_mode (mode : string) (w : World) : string :=
  if bool_decide (mode = "a")
  then (if os_path_exists (disk w) then "r+" else "w-")
  else mode.

(** The first half of [open_ome_zarr], up to the open root group:
    [parse_meta] and the path of the root. *)
Definition open_root (mode version : string) : M (bool * string) :=
  let! w := get_world in
  let mode := resolve_mode mode w in
  let! parse_meta :=
    (if bool_decide (mode = "r") || bool_decide (mode = "r+") then ret true
     else if bool_decide (mode = "w-") then
       if os_path_exists (disk w) then raise FileExistsError else ret false
     else if bool_decide (mode = "w") then
       if os_path_exists (disk w)
       then do! logging_warning "Overwriting data" in ret false
       else ret false
     else raise ValueError) in
  let! root := _open_store mode version in
  ret (parse_meta, root).

(** [root.attrs.keys() if parse_meta else []] *)
Definition root_meta_keys (w : World) (parse_meta : bool) (root : string) : list string :=
  if parse_meta
  then match groups w !! root with
       | Some g => elements (dom (attrs g))
       | None => []
       end
  else [].

Definition open_ome_zarr (layout mode : string) (channel_names_arg : option nat)
    (axes_arg : option (list AxisMeta)) (version : string) (kw : kwargs) : M Dataset :=
  let! (parse_meta, root) := open_root mode version in
  let! w := get_world in
  let! node := lift (resolve_layout layout parse_meta (root_meta_keys w parse_meta root)) in
  construct node root parse_meta channel_names_arg axes_arg kw.

End Nodes.

(** *** A schema and an engine to run the model on

    A plain JSON encoding of the documents, a path normaliser that strips
    the slashes at both ends, and an engine whose [resize] takes a shape
    of the rank of the array and refuses any other. *)

Module Sample.

Definition sample_display : Display :=
  {| ChannelMeta := string * option bool;
     label := fst;
     channel_display_settings := λ name first_chan, (name, first_chan) |}.

Fixpoint assoc (k : string) (d : list (string * json)) : option json :=
  match d with
  | [] => None
  | (k', v) :: d' => if String.eqb k k' then Some v else assoc k d'
  end.

Definition as_str (j : json) : option string :=
  match j with JStr s => Some s | _ => None end.

Definition as_int (j : json) : option Z :=
  match j with JInt n => Some n | _ => None end.

Definition as_list (j : json) : option (list json) :=
  match j with JList l => Some l | _ => None end.

Definition field {A : Type} (read : json → option A) (k : string) (j : json) : option A :=
  match j with
  | JDict d => assoc k d ≫= read
  | _ => None
  end.

Definition list_of {A : Type} (read : json → option A) (j : json) : option (list A) :=
  as_list j ≫= mapM read.

Definition valid {A : Type} (o : option A) : result A :=
  match o with
  | Some a => Ok a
  | None => Raise ValidationError
  end.

Definition axis_json (a : AxisMeta) : json :=
  JDict ([("name", JStr (axis_name a)); ("type", JStr (axis_type a))]
         ++ match axis_unit a with Some u => [("unit", JStr u)] | None => [] end)%list.

Definition read_axis (j : json) : option AxisMeta :=
  n ← field as_str "name" j;
  t ← field as_str "type" j;
  Some (mkAxisMeta n t (field as_str "unit" j)).

Definition transformation_json (t : TransformationMeta) : json :=
  JDict [("type", JStr (transformation_type t))].

Definition read_transformation (j : json) : option TransformationMeta :=
  mkTransformationMeta <$> field as_str "type" j.

Definition dataset_json (d : DatasetMeta) : json :=
  JDict [("path", JStr (dataset_path d));
         ("coordinateTransformations",
          JList (transformation_json <$> coordinate_transformations d))].

Definition read_dataset (j : json) : option DatasetMeta :=
  p ← field as_str "path" j;
  t ← field (list_of read_transformation) "coordinateTransformations" j;
  Some (mkDatasetMeta p t).

Definition multiscale_json (m : MultiScaleMeta) : json :=
  JDict [("version", JStr (ms_version m));
         ("axes", JList (axis_json <$> ms_axes m));
         ("datasets", JList (dataset_json <$> datasets m));
         ("name", JStr (ms_name m));
         ("coordinateTransformations",
          JList (transformation_json <$> coordinateTransformations m))].

Definition read_multiscale (j : json) : option MultiScaleMeta :=
  v ← field as_str "version" j;
  ax ← field (list_of read_axis) "axes" j;
  ds ← field (list_of read_dataset) "datasets" j;
  n ← field as_str "name" j;
  t ← field (list_of read_transformation) "coordinateTransformations" j;
  Some (mkMultiScaleMeta v ax ds n t).

Definition channel_json (c : string * option bool) : json :=
  JDict [("label", JStr c.1)].

Definition read_channel (j : json) : option (string * option bool) :=
  (λ l, (l, None)) <$> field as_str "label" j.

Definition omero_json (o : @OMEROMeta sample_display) : json :=
  JDict [("version", JStr (omero_version o)); ("id", JInt (omero_id o));
         ("name", JStr (omero_name o));
         ("channels", JList (channel_json <$> channels o))].

Definition read_omero (j : json) : option (@OMEROMeta sample_display) :=
  v ← field as_str "version" j;
  i ← field as_int "id" j;
  n ← field as_str "name" j;
  c ← field (list_of read_channel) "channels" j;
  Some (@mkOMEROMeta sample_display v i n c).

Definition image_json (i : ImageMeta) : json :=
  JDict [("acquisition", JInt (acquisition i)); ("path", JStr (image_path i))].

Definition read_image (j : json) : option ImageMeta :=
  a ← field as_int "acquisition" j;
  p ← field as_str "path" j;
  Some (mkImageMeta a p).

Definition plate_axis_json (a : PlateAxisMeta) : json :=
  JDict [("name", JStr (plate_axis_name a))].

Definition read_plate_axis (j : json) : option PlateAxisMeta :=
  mkPlateAxisMeta <$> field as_str "name" j.

Definition well_index_json (w : WellIndexMeta) : json :=
  JDict [("path", JStr (well_path w)); ("rowIndex", JInt (row_index w));
         ("columnIndex", JInt (column_index w))].

Definition read_well_index (j : json) : option WellIndexMeta :=
  p ← field as_str "path" j;
  r ← field as_int "rowIndex" j;
  c ← field as_int "columnIndex" j;
  Some (mkWellIndexMeta p r c).

Definition plate_json (m : PlateMeta) : json :=
  JDict ([("version", JStr (plate_version m))]
         ++ match plate_name m with Some n => [("name", JStr n)] | None => [] end
         ++ [("acquisitions", JList ((λ a, JDict [("id", JInt (acquisition_id a))])
                                     <$> acquisitions m));
             ("rows", JList (plate_axis_json <$> rows m));
             ("columns", JList (plate_axis_json <$> columns m));
             ("wells", JList (well_index_json <$> wells m))]
         ++ match field_count m with Some n => [("field_count", JInt n)] | None => [] end)%list.

Definition read_plate (j : json) : option PlateMeta :=
  v ← field as_str "version" j;
  a ← field (list_of (λ j, mkAcquisitionMeta <$> field as_int "id" j)) "acquisitions" j;
  r ← field (list_of read_plate_axis) "rows" j;
  c ← field (list_of read_plate_axis) "columns" j;
  w ← field (list_of read_well_index) "wells" j;
  Some (mkPlateMeta v (field as_str "name" j) a r c w (field as_int "field_count" j)).

(** Unpacking with [**] needs a mapping. *)
Definition on_mapping {A : Type} (read : json → option A) (j : json) : result A :=
  match j with
  | JDict _ => valid (read j)
  | _ => Raise TypeError
  end.

Definition sample_schema : @Schema sample_display :=
  {| ImagesMeta_parse := λ ms om,
       valid (m ← list_of read_multiscale ms; o ← read_omero om;
              Some (@mkImagesMeta sample_display m o));
     ImagesMeta_dict := λ m,
       [("multiscales", JList (multiscale_json <$> multiscales m));
        ("omero", omero_json (omero m))];
     WellGroupMeta_parse :=
       on_mapping (λ j, mkWellGroupMeta <$> field (list_of read_image) "images" j);
     WellGroupMeta_dict := λ m, JDict [("images", JList (image_json <$> images m))];
     PlateMeta_parse := on_mapping read_plate;
     PlateMeta_dict := plate_json |}.

Fixpoint strip_leading_slashes (s : string) : string :=
  match s with
  | String c rest => if Ascii.eqb c "/"%char then strip_leading_slashes rest else s
  | EmptyString => s
  end.

Definition strip_slashes (s : string) : string :=
  String.rev (strip_leading_slashes (String.rev (strip_leading_slashes s))).

Definition sample_engine : Engine :=
  {| normalize_storage_path := strip_slashes;
     array_resize := λ old new,
       if bool_decide (length new = length old) then Ok new else Raise ValueError |}.

(** *** Sample stores *)

Section Stores.
#[local] Existing Instance sample_display.
#[local] Existing Instance sample_schema.
#[local] Existing Instance sample_engine.

Definition no_kwargs : kwargs := mkKwargs None None None.

(** Nothing at the store path; the caller holds one list of three
    channel names, at address 0. *)
Definition blank_world : World :=
  mkWorld {[ 0%nat := ["DAPI"; "GFP"; "Cy5"] ]} Missing ∅ [].

Definition as_plate (d : Dataset) : M Plate :=
  match d with
  | PlateNode p => ret p
  | PositionNode _ => raise TypeError
  end.

Definition as_position (d : Dataset) : M Position :=
  match d with
  | PositionNode p => ret p
  | PlateNode _ => raise TypeError
  end.

(** A new plate with the wells (A, 1), (A, 2), (B, 1), indices left to
    the plate. *)
Definition three_wells : M Plate :=
  let! d := open_ome_zarr "hcs" "w-" (Some 0%nat) None "0.4" no_kwargs in
  let! plate := as_plate d in
  let! (plate, _) := create_well plate "A" "1" None None in
  let! (plate, _) := create_well plate "A" "2" None None in
  let! (plate, _) := create_well plate "B" "1" None None in
  ret plate.

Definition reopen_auto : M Plate :=
  let! d := open_ome_zarr "auto" "r" None None "0.4" no_kwargs in as_plate d.

(** A new single-position store with the arrays ["0"] of shape
    (2, 3, 4, 5, 6) and ["1"] of shape (3, 4, 5, 6). *)
Definition two_arrays : M Position :=
  let! d := open_ome_zarr "fov" "w-" (Some 0%nat) None "0.4" no_kwargs in
  let! pos := as_position d in
  let! pos := create_image pos "0" [2; 3; 4; 5; 6] [] true in
  create_image pos "1" [3; 4; 5; 6] [] false.

(** A new plate with one well and two positions in it; the first
    position holds an image. The plate, the two positions. *)
Definition two_positions : M (Plate * Position * Position) :=
  let! d := open_ome_zarr "hcs" "w-" (Some 0%nat) None "0.4" no_kwargs in
  let! plate := as_plate d in
  let! (plate, _, first) := create_position plate "A" "1" "0" None None 0 in
  let! (plate, _, second) := create_position plate "A" "1" "1" None None 0 in
  let! first := create_image first "0" [1; 3; 1; 4; 4] [] true in
  ret (plate, first, second).

(** The world and the value of a run that did not raise. *)
Definition world_of {A : Type} (run : World * result A) : World := run.1.

Definition value_of {A : Type} (run : World * result A) : option A :=
  match run.2 with
  | Ok a => Some a
  | Raise _ => None
  end.

Definition no_node {Meta : Type} : NGFFNode Meta := mkNode "" None None "" false None.

Definition two_arrays_world : World := world_of (two_arrays blank_world).

Definition two_arrays_position : Position :=
  default no_node (value_of (two_arrays blank_world)).

Definition two_positions_world : World := world_of (two_positions blank_world).

Definition two_positions_nodes : Plate * Position * Position :=
  default (mkPlate no_node None [] ∅ ∅, no_node, no_node)
          (value_of (two_positions blank_world)).

Definition three_wells_world : World := world_of (three_wells blank_world).

Definition sample_plate : Plate := two_positions_nodes.1.1.

Definition first_position : Position := two_positions_nodes.1.2.

Definition second_position : Position := two_positions_nodes.2.

(** The fourth channel, appended to the position of [two_arrays]. *)
Definition append_to_two_arrays : M Position :=
  let! pos := two_arrays in append_channel pos "Cy7" true.

(** The channel names read through the plate and through the second
    position of [two_positions], before and after a channel is appended
    through the first position. *)
Definition names_around_append
  : M (list string * list string * list string * list string) :=
  let! (plate, first, second) := two_positions in
  let! plate_before := channel_names (plate_node plate) in
  let! second_before := channel_names second in
  let! _ := append_channel first "Cy7" true in
  let! plate_after := channel_names (plate_node plate) in
  let! second_after := channel_names second in
  ret (plate_before, second_before, plate_after, second_after).

(** Stores whose root document does not pass the schema: a plate whose
    [rows] is a number, a position whose [multiscales] holds a number. *)
Definition bad_plate_world : World :=
  mkWorld ∅ Directory
    {[ "" := mkGroupData {[ "plate" := JDict [("version", JStr "0.4"); ("rows", JInt 3)] ]} ∅ ]}
    [].

Definition bad_position_world : World :=
  mkWorld ∅ Directory
    {[ "" := mkGroupData {[ "multiscales" := JList [JInt 1];
                            "omero" := JDict [("version", JStr "0.4")] ]}
                         {[ "0" := [1; 2; 1; 4; 4] ]} ]}
    [].

Definition bad_well_world : World :=
  mkWorld {[ 0%nat := ["DAPI"] ]} Directory
    {[ "" := empty_group; "A" := empty_group;
       "A/1" := mkGroupData {[ "well" := JDict [("images", JInt 0)] ]} ∅;
       "A/1/0" := empty_group ]}
    [].

(** A position whose axes hold no channel axis, on the list of
    [blank_world]. *)
Definition no_channel_axis_position : Position :=
  mkNode "" (Some 0%nat)
         (Some [mkAxisMeta "Z" "space" None; mkAxisMeta "Y" "space" None;
                mkAxisMeta "X" "space" None])
         "0.4" false None.

Definition root_group (w : World) : GroupData := default empty_group (groups w !! "").

(** The position of [two_arrays] once the image ["2"] is listed. *)
Definition list_third_image : World * result Position :=
  _create_image_meta two_arrays_position "2" [] two_arrays_world.

(** The well of [two_positions], and a third position created in it. *)
Definition sample_well : Well :=
  default no_node
    (value_of (getitem_child Well_parse_meta (plate_node sample_plate) "A/1"
                             two_positions_world)).

Definition third_position : World * result (Well * Position) :=
  Well_create_position sample_well "2" 0 two_positions_world.

Definition no_plate : Plate := mkPlate no_node None [] ∅ ∅.

(** The plate of [three_wells], and the plate and the world once the store
    has been opened again. *)
Definition three_wells_plate : Plate :=
  default no_plate (value_of (three_wells blank_world)).

Definition reopened_plate : Plate :=
  default no_plate (value_of (reopen_auto three_wells_world)).

Definition reopened_world : World := world_of (reopen_auto three_wells_world).

(** A fourth well, (B, 2), on the plate of [three_wells]. *)
Definition fourth_well : World * result (Plate * Well) :=
  create_well three_wells_plate "B" "2" None None three_wells_world.

End Stores.

End Sample.

End Ngff.

(** * Properties *)

(** ** Fallible computations *)

Lemma bind_Ok {A B : Type} (m : result A) (f : A → result B) (b : B) :
  bind m f = Ok b → ∃ a, m = Ok a ∧ f a = Ok b.
Proof. destruct m as [a|e]; simpl; [eauto | discriminate]. Qed.

(** ** The coordinate index *)

Section CoordinateIndex.
Import MultipageTiff.

Lemma getitem_Ok {A : Type} (l : list A) (i : nat) (x : A) :
  getitem l i = Ok x ↔ l !! i = Some x.
Proof. unfold getitem. destruct (l !! i); split; congruence. Qed.

Lemma index_page_Ok tf r page r' :
  index_page tf r page = Ok r' →
  ∃ k e, page_record tf page k e ∧ coord_map r' = <[k := e]> (coord_map r).
Proof.
  unfold index_page. intros H.
  apply bind_Ok in H as (p & Hp & H). apply bind_Ok in H as (t & Ht & H).
  apply bind_Ok in H as (c & Hc & H). apply bind_Ok in H as (z & Hz & H).
  apply bind_Ok in H as (off & Hoff & H).
  injection H as <-. simpl.
  exists (p, t, c, z), (filename tf, page, off). split; [|done].
  exists p, t, c, z, off. rewrite <- !getitem_Ok. done.
Qed.

Lemma index_pages_sound tf pgs r r' k e :
  for_each (index_page tf) pgs r = Ok r' →
  coord_map r' !! k = Some e →
  coord_map r !! k = Some e ∨ ∃ page, page ∈ pgs ∧ page_record tf page k e.
Proof.
  revert r. induction pgs as [|pg pgs IH]; intros r H Hk; simpl in H.
  - injection H as <-. by left.
  - apply bind_Ok in H as (r1 & H1 & H).
    destruct (IH _ H Hk) as [Hin | (page & Hin & Hrec)].
    + apply index_page_Ok in H1 as (k1 & e1 & Hrec & Hmap).
      rewrite Hmap, lookup_insert in Hin. case_decide as Hd.
      * injection Hin as <-. subst k1. right. exists pg. split; [left | done].
      * by left.
    + right. exists page. split; [by right | done].
Qed.

Lemma index_pages_keeps tf pgs r r' k :
  for_each (index_page tf) pgs r = Ok r' →
  is_Some (coord_map r !! k) → is_Some (coord_map r' !! k).
Proof.
  revert r. induction pgs as [|pg pgs IH]; intros r H Hk; simpl in H.
  - by injection H as <-.
  - apply bind_Ok in H as (r1 & H1 & H). apply (IH _ H).
    apply index_page_Ok in H1 as (k1 & e1 & _ & ->).
    rewrite lookup_insert. case_decide; [by eexists | done].
Qed.

Lemma index_pages_complete tf pgs r r' page k e :
  for_each (index_page tf) pgs r = Ok r' →
  page ∈ pgs → page_record tf page k e →
  is_Some (coord_map r' !! k).
Proof.
  revert r. induction pgs as [|pg pgs IH]; intros r H Hin Hrec; simpl in H.
  - by apply elem_of_nil in Hin.
  - apply bind_Ok in H as (r1 & H1 & H).
    apply elem_of_cons in Hin as [-> | Hin]; [|by eapply IH].
    apply (index_pages_keeps _ _ _ _ _ H).
    apply index_page_Ok in H1 as (k1 & e1 & Hrec1 & ->).
    assert (k1 = k) as ->.
    { destruct Hrec as (p & t & c & z & off & Hp & Ht & Hc & Hz & _ & -> & _).
      destruct Hrec1 as (p1 & t1 & c1 & z1 & off1 & Hp1 & Ht1 & Hc1 & Hz1 & _ & -> & _).
      congruence. }
    rewrite lookup_insert_eq. by eexists.
Qed.

Lemma page_record_in_range tf page k e :
  page_record tf page k e → page ∈ seq 0 (length (Channel (index_map tf))).
Proof.
  intros (p & t & c & z & off & _ & _ & Hc & _).
  apply elem_of_seq. apply lookup_lt_Some in Hc. lia.
Qed.

Lemma gather_sound files r r' k e :
  _gather_index_maps files r = Ok r' →
  coord_map r' !! k = Some e →
  coord_map r !! k = Some e ∨ recorded files k e.
Proof.
  unfold _gather_index_maps.
  revert r. induction files as [|tf files IH]; intros r H Hk; simpl in H.
  - injection H as <-. by left.
  - apply bind_Ok in H as (r1 & H1 & H).
    destruct (IH _ H Hk) as [Hin | (tf' & page & Hin & Hrec)].
    + destruct (index_pages_sound _ _ _ _ _ _ H1 Hin) as [? | (page & _ & Hrec)];
        [by left|].
      right. exists tf, page. split; [left | done].
    + right. exists tf', page. split; [by right | done].
Qed.

Lemma gather_keeps files r r' k :
  _gather_index_maps files r = Ok r' →
  is_Some (coord_map r !! k) → is_Some (coord_map r' !! k).
Proof.
  unfold _gather_index_maps.
  revert r. induction files as [|tf files IH]; intros r H Hk; simpl in H.
  - by injection H as <-.
  - apply bind_Ok in H as (r1 & H1 & H). apply (IH _ H).
    by eapply index_pages_keeps.
Qed.

Lemma gather_complete files r r' k e :
  _gather_index_maps files r = Ok r' →
  recorded files k e → is_Some (coord_map r' !! k).
Proof.
  intros H (tf & page & Hin & Hrec). revert r H.
  induction files as [|tf' files IH]; intros r H; [by apply elem_of_nil in Hin|].
  unfold _gather_index_maps in H. simpl in H.
  apply bind_Ok in H as (r1 & H1 & H).
  apply elem_of_cons in Hin as [<- | Hin]; [|by eapply IH].
  apply (gather_keeps _ _ _ _ H).
  eapply index_pages_complete; [exact H1 | | exact Hrec].
  by eapply page_record_in_range.
Qed.

(** C1: on an index built from a set of files, a look-up that returns an
    entry returns one that a page directory records for that coordinate,
    every coordinate some page directory records is found, and a
    coordinate no page directory records raises [KeyError] (the
    coordinate-not-found error of the look-up). *)
Theorem lookup_returns_inserted files summary r :
  build files summary = Ok r →
  ∀ k : coord,
    (∀ e, lookup_coord r k = Ok e → recorded files k e) ∧
    ((∃ e, recorded files k e) → ∃ e, lookup_coord r k = Ok e ∧ recorded files k e) ∧
    ((∀ e, ¬ recorded files k e) → lookup_coord r k = Raise KeyError).
Proof.
  unfold build, lookup_coord. intros H k.
  assert (∀ e, coord_map r !! k = Some e → recorded files k e) as Hsound.
  { intros e He. destruct (gather_sound _ _ _ _ _ H He) as [Hinit | ?]; [|done].
    simpl in Hinit. by rewrite lookup_empty in Hinit. }
  split; [|split].
  - intros e He. apply Hsound. destruct (coord_map r !! k); congruence.
  - intros (e & Hrec). destruct (gather_complete _ _ _ _ _ H Hrec) as (e' & He').
    exists e'. rewrite He'. split; [done | by apply Hsound].
  - intros Habs. destruct (coord_map r !! k) as [e|] eqn:He; [|done].
    exfalso. by eapply Habs, Hsound.
Qed.

Lemma lookup_returns_inserted_witness :
  (∃ e, lookup_coord (reader_of (build [twice_a; twice_b] ragged_summary)) (0, 0, 1, 0) = Ok e
        ∧ recorded [twice_a; twice_b] (0, 0, 1, 0) e) ∧
  lookup_coord (reader_of (build [twice_a; twice_b] ragged_summary)) (0, 0, 2, 0)
  = Raise KeyError.
Proof.
  assert (build [twice_a; twice_b] ragged_summary
          = Ok (reader_of (build [twice_a; twice_b] ragged_summary))) as Hbuild
    by (vm_compute; reflexivity).
  split.
  - apply (lookup_returns_inserted _ _ _ Hbuild (0, 0, 1, 0)).
    exists ("a.ome.tif", 1%nat, Some 524460), twice_a, 1%nat.
    split; [left|]. by exists 0, 0, 1, 0, (Some 524460).
  - apply (lookup_returns_inserted _ _ _ Hbuild (0, 0, 2, 0)).
    intros e (tf & page & Hin & (p & t & c & z & off & _ & _ & Hc & _ & _ & Hk & _)).
    injection Hk as <- <- <- <-.
    apply elem_of_cons in Hin as [-> | Hin].
    + by destruct page as [|[|[|page]]].
    + apply elem_of_cons in Hin as [-> | Hin]; [|by apply elem_of_nil in Hin].
      by destruct page as [|[|page]].
Defined.

Example lookup_last_write_wins :
  lookup_coord (reader_of (build [twice_a; twice_b] ragged_summary)) (0, 0, 0, 0)
  = Ok ("b.ome.tif", 0%nat, Some 16).
Proof. vm_compute. reflexivity. Qed.

Example lookup_absent :
  lookup_coord (reader_of (build [twice_a; twice_b] ragged_summary)) (0, 0, 2, 0)
  = Raise KeyError.
Proof. vm_compute. reflexivity. Qed.

End CoordinateIndex.

(** ** Extents *)

Section Extents.
Import MultipageTiff.

Lemma gtb_max (a b : Z) : (if a >? b then a else b) = Z.max a b.
Proof. rewrite Z.gtb_ltb. destruct (Z.ltb_spec b a); lia. Qed.



(** C7: the data-set slice extent after indexing [ragged_file], whose
    pages all have channel 0 and slices 0, 1, 2 (position 0) and 0, 1
    (position 1), starting from a summary of one slice: the code leaves
    [slices = 0], the channel coordinate of the page whose slice exceeded
    the extent, where the running maximum of the slice coordinate is 2. *)
Theorem gather_slices_takes_channel :
  ∃ r, build [ragged_file] ragged_summary = Ok r ∧
       slices r = 0 ∧
       Z.max (Slices ragged_summary)
             (foldr Z.max 0 (Slice (index_map ragged_file))) = 2.
Proof. eexists. split; [vm_compute; reflexivity | split; reflexivity]. Qed.

(** X1: the extents that [_get_dimensions] returns for a position come
    from the keys of that position alone: each bounds the coordinates of
    the position's keys along its axis, and is 0 or the coordinate of one
    of them. *)
Lemma get_dimensions_own_position (r : Reader) (p : Z) :
  dims_spec p (coord_map r) (_get_dimensions r p).
Proof.
  unfold _get_dimensions. generalize (coord_map r). clear r.
  apply (map_fold_weak_ind (λ d m, dims_spec p m d)).
  - unfold dims_spec. split; [|by repeat split; left].
    intros k1 k2 k3 [? H]. by rewrite lookup_empty in H.
  - intros [[[k0 k1] k2] k3] e m [[t c] z] Hfresh (Hub & Ht & Hc & Hz).
    unfold dims_step. destruct (Z.eqb_spec p k0) as [<- | Hne]; simpl.
    + rewrite !gtb_max. unfold dims_spec. split; [|split; [|split]].
      * intros a b c' [x Hx]. rewrite lookup_insert in Hx. case_decide as Hd.
        -- injection Hd as <- <- <-. lia.
        -- destruct (Hub a b c'); [by eexists | lia].
      * destruct (Z.max_spec k1 t) as [[_ ->] | [_ ->]].
        -- destruct Ht as [-> | (b & c' & [x Hx])]; [by left|].
           right. exists b, c'. rewrite lookup_insert. case_decide; by eexists.
        -- right. exists k2, k3. rewrite lookup_insert_eq. by eexists.
      * destruct (Z.max_spec k2 c) as [[_ ->] | [_ ->]].
        -- destruct Hc as [-> | (b & c' & [x Hx])]; [by left|].
           right. exists b, c'. rewrite lookup_insert. case_decide; by eexists.
        -- right. exists k1, k3. rewrite lookup_insert_eq. by eexists.
      * destruct (Z.max_spec k3 z) as [[_ ->] | [_ ->]].
        -- destruct Hz as [-> | (b & c' & [x Hx])]; [by left|].
           right. exists b, c'. rewrite lookup_insert. case_decide; by eexists.
        -- right. exists k1, k2. rewrite lookup_insert_eq. by eexists.
    + unfold dims_spec. split; [|split; [|split]].
      * intros a b c' [x Hx]. rewrite lookup_insert_ne in Hx by congruence.
        apply Hub. by eexists.
      * destruct Ht as [-> | (b & c' & [x Hx])]; [by left|].
        right. exists b, c'. rewrite lookup_insert_ne by congruence. by eexists.
      * destruct Hc as [-> | (b & c' & [x Hx])]; [by left|].
        right. exists b, c'. rewrite lookup_insert_ne by congruence. by eexists.
      * destruct Hz as [-> | (b & c' & [x Hx])]; [by left|].
        right. exists b, c'. rewrite lookup_insert_ne by congruence. by eexists.
Qed.

(** C2: the per-position extents on the data set where position 0 has
    slices 0, 1, 2 and position 1 has slices 0, 1: the code reports the
    largest coordinate of each position, (0, 0, 2) and (0, 0, 1), not the
    counts (1, 1, 3) and (1, 1, 2), and the array allocated for position 0
    has shape (0, 0, 2, 512, 512) and no plane is fetched. *)
Theorem get_dimensions_is_maximum_not_count :
  ∃ r, build [ragged_file] ragged_summary = Ok r ∧
       _get_dimensions r 0 = (0, 0, 2) ∧
       _get_dimensions r 1 = (0, 0, 1) ∧
       _create_position_array r 0 = Ok ([0; 0; 2; 512; 512], []).
Proof.
  eexists. split; [vm_compute; reflexivity|].
  repeat split; vm_compute; reflexivity.
Qed.

End Extents.

(** ** Opening a store *)

Section Opening.
Import Ngff.
Context `{Display, !Schema, Engine}.

Lemma exists_false_isdir (k : path_kind) :
  os_path_exists k = false → os_path_isdir k = false.
Proof. by destruct k. Qed.

Lemma resolve_mode_a (w : World) :
  resolve_mode "a" w = (if os_path_exists (disk w) then "r+" else "w-").
Proof. reflexivity. Qed.

Lemma resolve_mode_idem (mode : string) (w : World) :
  resolve_mode (resolve_mode mode w) w = resolve_mode mode w.
Proof.
  unfold resolve_mode. destruct (bool_decide (mode = "a")) eqn:Hm.
  - by destruct (os_path_exists (disk w)).
  - by rewrite Hm.
Qed.

Lemma open_root_resolved (mode version : string) (w : World) :
  open_root mode version w = open_root (resolve_mode mode w) version w.
Proof. unfold open_root, bindM, get_world. by rewrite resolve_mode_idem. Qed.

(** C5: mode ['a'] behaves as ['w-'] on a path that does not exist and as
    ['r+'] on one that does; ['w-'] on an existing path raises
    [FileExistsError] and leaves the world, the store in it, as it was;
    ['r'] and ['r+'] on a path that does not exist raise
    [FileNotFoundError]. *)
Theorem open_mode_resolution (layout : string) (channel_names_arg : option nat)
    (axes_arg : option (list AxisMeta)) (version : string) (kw : kwargs) (w : World) :
  (open_ome_zarr layout "a" channel_names_arg axes_arg version kw w
   = open_ome_zarr layout (if os_path_exists (disk w) then "r+" else "w-")
                   channel_names_arg axes_arg version kw w) ∧
  (os_path_exists (disk w) = true →
   open_ome_zarr layout "w-" channel_names_arg axes_arg version kw w
   = (w, Raise FileExistsError)) ∧
  (os_path_exists (disk w) = false →
   ∀ mode, mode = "r" ∨ mode = "r+" →
   open_ome_zarr layout mode channel_names_arg axes_arg version kw w
   = (w, Raise FileNotFoundError)).
Proof.
  split; [|split].
  - unfold open_ome_zarr, bindM. rewrite (open_root_resolved "a"), resolve_mode_a.
    done.
  - intros Hex. unfold open_ome_zarr, open_root, bindM, get_world, resolve_mode.
    simpl. by rewrite Hex.
  - intros Hex mode Hmode. apply exists_false_isdir in Hex as Hdir.
    unfold open_ome_zarr, open_root, bindM, get_world, resolve_mode, _open_store,
      bindM, get_world, ret, raise.
    destruct Hmode as [-> | ->]; simpl; by rewrite Hdir.
Qed.

(** What the first half of [open_ome_zarr] returns as [parse_meta]. *)
Lemma open_root_parse_meta (mode version : string) (w w1 : World) (parse_meta : bool)
    (root : string) :
  open_root mode version w = (w1, Ok (parse_meta, root)) →
  parse_meta = bool_decide (resolve_mode mode w = "r" ∨ resolve_mode mode w = "r+").
Proof.
  unfold open_root, bindM, get_world, ret, raise.
  set (m := resolve_mode mode w).
  destruct (bool_decide (m = "r")) eqn:Hr; simpl.
  { apply bool_decide_eq_true in Hr.
    destruct (_open_store m version w) as [w' [root'|e]]; [|done].
    intros [= <- <- <-]. rewrite bool_decide_true; auto. }
  destruct (bool_decide (m = "r+")) eqn:Hr'; simpl.
  { apply bool_decide_eq_true in Hr'.
    destruct (_open_store m version w) as [w' [root'|e]]; [|done].
    intros [= <- <- <-]. rewrite bool_decide_true; auto. }
  apply bool_decide_eq_false in Hr, Hr'.
  assert (bool_decide (m = "r" ∨ m = "r+") = false) as ->
    by (apply bool_decide_eq_false; tauto).
  destruct (bool_decide (m = "w-")); simpl.
  { destruct (os_path_exists (disk w)); simpl; [done|].
    destruct (_open_store m version w) as [w' [root'|e]]; [|done].
    by intros [= <- <- <-]. }
  destruct (bool_decide (m = "w")); simpl; [|done].
  destruct (os_path_exists (disk w)); simpl.
  - destruct (_open_store m version _) as [w' [root'|e]]; [|done].
    by intros [= <- <- <-].
  - destruct (_open_store m version w) as [w' [root'|e]]; [|done].
    by intros [= <- <- <-].
Qed.

Lemma open_ome_zarr_after_root (layout mode : string) (cn : option nat)
    (ax : option (list AxisMeta)) (version : string) (kw : kwargs)
    (w w1 : World) (parse_meta : bool) (root : string) :
  open_root mode version w = (w1, Ok (parse_meta, root)) →
  open_ome_zarr layout mode cn ax version kw w =
  match resolve_layout layout parse_meta (root_meta_keys w1 parse_meta root) with
  | Ok node => construct node root parse_meta cn ax kw w1
  | Raise e => (w1, Raise e)
  end.
Proof.
  intros Hroot. unfold open_ome_zarr, bindM at 1. rewrite Hroot.
  unfold bindM, get_world, lift.
  by destruct (resolve_layout _ _ _).
Qed.

Lemma elem_of_root_meta_keys (w : World) (root : string) (g : GroupData) (k : string) :
  groups w !! root = Some g →
  k ∈ root_meta_keys w true root ↔ is_Some (attrs g !! k).
Proof.
  intros Hg. unfold root_meta_keys. rewrite Hg, elem_of_elements.
  apply elem_of_dom.
Qed.

(** C6: once the root group is open, with document [attrs g]. The store is
    an existing one exactly when [parse_meta] holds, that is when the
    resolved mode is ['r'] or ['r+']. Then layout ['auto'] builds a [Plate]
    when the document has a [plate] key, a [Position] when it has no
    [plate] but a [multiscales] key, and raises [KeyError] when it has
    neither; on a store being created ['auto'] raises [ValueError]; and an
    explicit ['fov'] without a [multiscales] key, or ['hcs'] without a
    [plate] key, raises [ValueError]. *)
Theorem open_layout_resolution (mode : string) (cn : option nat)
    (ax : option (list AxisMeta)) (version : string) (kw : kwargs)
    (w w1 : World) (parse_meta : bool) (root : string) (g : GroupData) :
  open_root mode version w = (w1, Ok (parse_meta, root)) →
  groups w1 !! root = Some g →
  let has k := is_Some (attrs g !! k) in
  let open layout := open_ome_zarr layout mode cn ax version kw w in
  parse_meta = bool_decide (resolve_mode mode w = "r" ∨ resolve_mode mode w = "r+") ∧
  (parse_meta = true → has "plate" →
   open "auto" = construct class_Plate root true cn ax kw w1) ∧
  (parse_meta = true → ¬ has "plate" → has "multiscales" →
   open "auto" = construct class_Position root true cn ax kw w1) ∧
  (parse_meta = true → ¬ has "plate" → ¬ has "multiscales" →
   open "auto" = (w1, Raise KeyError)) ∧
  (parse_meta = false → open "auto" = (w1, Raise ValueError)) ∧
  (parse_meta = true → ¬ has "multiscales" → open "fov" = (w1, Raise ValueError)) ∧
  (parse_meta = true → ¬ has "plate" → open "hcs" = (w1, Raise ValueError)).
Proof.
  intros Hroot Hg has open.
  assert (∀ k, bool_decide (k ∈ root_meta_keys w1 true root) = bool_decide (has k)) as Hkeys.
  { intros k. apply bool_decide_ext. by apply elem_of_root_meta_keys. }
  split; [by eapply open_root_parse_meta|].
  unfold open. repeat split.
  - intros -> Hp. rewrite (open_ome_zarr_after_root _ _ _ _ _ _ _ _ _ _ Hroot).
    unfold resolve_layout. simpl. rewrite !Hkeys.
    rewrite (bool_decide_true (has "plate")) by done. done.
  - intros -> Hp Hm. rewrite (open_ome_zarr_after_root _ _ _ _ _ _ _ _ _ _ Hroot).
    unfold resolve_layout. simpl. rewrite !Hkeys.
    rewrite (bool_decide_false (has "plate")) by done.
    rewrite (bool_decide_true (has "multiscales")) by done. done.
  - intros -> Hp Hm. rewrite (open_ome_zarr_after_root _ _ _ _ _ _ _ _ _ _ Hroot).
    unfold resolve_layout. simpl. rewrite !Hkeys.
    rewrite (bool_decide_false (has "plate")) by done.
    rewrite (bool_decide_false (has "multiscales")) by done. done.
  - intros ->. rewrite (open_ome_zarr_after_root _ _ _ _ _ _ _ _ _ _ Hroot). done.
  - intros -> Hm. rewrite (open_ome_zarr_after_root _ _ _ _ _ _ _ _ _ _ Hroot).
    unfold resolve_layout. simpl. rewrite !Hkeys.
    rewrite (bool_decide_false (has "multiscales")) by done. done.
  - intros -> Hp. rewrite (open_ome_zarr_after_root _ _ _ _ _ _ _ _ _ _ Hroot).
    unfold resolve_layout. simpl. rewrite !Hkeys.
    rewrite (bool_decide_false (has "plate")) by done. done.
Qed.

End Opening.

Section OpeningSamples.
Import Ngff Ngff.Sample.
#[local] Existing Instance sample_display.
#[local] Existing Instance sample_schema.
#[local] Existing Instance sample_engine.

Lemma open_mode_resolution_witness :
  open_ome_zarr "hcs" "w-" None None "0.4" no_kwargs bad_plate_world
  = (bad_plate_world, Raise FileExistsError) ∧
  open_ome_zarr "auto" "r+" None None "0.4" no_kwargs blank_world
  = (blank_world, Raise FileNotFoundError).
Proof.
  split.
  - destruct (open_mode_resolution "hcs" None None "0.4" no_kwargs bad_plate_world)
      as (_ & Hexcl & _).
    apply Hexcl. reflexivity.
  - destruct (open_mode_resolution "auto" None None "0.4" no_kwargs blank_world)
      as (_ & _ & Hread).
    apply Hread; [reflexivity | right; reflexivity].
Defined.

Example open_append_mode_creates :
  (open_ome_zarr "fov" "a" (Some 0%nat) None "0.4" no_kwargs blank_world).2
  = (open_ome_zarr "fov" "w-" (Some 0%nat) None "0.4" no_kwargs blank_world).2.
Proof. vm_compute. reflexivity. Qed.

Lemma open_layout_resolution_witness :
  let w := three_wells_world in
  open_ome_zarr "auto" "r" None None "0.4" no_kwargs w
  = construct class_Plate "" true None None no_kwargs w ∧
  open_ome_zarr "fov" "r" None None "0.4" no_kwargs w = (w, Raise ValueError).
Proof.
  intros w.
  assert (open_root "r" "0.4" w = (w, Ok (true, ""))) as Hroot
    by (vm_compute; reflexivity).
  assert (∃ g, groups w !! "" = Some g ∧ is_Some (attrs g !! "plate")
               ∧ attrs g !! "multiscales" = None) as (g & Hg & Hplate & Hms).
  { eexists. split; [vm_compute; reflexivity|]. split; [by eexists | reflexivity]. }
  destruct (open_layout_resolution "r" None None "0.4" no_kwargs w w true "" g Hroot Hg)
    as (_ & Hauto & _ & _ & _ & Hfov & _).
  split.
  - by apply Hauto.
  - apply Hfov; [done|]. rewrite Hms. by intros [? ?].
Defined.

End OpeningSamples.

(** ** Parsing the stored documents *)

Section Parsing.
Import Ngff.
Context `{Display, !Schema, Engine}.

(** X4: a [Position] whose stored document fails validation is opened
    all the same: [_parse_meta] logs one warning, leaves the node without
    metadata as it was, and the store is untouched. *)
Lemma Position_parse_meta_recovers (self : Position) (w : World) (g : GroupData)
    (ms om : json) :
  groups w !! _group self = Some g →
  attrs g !! "multiscales" = Some ms → attrs g !! "omero" = Some om →
  truthy ms = true → truthy om = true →
  ImagesMeta_parse ms om = Raise ValidationError →
  ∃ msg, Position_parse_meta self w
         = (mkWorld (lists w) (disk w) (groups w) (warnings w ++ [msg]), Ok self).
Proof.
  intros Hg Hms Hom Htms Htom Hparse.
  unfold Position_parse_meta, bindM, zattrs_get. rewrite Hg. simpl.
  rewrite Hg, Hms, Hom, Htms, Htom. simpl. rewrite Hparse. unfold bindM, _warn_invalid_meta, logging_warning.
  by eexists.
Qed.

(** A [Plate] and a [Well] let whatever the validation raises through. *)
Lemma Plate_parse_meta_raises (self : NGFFNode PlateMeta) (w : World) (g : GroupData)
    (j : json) (e : exn) :
  groups w !! _group self = Some g → attrs g !! "plate" = Some j →
  truthy j = true → PlateMeta_parse j = Raise e →
  Plate_parse_meta self w = (w, Raise e).
Proof.
  intros Hg Hj Ht Hparse.
  unfold Plate_parse_meta, bindM, zattrs_get. rewrite Hg, Hj, Ht.
  unfold bindM, lift. by rewrite Hparse.
Qed.

Lemma Well_parse_meta_raises (self : Well) (w : World) (g : GroupData)
    (j : json) (e : exn) :
  groups w !! _group self = Some g → attrs g !! "well" = Some j →
  truthy j = true → WellGroupMeta_parse j = Raise e →
  Well_parse_meta self w = (w, Raise e).
Proof.
  intros Hg Hj Ht Hparse.
  unfold Well_parse_meta, bindM, zattrs_get. rewrite Hg, Hj, Ht.
  unfold bindM, lift. by rewrite Hparse.
Qed.

(** *** The index of a new row or column *)

Lemma foldr_max_spec (v : Z) (vs : list Z) :
  (foldr Z.max v vs = v ∨ foldr Z.max v vs ∈ vs) ∧
  v ≤ foldr Z.max v vs ∧ ∀ x, x ∈ vs → x ≤ foldr Z.max v vs.
Proof.
  induction vs as [|y vs (Hin & Hv & Hvs)]; simpl.
  - split; [by left|]. split; [lia|]. by intros x ?%elem_of_nil.
  - split; [|split].
    + destruct (Z.max_spec y (foldr Z.max v vs)) as [[_ ->] | [_ ->]].
      * destruct Hin as [-> | Hin]; [by left | right; by right].
      * right. by left.
    + lia.
    + intros x [-> | Hx]%elem_of_cons; [lia|]. specialize (Hvs x Hx). lia.
Qed.

Lemma max_values_spec (known : gmap string Z) :
  (known = ∅ → max_values known = None) ∧
  (∀ m, (∃ k, known !! k = Some m) → (∀ k v, known !! k = Some v → v ≤ m) →
        max_values known = Some m).
Proof.
  unfold max_values. split.
  - intros ->. by rewrite map_to_list_empty.
  - intros m (k & Hk) Hmax.
    assert (∀ v, v ∈ (map_to_list known).*2 ↔ ∃ k, known !! k = Some v) as Hvals.
    { intros v. rewrite list_elem_of_fmap. split.
      - intros ([k' v'] & -> & Hin). exists k'. by apply elem_of_map_to_list.
      - intros (k' & Hk'). exists (k', v). split; [done|]. by apply elem_of_map_to_list. }
    destruct ((map_to_list known).*2) as [|v vs] eqn:Hl.
    { exfalso. eapply elem_of_nil, Hvals. eauto. }
    destruct (foldr_max_spec v vs) as (Hin & Hv & Hvs). f_equal.
    assert (foldr Z.max v vs ∈ v :: vs) as Hmem.
    { destruct Hin as [-> | Hin]; [left | by right]. }
    apply Hvals in Hmem as (k' & Hk').
    assert (m ∈ v :: vs) as [-> | Hm]%elem_of_cons by (apply Hvals; eauto).
    + specialize (Hmax k' _ Hk'). lia.
    + specialize (Hvs m Hm). specialize (Hmax k' _ Hk'). lia.
Qed.

(** X3: the index that [create_well] takes from [_auto_idx] does not
    depend on the index it was given, nor on the name of the row or
    column: it is 0 for an empty registry and the largest registered index
    plus one otherwise. *)
Lemma auto_idx_ignores_argument (given : option Z) (known : gmap string Z) :
  (known = ∅ → _auto_idx (index_arg given) known = 0) ∧
  (∀ m, (∃ k, known !! k = Some m) → (∀ k v, known !! k = Some v → v ≤ m) →
        _auto_idx (index_arg given) known = m + 1).
Proof.
  destruct (max_values_spec known) as (Hempty & Hmax).
  assert (_auto_idx (index_arg given) known
          = match max_values known with Some m => m + 1 | None => 0 end) as ->
    by (by destruct given).
  split.
  - intros Hk. by rewrite (Hempty Hk).
  - intros m Hm Hub. by rewrite (Hmax m Hm Hub).
Qed.

End Parsing.

Section ParsingSamples.
Import Ngff Ngff.Sample.
#[local] Existing Instance sample_display.
#[local] Existing Instance sample_schema.
#[local] Existing Instance sample_engine.

Lemma Position_parse_meta_recovers_witness :
  ∃ msg, Position_parse_meta no_node bad_position_world
         = (mkWorld (lists bad_position_world) (disk bad_position_world)
                    (groups bad_position_world) (warnings bad_position_world ++ [msg]),
            Ok no_node).
Proof.
  apply (Position_parse_meta_recovers no_node bad_position_world
           (default empty_group (groups bad_position_world !! ""))
           (JList [JInt 1]) (JDict [("version", JStr "0.4")]));
    vm_compute; reflexivity.
Defined.

(** C8: opening existing stores whose document fails validation. The
    position is opened with a warning and no metadata; the plate and the
    well are not opened, [ValidationError] reaches the caller and nothing
    is logged. *)
Theorem plate_and_well_validation_error_escapes :
  (∃ w p, open_ome_zarr "fov" "r" None None "0.4" no_kwargs bad_position_world
          = (w, Ok (PositionNode p)) ∧
          metadata p = None ∧ length (warnings w) = 1%nat ∧
          array_shapes w p = [("0", [1; 2; 1; 4; 4])]) ∧
  open_ome_zarr "hcs" "r" None None "0.4" no_kwargs bad_plate_world
  = (bad_plate_world, Raise ValidationError) ∧
  Well_init "A/1" true (Some 0%nat) None "0.4" false bad_well_world
  = (bad_well_world, Raise ValidationError).
Proof.
  split; [|split].
  - do 2 eexists. split; [vm_compute; reflexivity|].
    repeat split; vm_compute; reflexivity.
  - vm_compute. reflexivity.
  - vm_compute. reflexivity.
Qed.

(** C4: the plate with wells (A, 1), (A, 2), (B, 1) and indices left to
    [create_well]. The rows registry ends as A:0, B:1, the columns
    registry as 2:0 only; the well (A, 2) is stored with row index 1 and
    column index 0, the well (B, 1) with column index 1; reopening in
    mode ['r'] with layout ['auto'] reads the same three records back and
    starts with empty registries. *)
Theorem create_well_auto_indices :
  ∃ w plate w' plate',
    three_wells blank_world = (w, Ok plate) ∧
    _rows plate = {[ "A" := 0; "B" := 1 ]} ∧
    _cols plate = {[ "2" := 0 ]} ∧
    wells <$> metadata (plate_node plate)
    = Some [mkWellIndexMeta "A/1" 0 0; mkWellIndexMeta "A/2" 1 0; mkWellIndexMeta "B/1" 1 1] ∧
    rows <$> metadata (plate_node plate) = Some [mkPlateAxisMeta "A"; mkPlateAxisMeta "B"] ∧
    columns <$> metadata (plate_node plate) = Some [mkPlateAxisMeta "1"; mkPlateAxisMeta "2"] ∧
    reopen_auto w = (w', Ok plate') ∧
    metadata (plate_node plate') = metadata (plate_node plate) ∧
    _rows plate' = ∅ ∧ _cols plate' = ∅.
Proof.
  do 4 eexists. split; [vm_compute; reflexivity|].
  do 5 (split; [vm_compute; reflexivity|]).
  split; [vm_compute; reflexivity|].
  repeat split; vm_compute; reflexivity.
Qed.

End ParsingSamples.

(** ** Appending a channel *)

Section ChannelAppend.
Import Ngff.
Context `{Display, !Schema, Engine}.

Lemma insert_sorted_perm (x : string) (l : list string) : insert_sorted x l ≡ₚ x :: l.
Proof.
  induction l as [|y l IH]; simpl; [done|].
  destruct (String.leb x y); [done|].
  rewrite IH. apply perm_swap.
Qed.

Lemma sorted_perm (l : list string) : sorted l ≡ₚ l.
Proof.
  induction l as [|x l IH]; simpl; [done|].
  unfold sorted in *. simpl. by rewrite insert_sorted_perm, IH.
Qed.

Lemma array_keys_spec (w : World) (p : string) (g : GroupData) :
  groups w !! p = Some g →
  NoDup (array_keys w p) ∧ ∀ key, key ∈ array_keys w p ↔ is_Some (arrays g !! key).
Proof.
  intros Hg. unfold array_keys. rewrite Hg. split.
  - rewrite sorted_perm. apply NoDup_elements.
  - intros key. rewrite sorted_perm, elem_of_elements. apply elem_of_dom.
Qed.


Lemma frame_refl (p : string) (w : World) : frame p w w.
Proof. by repeat split. Qed.

Lemma frame_trans (p : string) (w1 w2 w3 : World) :
  frame p w1 w2 → frame p w2 w3 → frame p w1 w3.
Proof.
  intros (Hl & Hd & Hg & Ha) (Hl' & Hd' & Hg' & Ha').
  repeat split; [congruence | congruence | | congruence].
  intros q Hq. by rewrite Hg', Hg.
Qed.

Lemma logging_warning_frame (p msg : string) (w : World) :
  frame p w (logging_warning msg w).1 ∧
  ∀ key, arrays_at (logging_warning msg w).1 p key = arrays_at w p key.
Proof. by repeat split. Qed.

Lemma set_array_spec (p key : string) (shape : list Z) (w : World) (g : GroupData) :
  groups w !! p = Some g →
  ∃ w', set_array p key shape w = (w', Ok tt) ∧ frame p w w' ∧
        arrays_at w' p key = Some shape ∧
        ∀ key', key' ≠ key → arrays_at w' p key' = arrays_at w p key'.
Proof.
  intros Hg. unfold set_array. rewrite Hg. eexists. split; [done|].
  unfold frame, arrays_at. simpl. rewrite Hg, !lookup_insert_eq. simpl.
  repeat split; try done.
  - intros q Hq. by rewrite lookup_insert_ne.
  - by rewrite lookup_insert_eq.
  - intros key' Hk. by rewrite lookup_insert_ne.
Qed.

Lemma resize_image_step (self : Position) (ch_ax : nat) (key : string)
    (w w' : World) (r : result unit) :
  resize_image self ch_ax key w = (w', r) →
  frame (_group self) w w' ∧
  (∀ key', key' ≠ key → arrays_at w' (_group self) key' = arrays_at w (_group self) key') ∧
  turn_outcome ch_ax (arrays_at w (_group self) key) r (arrays_at w' (_group self) key).
Proof.
  unfold resize_image, bindM, get_world, turn_outcome.
  destruct (arrays_at w (_group self) key) as [shape|] eqn:Hshape.
  - destruct (loadable shape).
    + unfold lift. destruct (channel_resize_request ch_ax shape) as [request|e].
      * destruct (array_resize shape request) as [shape'|e].
        -- assert (∃ g, groups w !! _group self = Some g) as (g & Hg).
           { unfold arrays_at in Hshape. destruct (groups w !! _group self); [by eexists|done]. }
           destruct (set_array_spec (_group self) key shape' w g Hg)
             as (w1 & -> & Hf & Hk & Hother).
           by intros [= <- <-].
        -- intros [= <- <-]. split; [apply frame_refl|]. by split.
      * intros [= <- <-]. split; [apply frame_refl|]. by split.
    + intros [= <- <-]. split; [apply logging_warning_frame|]. by split.
  - intros [= <- <-]. split; [apply logging_warning_frame|]. by split.
Qed.

Lemma resize_loop_frame (self : Position) (ch_ax : nat) (ks : list string)
    (w w' : World) (r : result unit) :
  for_eachM (resize_image self ch_ax) ks w = (w', r) → frame (_group self) w w'.
Proof.
  revert w. induction ks as [|key ks IH]; intros w; simpl.
  - intros [= <- <-]. apply frame_refl.
  - unfold bindM. destruct (resize_image self ch_ax key w) as [w1 [[]|e]] eqn:Hstep.
    + intros Hrest. apply resize_image_step in Hstep as (Hf & _).
      eapply frame_trans; [exact Hf | by apply IH].
    + intros [= <- <-]. by apply resize_image_step in Hstep as (Hf & _).
Qed.

(** The loop, when it ends without an exception: every key of the list
    has had its turn, the other arrays are as before. *)
Lemma resize_loop_ok (self : Position) (ch_ax : nat) (ks : list string) (w w' : World) :
  NoDup ks →
  for_eachM (resize_image self ch_ax) ks w = (w', Ok tt) →
  ∀ key,
    (key ∉ ks → arrays_at w' (_group self) key = arrays_at w (_group self) key) ∧
    (key ∈ ks → turn_outcome ch_ax (arrays_at w (_group self) key) (Ok tt)
                             (arrays_at w' (_group self) key)).
Proof.
  revert w. induction ks as [|k ks IH]; intros w Hnd; simpl.
  - intros [= <-] key. split; [done|]. by intros ?%elem_of_nil.
  - apply NoDup_cons in Hnd as (Hk & Hnd).
    unfold bindM. destruct (resize_image self ch_ax k w) as [w1 [[]|e]] eqn:Hstep; [|done].
    intros Hrest key.
    apply resize_image_step in Hstep as (_ & Hother & Hturn).
    destruct (IH w1 Hnd Hrest key) as (IHout & IHin).
    destruct (IH w1 Hnd Hrest k) as (IHk & _).
    split.
    + intros Hnot. apply not_elem_of_cons in Hnot as (Hne & Hnot).
      rewrite IHout by done. by apply Hother.
    + intros [-> | Hin]%elem_of_cons.
      * by rewrite IHk.
      * assert (key ≠ k) as Hne by (intros ->; done).
        rewrite <- (Hother key Hne). by apply IHin.
Qed.

(** The loop, when some array of the list has fewer axes than the index
    of the channel axis: it ends with an exception, [IndexError] unless
    the engine refused a resize before. *)
Lemma resize_loop_bad (self : Position) (ch_ax : nat) (ks : list string)
    (w w' : World) (r : result unit) :
  for_eachM (resize_image self ch_ax) ks w = (w', r) →
  (∃ key shape, key ∈ ks ∧ arrays_at w (_group self) key = Some shape ∧
                loadable shape = true ∧ (length shape < ch_ax)%nat) →
  ∃ e, r = Raise e ∧ (e = IndexError ∨ ∃ old new, array_resize old new = Raise e).
Proof.
  revert w. induction ks as [|k ks IH]; intros w; simpl.
  - intros _ (key & shape & Hin & _). by apply elem_of_nil in Hin.
  - unfold bindM. destruct (resize_image self ch_ax k w) as [w1 [[]|e]] eqn:Hstep.
    + intros Hrest (key & shape & Hin & Hshape & Hload & Hlen).
      apply resize_image_step in Hstep as (_ & Hother & Hturn).
      destruct (decide (key = k)) as [-> | Hne].
      * exfalso. unfold turn_outcome in Hturn. rewrite Hshape, Hload in Hturn.
        unfold channel_resize_request in Hturn.
        rewrite bool_decide_false, bool_decide_false in Hturn by lia.
        by destruct Hturn.
      * apply (IH w1 Hrest). exists key, shape.
        apply elem_of_cons in Hin as [? | Hin]; [done|].
        by rewrite (Hother key Hne).
    + intros [= <- <-] _. exists e. split; [done|].
      apply resize_image_step in Hstep as (_ & _ & Hturn).
      unfold turn_outcome in Hturn.
      destruct (arrays_at w (_group self) k) as [shape|]; [|by destruct Hturn].
      destruct (loadable shape); [|by destruct Hturn].
      destruct (channel_resize_request ch_ax shape) as [request|e'] eqn:Hreq.
      * destruct (array_resize shape request) as [shape'|e'] eqn:Hres; [by destruct Hturn|].
        destruct Hturn as [[= <-] _]. right. eauto.
      * destruct Hturn as [[= <-] _]. left.
        unfold channel_resize_request in Hreq.
        repeat case_bool_decide; congruence.
Qed.


Lemma alter_as_insert (f : Z → Z) (k : nat) (l : list Z) (n : Z) :
  l !! k = Some n → alter f k l = <[k := f n]> l.
Proof.
  revert k. induction l as [|x l IH]; intros [|k] Hk; try done; simpl in *.
  - by injection Hk as ->.
  - f_equal. by apply IH.
Qed.

Example channel_axis_within_rank :
  channel_resize_request 1 [3; 4; 5; 6] = Ok [3; 5; 5; 6].
Proof. reflexivity. Qed.

Example channel_axis_at_rank :
  channel_resize_request 4 [3; 4; 5; 6] = Ok [1; 3; 4; 5; 6].
Proof. reflexivity. Qed.

Example channel_axis_past_rank :
  channel_resize_request 5 [3; 4; 5; 6] = Raise IndexError.
Proof. reflexivity. Qed.

(** The three cases of the shape that [append_channel] asks for. *)
Lemma channel_resize_request_cases (ch_ax : nat) (shape : list Z) :
  ((ch_ax < length shape)%nat →
   ∃ n, shape !! ch_ax = Some n ∧
        channel_resize_request ch_ax shape = Ok (<[ch_ax := n + 1]> shape)) ∧
  (ch_ax = length shape → channel_resize_request ch_ax shape = Ok (1 :: shape)) ∧
  ((length shape < ch_ax)%nat → channel_resize_request ch_ax shape = Raise IndexError).
Proof.
  unfold channel_resize_request. repeat split.
  - intros Hlt. rewrite bool_decide_true by done.
    destruct (lookup_lt_is_Some_2 shape ch_ax Hlt) as (n & Hn).
    exists n. split; [done|]. by rewrite (alter_as_insert _ _ _ n).
  - intros ->. rewrite bool_decide_false by lia. rewrite bool_decide_true by done.
    unfold _pad_shape. by replace (length shape + 1 - length shape)%nat with 1%nat by lia.
  - intros Hgt. by rewrite !bool_decide_false by lia.
Qed.

Lemma append_channel_unfold (self : Position) (chan_name : string) (w : World)
    (a : nat) (names : list string) (k : nat) :
  _channel_names self = Some a → lists w !! a = Some names → chan_name ∉ names →
  _find_axis self "channel" = Ok (Some k) →
  append_channel self chan_name true w =
  let w1 := after_append w a names chan_name in
  match for_eachM (resize_image self k) (array_keys w1 (_group self)) w1 with
  | (w2, Ok _) =>
      match metadata self with
      | None => (w2, Raise AttributeError)
      | Some meta =>
          let self' := set_metadata self
            (Some (append_omero_channel meta (channel_display_settings chan_name None))) in
          match Position_dump_meta self' w2 with
          | (w3, Ok _) => (w3, Ok self')
          | (w3, Raise e) => (w3, Raise e)
          end
      end
  | (w2, Raise e) => (w2, Raise e)
  end.
Proof.
  intros Hcn Hl Hnew Hax.
  unfold append_channel, bindM at 1, read_list. rewrite Hcn, Hl.
  rewrite bool_decide_false by done.
  unfold bindM at 1, list_append. rewrite Hl.
  unfold bindM at 1, bindM at 1, lift. rewrite Hax.
  unfold bindM at 1, get_world. fold (after_append w a names chan_name). simpl.
  destruct (for_eachM _ _ _) as [w2 [[]|e]]; [|done].
  destruct (metadata self) as [meta|]; [|done].
  unfold bindM, ret. by destruct (Position_dump_meta _ w2) as [w3 [[]|e]].
Qed.

Lemma Position_dump_meta_spec (self : Position) (w w' : World) (r : result unit) :
  Position_dump_meta self w = (w', r) →
  lists w' = lists w ∧ ∀ key, arrays_at w' (_group self) key = arrays_at w (_group self) key.
Proof.
  unfold Position_dump_meta, raise, zattrs_update.
  destruct (metadata self) as [meta|]; [|by intros [= <- <-]].
  destruct (groups w !! _group self) as [g|] eqn:Hg; [|by intros [= <- <-]].
  intros [= <- <-]. split; [done|]. intros key. unfold arrays_at. simpl.
  by rewrite lookup_insert_eq, Hg.
Qed.


(** C10: a channel name that the list already holds makes
    [append_channel] raise [ValueError] with the world as it was: the list
    of channel names, the shapes of the arrays and the stored document
    are untouched. *)
Theorem append_channel_existing_name (self : Position) (chan_name : string)
    (resize_arrays : bool) (w : World) (a : nat) (names : list string) :
  _channel_names self = Some a → lists w !! a = Some names → chan_name ∈ names →
  append_channel self chan_name resize_arrays w = (w, Raise ValueError).
Proof.
  intros Hcn Hl Hin. unfold append_channel, bindM, read_list.
  rewrite Hcn, Hl. by rewrite bool_decide_true.
Qed.

(** C3, as the code has it. Appending a new channel name with
    [resize_arrays] set, on a position whose channel axis has index [k]:
    the list of channel names grows by that one name; when the call
    returns, every array that [images()] yields has the shape the engine
    gave it on the request to grow axis [k] by one (for [k] within its
    rank) or to put one axis of length 1 in front (for [k] equal to its
    rank), and the arrays that [images()] skips keep their shape; when
    some yielded array has a rank below [k] the call raises, with
    [IndexError] unless the engine refused a resize before. *)
Theorem append_channel_resizes (self : Position) (chan_name : string) (w w' : World)
    (r : result Position) (a : nat) (names : list string) (k : nat) (g : GroupData) :
  _channel_names self = Some a → lists w !! a = Some names → chan_name ∉ names →
  _find_axis self "channel" = Ok (Some k) →
  groups w !! _group self = Some g →
  append_channel self chan_name true w = (w', r) →
  lists w' !! a = Some (names ++ [chan_name])%list ∧
  (∀ self', r = Ok self' →
     ∀ key shape, arrays g !! key = Some shape →
       if loadable shape then
         ∃ request shape',
           ((k < length shape)%nat →
            ∃ n, shape !! k = Some n ∧ request = <[k := n + 1]> shape) ∧
           (k = length shape → request = 1 :: shape) ∧
           (k ≤ length shape)%nat ∧
           array_resize shape request = Ok shape' ∧
           arrays_at w' (_group self) key = Some shape'
       else arrays_at w' (_group self) key = Some shape) ∧
  ((∃ key shape, arrays g !! key = Some shape ∧ loadable shape = true ∧
                 (length shape < k)%nat) →
   ∃ e, r = Raise e ∧ (e = IndexError ∨ ∃ old new, array_resize old new = Raise e)).
Proof.
  intros Hcn Hl Hnew Hax Hg.
  rewrite (append_channel_unfold self chan_name w a names k Hcn Hl Hnew Hax).
  set (w1 := after_append w a names chan_name). simpl.
  assert (groups w1 !! _group self = Some g) as Hg1 by done.
  assert (∀ key, arrays_at w1 (_group self) key = arrays g !! key) as Hat.
  { intros key. unfold arrays_at. by rewrite Hg1. }
  destruct (array_keys_spec w1 (_group self) g Hg1) as (Hnd & Hkeys).
  destruct (for_eachM (resize_image self k) (array_keys w1 (_group self)) w1)
    as [w2 rl] eqn:Hloop.
  pose proof (resize_loop_frame _ _ _ _ _ _ Hloop) as (Hlists2 & _).
  assert (lists w2 !! a = Some (names ++ [chan_name])%list) as Hnames2.
  { rewrite Hlists2. unfold w1, after_append. simpl. apply lookup_insert_eq. }
  destruct rl as [[]|e].
  - (* the loop went through *)
    assert (∀ key shape, arrays g !! key = Some shape → loadable shape = true →
              (length shape < k)%nat → False) as Hnobad.
    { intros key shape Hkey Hload Hlen.
      destruct (resize_loop_bad _ _ _ _ _ _ Hloop) as (e & He & _); [|done].
      exists key, shape. rewrite Hkeys, Hat, Hkey. eauto. }
    destruct (metadata self) as [meta|].
    + destruct (Position_dump_meta _ w2) as [w3 rd] eqn:Hdump.
      apply Position_dump_meta_spec in Hdump as (Hlists3 & Harr3). simpl in Harr3.
      assert (lists w' = lists w3 ∧
              (∀ key, arrays_at w' (_group self) key = arrays_at w3 (_group self) key) →
              lists w' !! a = Some (names ++ [chan_name])%list ∧
              ∀ key shape, arrays g !! key = Some shape →
                if loadable shape then
                  ∃ request shape',
                    ((k < length shape)%nat →
                     ∃ n, shape !! k = Some n ∧ request = <[k := n + 1]> shape) ∧
                    (k = length shape → request = 1 :: shape) ∧
                    (k ≤ length shape)%nat ∧
                    array_resize shape request = Ok shape' ∧
                    arrays_at w' (_group self) key = Some shape'
                else arrays_at w' (_group self) key = Some shape) as Hmain.
      { intros (Hl' & Harr'). split; [by rewrite Hl', Hlists3|].
        intros key shape Hkey.
        destruct (resize_loop_ok _ _ _ _ _ Hnd Hloop key) as (_ & Hturn).
        specialize (Hturn (proj2 (Hkeys key) (mk_is_Some _ _ Hkey))).
        rewrite Hat, Hkey in Hturn. unfold turn_outcome in Hturn.
        rewrite Harr', Harr3.
        destruct (loadable shape) eqn:Hload; [|by destruct Hturn].
        destruct (channel_resize_request_cases k shape) as (Hlt & Heq & Hgt).
        destruct (channel_resize_request k shape) as [request|e] eqn:Hreq;
          [|by destruct Hturn].
        destruct (array_resize shape request) as [shape'|e] eqn:Hres;
          [|by destruct Hturn].
        destruct Hturn as (_ & Hnew').
        exists request, shape'. repeat split; try done.
        - intros Hk. destruct (Hlt Hk) as (n & Hn & [= ->]). eauto.
        - intros Hk. specialize (Heq Hk). by injection Heq as ->.
        - destruct (decide (length shape < k)%nat) as [Hbad|]; [|lia].
          by specialize (Hgt Hbad). }
      destruct rd as [[]|e]; intros [= <- <-].
      * destruct Hmain as (Hl' & Harr'); [done|].
        split; [done|]. split; [by intros self' _|].
        intros (key & shape & Hkey & Hload & Hlen). exfalso. eauto.
      * destruct Hmain as (Hl' & _); [done|].
        split; [done|]. split; [done|].
        intros (key & shape & Hkey & Hload & Hlen). exfalso. eauto.
    + intros [= <- <-]. split; [done|]. split; [done|].
      intros (key & shape & Hkey & Hload & Hlen). exfalso. eauto.
  - (* the loop raised *)
    intros [= <- <-]. split; [done|]. split; [done|].
    intros (key & shape & Hkey & Hload & Hlen).
    destruct (resize_loop_bad _ _ _ _ _ _ Hloop) as (e' & [= <-] & He'); [|eauto].
    exists key, shape. rewrite Hkeys, Hat, Hkey. eauto.
Qed.

End ChannelAppend.

Section Sharing.
Import Ngff.
Context `{Display, !Schema, Engine}.

Lemma create_group_lists (p name : string) (overwrite : bool) (w w' : World)
    (r : result string) :
  create_group p name overwrite w = (w', r) → lists w' = lists w.
Proof.
  unfold create_group.
  repeat match goal with |- context [if ?b then _ else _] => destruct b end;
    by intros [= <- <-].
Qed.

Lemma zattrs_update_lists (p : string) (doc : list (string * json)) (w w' : World)
    (r : result unit) :
  zattrs_update p doc w = (w', r) → lists w' = lists w.
Proof.
  unfold zattrs_update. destruct (groups w !! p); by intros [= <- <-].
Qed.

(** A node built with [parse_meta=False] holds the very list object it
    was given, and the world is as before. *)
Lemma NGFFNode_init_keeps_list {Meta : Type} (parse : NGFFNode Meta → M (NGFFNode Meta))
    (group : string) (cn : option nat) (ax : option (list AxisMeta)) (version : string)
    (overwriting : bool) (w w' : World) (node : NGFFNode Meta) :
  NGFFNode_init parse group false cn ax version overwriting w = (w', Ok node) →
  w' = w ∧ _channel_names node = cn.
Proof.
  unfold NGFFNode_init, bindM, get_world, ret, raise.
  destruct (list_truthy w cn); simpl; [|done].
  intros [= <- <-]. split; [done|]. by destruct ax as [[|? ?]|].
Qed.

Lemma Well_create_position_shares (well : Well) (name : string) (acq : Z)
    (w w' : World) (well' : Well) (pos : Position) :
  Well_create_position well name acq w = (w', Ok (well', pos)) →
  _channel_names pos = _channel_names well ∧
  _channel_names well' = _channel_names well ∧
  lists w' = lists w.
Proof.
  unfold Well_create_position, bindM at 1.
  destruct (create_group _ _ _ w) as [w1 [pos_grp|e]] eqn:Hgrp; [|done].
  apply create_group_lists in Hgrp.
  unfold bindM at 1, Well_dump_meta. simpl.
  destruct (zattrs_update _ _ w1) as [w2 [[]|e]] eqn:Hupd; [|done].
  apply zattrs_update_lists in Hupd.
  unfold bindM at 1, lift, _child_attrs. simpl.
  destruct (axes well) as [ax|]; [|done].
  destruct (_channel_names well) as [a|] eqn:Hcn; [|done].
  unfold bindM, Position_init. simpl.
  destruct (NGFFNode_init _ _ _ _ _ _ _ w2) as [w3 [node|e]] eqn:Hinit; [|done].
  apply NGFFNode_init_keeps_list in Hinit as (-> & Hnode).
  intros [= <- <- <-]. simpl. rewrite Hcn. repeat split; [done | congruence].
Qed.

Lemma group_getitem_world (p name : string) (w w' : World) (r : result string) :
  group_getitem p name w = (w', r) → w' = w.
Proof. unfold group_getitem. destruct (groups w !! _); by intros [= <- <-]. Qed.

(** The end of [create_well]: the well group, the dump, the [Well]. *)
Ltac create_well_tail w_row :=
  unfold ret at 1; unfold bindM at 1;
  let Hgrp := fresh "Hgrp" in
  let Hupd := fresh "Hupd" in
  let Hinit := fresh "Hinit" in
  let Hcn := fresh "Hcn" in
  let w2 := fresh "w" in
  let w3 := fresh "w" in
  let w4 := fresh "w" in
  destruct (create_group _ _ _ w_row) as [w2 [?|?]] eqn:Hgrp; [|done];
  apply create_group_lists in Hgrp;
  unfold bindM at 1, Plate_dump_meta; simpl;
  destruct (zattrs_update _ _ w2) as [w3 [[]|?]] eqn:Hupd; [|done];
  apply zattrs_update_lists in Hupd;
  unfold bindM at 1, lift, _child_attrs; simpl;
  match goal with |- context [axes ?n] => destruct (axes n); [|done] end;
  match goal with
  | |- context [_channel_names ?n] => destruct (_channel_names n) eqn:Hcn; [|done]
  end;
  unfold bindM, Well_init; simpl;
  destruct (NGFFNode_init _ _ _ _ _ _ _ w3) as [w4 [?|?]] eqn:Hinit; [|done];
  apply NGFFNode_init_keeps_list in Hinit as (-> & ?);
  intros [= <- <- <-]; simpl; repeat split; [done | done | congruence].

Lemma create_well_shares (plate : Plate) (row col : string) (ri ci : option Z)
    (w w' : World) (plate' : Plate) (well : Well) :
  create_well plate row col ri ci w = (w', Ok (plate', well)) →
  _channel_names well = _channel_names (plate_node plate) ∧
  _channel_names (plate_node plate') = _channel_names (plate_node plate) ∧
  lists w' = lists w.
Proof.
  unfold create_well. set (row_name := normalize_storage_path row).
  set (col_name := normalize_storage_path col).
  unfold bindM at 1.
  destruct (_rows plate !! row_name) as [known|].
  - (* the row is registered *)
    unfold bindM at 1.
    destruct (group_getitem _ _ w) as [w1 [row_grp|e]] eqn:Hrow; [|done].
    apply group_getitem_world in Hrow as ->.
    destruct (metadata (plate_node plate)) as [meta|] eqn:Hmeta; [|done].
    unfold ret at 1. unfold bindM at 1. simpl.
    case_bool_decide; create_well_tail w.
  - (* a new row *)
    unfold bindM at 1.
    destruct (create_group _ _ _ w) as [w1 [row_grp|e]] eqn:Hrowgrp; [|done].
    apply create_group_lists in Hrowgrp.
    unfold ret at 1. unfold bindM at 1. simpl.
    case_bool_decide; create_well_tail w1.
Qed.


(** Once past the test for a known name, [append_channel] has put the
    name on the list object of the position, however it ends. *)
Lemma append_channel_lists (self : Position) (chan_name : string) (resize_arrays : bool)
    (w w' : World) (r : result Position) (a : nat) (names : list string) :
  _channel_names self = Some a → lists w !! a = Some names → chan_name ∉ names →
  append_channel self chan_name resize_arrays w = (w', r) →
  lists w' = <[a := (names ++ [chan_name])%list]> (lists w).
Proof.
  intros Hcn Hl Hnew.
  unfold append_channel, bindM at 1, read_list. rewrite Hcn, Hl.
  rewrite bool_decide_false by done.
  unfold bindM at 1, list_append. rewrite Hl.
  fold (after_append w a names chan_name).
  set (w1 := after_append w a names chan_name).
  assert (lists w1 = <[a := (names ++ [chan_name])%list]> (lists w)) as Hw1 by done.
  clearbody w1. unfold bindM at 1.
  assert (∀ w2 r2,
            (if resize_arrays
             then let! ch_ax := lift (_find_axis self "channel") in
                  match ch_ax with
                  | Some ch_ax =>
                      let! w := get_world in
                      for_eachM (resize_image self ch_ax) (array_keys w (_group self))
                  | None => raise KeyError
                  end
             else ret tt) w1 = (w2, r2) → lists w2 = lists w1) as Hresize.
  { intros w2 r2. destruct resize_arrays; [|by intros [= <- <-]].
    unfold bindM at 1, lift. destruct (_find_axis self "channel") as [[k|]|e];
      [|by intros [= <- <-]..].
    unfold bindM, get_world. intros Hloop.
    by apply resize_loop_frame in Hloop as (? & _). }
  match goal with
  | |- context [let (_, _) := ?m in _] => destruct m as [w2 r2]
  end.
  specialize (Hresize _ _ eq_refl) as Hrun.
  destruct r2 as [[]|e]; [|intros [= <- <-]; congruence].
  destruct (metadata self) as [meta|]; [|intros [= <- <-]; congruence].
  unfold bindM, ret.
  destruct (Position_dump_meta _ w2) as [w3 [[]|e]] eqn:Hdump;
    apply Position_dump_meta_spec in Hdump as (Hl3 & _);
    intros [= <- <-]; congruence.
Qed.

(** [Position._parse_meta] either leaves the node as it is or binds
    [_channel_names] to a new list object made of the labels of the stored
    channels. *)
Lemma Position_parse_meta_names (self self' : Position) (w w' : World) :
  Position_parse_meta self w = (w', Ok self') →
  (self' = self ∧ lists w' = lists w) ∨
  (∃ a' meta, _channel_names self' = Some a' ∧ lists w !! a' = None ∧
              metadata self' = Some meta ∧
              lists w' = <[a' := label <$> channels (omero meta)]> (lists w)).
Proof.
  unfold Position_parse_meta, bindM at 1, zattrs_get.
  destruct (groups w !! _group self) as [g|]; [|done].
  unfold bindM at 1. destruct (groups w !! _group self) as [g'|]; [|done].
  assert (∀ w1 r1, (do! _warn_invalid_meta self "Position" in ret self) w = (w1, r1) →
                   r1 = Ok self ∧ lists w1 = lists w) as Hwarn.
  { intros w1 r1. unfold bindM, _warn_invalid_meta, logging_warning, ret.
    by intros [= <- <-]. }
  destruct (attrs g !! "multiscales") as [ms|];
    [|intros (Hr & ?)%Hwarn; injection Hr as <-; by left].
  destruct (attrs g' !! "omero") as [om|];
    [|intros (Hr & ?)%Hwarn; injection Hr as <-; by left].
  destruct (truthy ms && truthy om);
    [|intros (Hr & ?)%Hwarn; injection Hr as <-; by left].
  destruct (ImagesMeta_parse ms om) as [meta|e].
  - unfold bindM at 1, new_list.
    unfold bindM, lift. destruct (getitem (multiscales meta) 0) as [ms0|e]; [|done].
    unfold ret. intros [= <- <-]. right. simpl.
    exists (fresh (dom (lists w))), meta. repeat split.
    apply not_elem_of_dom, is_fresh.
  - destruct e; try done. intros (Hr & ?)%Hwarn; injection Hr as <-; by left.
Qed.

Lemma NGFFNode_init_parse {Meta : Type} (parse : NGFFNode Meta → M (NGFFNode Meta))
    (group : string) (cn : option nat) (ax : option (list AxisMeta)) (version : string)
    (overwriting : bool) (w w' : World) (node : NGFFNode Meta) :
  NGFFNode_init parse group true cn ax version overwriting w = (w', Ok node) →
  ∃ self0 self1,
    _channel_names self0 = (if list_truthy w cn then cn else None) ∧
    parse self0 w = (w', Ok self1) ∧
    _channel_names node = _channel_names self1 ∧ metadata node = metadata self1.
Proof.
  unfold NGFFNode_init, bindM at 1, get_world. simpl negb.
  rewrite andb_false_r. unfold bindM.
  match goal with
  | |- context [parse ?s w] =>
      destruct (parse s w) as [w1 [self1|e]] eqn:Hparse; [|done];
      unfold ret; intros [= <- <-]; exists s, self1
  end.
  split; [done|]. split; [done|]. by destruct (axes self1).
Qed.

(** A position reached by item access starts from the list object of its
    parent: it keeps it when its stored metadata is not taken, has none
    when that list is empty, and has a list of its own when its stored
    metadata parses. *)
Lemma getitem_child_names {Meta : Type} (parent : NGFFNode Meta) (key : string)
    (w w' : World) (pos : Position) :
  getitem_child Position_parse_meta parent key w = (w', Ok pos) →
  (lists w' = lists w ∧
   (_channel_names pos = _channel_names parent ∨ _channel_names pos = None)) ∨
  (∃ a' meta, _channel_names pos = Some a' ∧ lists w !! a' = None ∧
              metadata pos = Some meta ∧
              lists w' = <[a' := label <$> channels (omero meta)]> (lists w)).
Proof.
  unfold getitem_child, bindM at 1, get_world.
  destruct (groups w !! _) as [g|]; [|done].
  case_bool_decide; [done|].
  unfold bindM at 1, lift, _child_attrs.
  destruct (axes parent) as [ax|]; [|done].
  destruct (_channel_names parent) as [a|]; [|done].
  cbn [ca_channel_names ca_axes ca_version ca_overwriting_creation].
  intros (self0 & self1 & Hself0 & Hparse & Hcn & Hmeta)%NGFFNode_init_parse.
  apply Position_parse_meta_names in Hparse
    as [(-> & Hl) | (a' & meta & Ha' & Hfresh & Hmeta' & Hl)].
  - left. split; [done|]. rewrite Hcn, Hself0.
    destruct (list_truthy w (Some a)); auto.
  - right. exists a', meta. rewrite Hcn, Hmeta. by repeat split.
Qed.

(** C9, as the code has it. A child built by [create_position] or
    [create_well] holds the list object of channel names of its parent, not
    a copy; and a name appended through one node is read through every node
    that holds the same list object, parent and siblings included. *)
Theorem channel_names_shared_with_children :
  (∀ (well : Well) (name : string) (acq : Z) (w w' : World) (well' : Well) (pos : Position),
     Well_create_position well name acq w = (w', Ok (well', pos)) →
     _channel_names pos = _channel_names well ∧
     _channel_names well' = _channel_names well ∧ lists w' = lists w) ∧
  (∀ (plate : Plate) (row col : string) (ri ci : option Z) (w w' : World)
     (plate' : Plate) (well : Well),
     create_well plate row col ri ci w = (w', Ok (plate', well)) →
     _channel_names well = _channel_names (plate_node plate) ∧
     _channel_names (plate_node plate') = _channel_names (plate_node plate) ∧
     lists w' = lists w) ∧
  (∀ (Meta : Type) (other : NGFFNode Meta) (child : Position) (chan_name : string)
     (resize_arrays : bool) (w w' : World) (r : result Position) (names : list string),
     _channel_names other = _channel_names child →
     channel_names child w = (w, Ok names) → chan_name ∉ names →
     append_channel child chan_name resize_arrays w = (w', r) →
     channel_names other w' = (w', Ok (names ++ [chan_name])%list)).
Proof.
  split; [|split].
  - intros *. apply Well_create_position_shares.
  - intros *. apply create_well_shares.
  - intros Meta other child chan_name resize_arrays w w' r names Hsame Hnames Hnew Happ.
    unfold channel_names, read_list in *.
    destruct (_channel_names child) as [a|] eqn:Hcn; [|done].
    destruct (lists w !! a) as [l|] eqn:Hl; [|done].
    injection Hnames as ->.
    rewrite Hsame, (append_channel_lists _ _ _ _ _ _ _ _ Hcn Hl Hnew Happ).
    by rewrite lookup_insert_eq.
Qed.

End Sharing.

(** ** Channels on the sample stores *)

Section ChannelSamples.
Import Ngff Ngff.Sample.
#[local] Existing Instance sample_display.
#[local] Existing Instance sample_schema.
#[local] Existing Instance sample_engine.

Lemma append_channel_existing_name_witness :
  append_channel two_arrays_position "GFP" true two_arrays_world
  = (two_arrays_world, Raise ValueError).
Proof.
  apply (append_channel_existing_name _ _ _ _ 0%nat ["DAPI"; "GFP"; "Cy5"]).
  - vm_compute. reflexivity.
  - vm_compute. reflexivity.
  - by apply (bool_decide_unpack _).
Defined.

(** The position with arrays of shapes (2, 3, 4, 5, 6) and (3, 4, 5, 6)
    and channel axis 1: appending a channel leaves the second array with
    shape (3, 5, 5, 6), not (4, 4, 5, 6). *)
Lemma append_channel_example_shapes :
  ∃ w pos, append_to_two_arrays blank_world = (w, Ok pos) ∧
           array_shapes w pos = [("0", [2; 4; 4; 5; 6]); ("1", [3; 5; 5; 6])] ∧
           array_shapes w pos ≠ [("0", [2; 4; 4; 5; 6]); ("1", [4; 4; 5; 6])].
Proof.
  do 2 eexists. split; [vm_compute; reflexivity|].
  split; [vm_compute; reflexivity|].
  vm_compute. discriminate.
Qed.

Lemma append_channel_resizes_witness :
  lists (append_channel two_arrays_position "Cy7" true two_arrays_world).1 !! 0%nat
  = Some ["DAPI"; "GFP"; "Cy5"; "Cy7"] ∧
  arrays_at (append_channel two_arrays_position "Cy7" true two_arrays_world).1 "" "0"
  = Some [2; 4; 4; 5; 6] ∧
  arrays_at (append_channel two_arrays_position "Cy7" true two_arrays_world).1 "" "1"
  = Some [3; 5; 5; 6].
Proof.
  set (run := append_channel two_arrays_position "Cy7" true two_arrays_world).
  destruct (append_channel_resizes two_arrays_position "Cy7" two_arrays_world
              run.1 run.2 0%nat ["DAPI"; "GFP"; "Cy5"] 1%nat
              (default empty_group (groups two_arrays_world !! "")))
    as (Hnames & Hok & _).
  - vm_compute. reflexivity.
  - vm_compute. reflexivity.
  - by apply (bool_decide_unpack _).
  - vm_compute. reflexivity.
  - vm_compute. reflexivity.
  - apply surjective_pairing.
  - split; [exact Hnames|].
    assert (∃ self', run.2 = Ok self') as (self' & Hrun)
      by (eexists; vm_compute; reflexivity).
    specialize (Hok self' Hrun).
    assert (∀ key shape n,
              arrays (default empty_group (groups two_arrays_world !! "")) !! key
              = Some shape →
              loadable shape = true → shape !! 1%nat = Some n →
              arrays_at run.1 "" key = Some (<[1%nat := n + 1]> shape)) as Hgrow.
    { intros key shape n Hkey Hload Hn.
      specialize (Hok key shape Hkey). rewrite Hload in Hok.
      destruct Hok as (request & shape' & Hlt & _ & _ & Hres & Hat).
      destruct Hlt as (n' & Hn' & ->); [by eapply lookup_lt_Some|].
      assert (n' = n) as -> by congruence.
      simpl in Hres. rewrite length_insert, bool_decide_true in Hres by done.
      by injection Hres as <-. }
    split.
    + by apply (Hgrow "0" [2; 3; 4; 5; 6] 3).
    + by apply (Hgrow "1" [3; 4; 5; 6] 4).
Defined.

(** The parent and the sibling of a position read the channel that was
    appended through that position. *)
Lemma child_append_reaches_parent_and_sibling :
  ∃ w before after,
    names_around_append blank_world = (w, Ok (before, before, after, after)) ∧
    before = ["DAPI"; "GFP"; "Cy5"] ∧ after = ["DAPI"; "GFP"; "Cy5"; "Cy7"] ∧
    after ≠ before.
Proof.
  do 3 eexists. split; [vm_compute; reflexivity|]. by repeat split.
Qed.

Lemma channel_names_shared_with_children_witness :
  _channel_names second_position = _channel_names (plate_node sample_plate) ∧
  channel_names second_position
    (append_channel first_position "Cy7" true two_positions_world).1
  = ((append_channel first_position "Cy7" true two_positions_world).1,
     Ok ["DAPI"; "GFP"; "Cy5"; "Cy7"]) ∧
  channel_names (plate_node sample_plate)
    (append_channel first_position "Cy7" true two_positions_world).1
  = ((append_channel first_position "Cy7" true two_positions_world).1,
     Ok ["DAPI"; "GFP"; "Cy5"; "Cy7"]).
Proof.
  destruct channel_names_shared_with_children as (_ & _ & Hshared).
  split; [vm_compute; reflexivity|].
  split.
  - apply (Hshared _ _ first_position "Cy7" true two_positions_world _
                   (append_channel first_position "Cy7" true two_positions_world).2
                   ["DAPI"; "GFP"; "Cy5"]).
    + vm_compute. reflexivity.
    + vm_compute. reflexivity.
    + by apply (bool_decide_unpack _).
    + apply surjective_pairing.
  - apply (Hshared _ _ first_position "Cy7" true two_positions_world _
                   (append_channel first_position "Cy7" true two_positions_world).2
                   ["DAPI"; "GFP"; "Cy5"]).
    + vm_compute. reflexivity.
    + vm_compute. reflexivity.
    + by apply (bool_decide_unpack _).
    + apply surjective_pairing.
Defined.

End ChannelSamples.

(** ** Reading the page directories *)

Section PageDirectories.
Import MultipageTiff.

Lemma append_String (c : ascii) (a b : string) : String c a +:+ b = String c (a +:+ b).
Proof. reflexivity. Qed.

Lemma prefix_spec (n h : string) :
  String.prefix n h = true ↔ ∃ b, h = n +:+ b.
Proof.
  revert h. induction n as [|c n IH]; intros h; simpl.
  - destruct h; split; eauto.
  - destruct h as [|d h]; simpl.
    + split; [done | by intros (b & ?)].
    + destruct (Ascii.ascii_dec c d) as [-> | Hne].
      * rewrite IH. split; intros (b & Hb); exists b; rewrite append_String in *; congruence.
      * split; [done|]. intros (b & Hb). rewrite append_String in Hb. congruence.
Qed.

Lemma str_contains_nil (n : string) : str_contains n "" = String.prefix n "".
Proof. unfold str_contains. by destruct (String.prefix n ""). Qed.

Lemma str_contains_cons (n : string) (c : ascii) (h : string) :
  str_contains n (String c h) = String.prefix n (String c h) || str_contains n h.
Proof.
  change (str_contains n (String c h))
    with (if String.prefix n (String c h) then true else str_contains n h).
  by destruct (String.prefix n (String c h)).
Qed.

(** [str_contains] is the substring test. *)
Lemma str_contains_spec (n h : string) :
  str_contains n h = true ↔ ∃ a b, h = a +:+ (n +:+ b).
Proof.
  induction h as [|c h IH].
  - rewrite str_contains_nil, prefix_spec. split.
    + intros (b & Hb). exists "", b. exact Hb.
    + intros (a & b & Hab). destruct a; [exists b; exact Hab | done].
  - rewrite str_contains_cons, orb_true_iff, prefix_spec, IH. split.
    + intros [(b & Hb) | (a & b & ->)].
      * exists "", b. exact Hb.
      * exists (String c a), b. reflexivity.
    + intros (a & b & Hab). destruct a as [|d a].
      * left. exists b. exact Hab.
      * right. rewrite append_String in Hab. injection Hab as -> ->. by exists a, b.
Qed.


Lemma for_each_app {A S : Type} (body : S → A → result S) (xs ys : list A) (s : S) :
  for_each body (xs ++ ys) s = (let* s' := for_each body xs s in for_each body ys s').
Proof.
  revert s; induction xs as [|x xs IH]; intros s; simpl; [done|].
  destruct (body s x) as [s'|e]; simpl; [apply IH | done].
Qed.

(** A loop whose turns succeed or fail whatever the state returns exactly
    when every turn can succeed. *)
Lemma for_each_returns {A S : Type} (body : S → A → result S) (P : A → Prop)
    (xs : list A) (s : S) :
  (∀ s x, x ∈ xs → (∃ s', body s x = Ok s') ↔ P x) →
  (∃ s', for_each body xs s = Ok s') ↔ ∀ x, x ∈ xs → P x.
Proof.
  revert s. induction xs as [|x xs IH]; intros s Hbody; simpl.
  - split; [by intros _ x ?%elem_of_nil | eauto].
  - assert (∀ s x', x' ∈ xs → (∃ s', body s x' = Ok s') ↔ P x') as Hrest.
    { intros s0 x' Hx'. apply Hbody. by right. }
    split.
    + intros (s' & Hs'). apply bind_Ok in Hs' as (s1 & H1 & Hs').
      intros x' [-> | Hx']%elem_of_cons.
      * apply (Hbody s); [left | eauto].
      * eapply IH; eauto.
    + intros Hall.
      destruct (proj2 (Hbody s x (list_elem_of_here x xs))) as (s1 & H1).
      { apply Hall. left. }
      rewrite H1. simpl. apply IH; [done|]. intros x' Hx'. apply Hall. by right.
Qed.

Lemma for_each_raises {A S : Type} (body : S → A → result S) (xs : list A) (s : S)
    (e : exn) :
  for_each body xs s = Raise e → ∃ s' x, x ∈ xs ∧ body s' x = Raise e.
Proof.
  revert s. induction xs as [|x xs IH]; intros s; simpl; [done|].
  destruct (body s x) as [s1|e1] eqn:H1; simpl.
  - intros (s' & x' & Hx' & Hb)%IH. exists s', x'. split; [by right | done].
  - intros [= ->]. exists s, x. split; [left | done].
Qed.

Lemma first_strip_offset_spec (tags : list Tag) :
  match first_strip_offset tags with
  | Ok (Some v) =>
      ∃ pre tag post, tags = (pre ++ tag :: post)%list ∧ Forall (λ t, ¬ is_strip_offset_tag t) pre ∧
                      is_strip_offset_tag tag ∧ tag_value tag !! 0%nat = Some v
  | Ok None => Forall (λ t, ¬ is_strip_offset_tag t) tags
  | Raise e =>
      e = IndexError ∧
      ∃ pre tag post, tags = (pre ++ tag :: post)%list ∧ Forall (λ t, ¬ is_strip_offset_tag t) pre ∧
                      is_strip_offset_tag tag ∧ tag_value tag = []
  end.
Proof.
  induction tags as [|t tags IH]; simpl; [done|].
  destruct (str_contains "StripOffset" (tag_name t)) eqn:Hc.
  - apply str_contains_spec in Hc. unfold getitem.
    destruct (tag_value t) as [|v vs] eqn:Hv; simpl.
    + split; [done|]. by exists [], t, tags.
    + exists [], t, tags. rewrite Hv. by repeat split.
  - assert (¬ is_strip_offset_tag t) as Hno.
    { intros Hc'%str_contains_spec. congruence. }
    destruct (first_strip_offset tags) as [[v|]|e].
    + destruct IH as (pre & tag & post & -> & Hpre & Htag & Hv).
      exists (t :: pre), tag, post. repeat split; [by constructor | done..].
    + by constructor.
    + destruct IH as (-> & pre & tag & post & -> & Hpre & Htag & Hv).
      split; [done|]. exists (t :: pre), tag, post. repeat split; [by constructor | done..].
Qed.

(** X5: [_get_byte_offset] on a page with tags [tags]: it returns the
    first value of the first tag whose name holds ['StripOffset'], [None]
    when no tag has such a name, and raises [IndexError] only when that
    first tag has no value. *)
Theorem get_byte_offset_first_tag (tf : TiffFile) (page : nat) (tags : list Tag) :
  pages tf !! page = Some tags →
  (∀ v, _get_byte_offset tf page = Ok (Some v) ↔
        ∃ pre tag post, tags = (pre ++ tag :: post)%list ∧
                        Forall (λ t, ¬ is_strip_offset_tag t) pre ∧
                        is_strip_offset_tag tag ∧ tag_value tag !! 0%nat = Some v) ∧
  (_get_byte_offset tf page = Ok None ↔ Forall (λ t, ¬ is_strip_offset_tag t) tags) ∧
  (∀ e, _get_byte_offset tf page = Raise e ↔
        e = IndexError ∧
        ∃ pre tag post, tags = (pre ++ tag :: post)%list ∧
                        Forall (λ t, ¬ is_strip_offset_tag t) pre ∧
                        is_strip_offset_tag tag ∧ tag_value tag = []).
Proof.
  intros Hpage. unfold _get_byte_offset, getitem. rewrite Hpage. simpl.
  pose proof (first_strip_offset_spec tags) as Hspec.
  assert (∀ pre tag post pre' tag' post',
            tags = (pre ++ tag :: post)%list → tags = (pre' ++ tag' :: post')%list →
            Forall (λ t, ¬ is_strip_offset_tag t) pre → is_strip_offset_tag tag →
            Forall (λ t, ¬ is_strip_offset_tag t) pre' → is_strip_offset_tag tag' →
            tag = tag') as Hsame.
  { intros pre tag post pre' tag' post' -> Heq Hpre Htag Hpre' Htag'.
    clear Hspec Hpage. revert pre' Heq Hpre'.
    induction pre as [|t pre IH]; intros [|t' pre'] Heq Hpre'; simpl in Heq.
    - congruence.
    - injection Heq as -> _. by apply Forall_cons in Hpre' as (? & _).
    - injection Heq as <- _. by apply Forall_cons in Hpre as (? & _).
    - injection Heq as <- Heq. apply Forall_cons in Hpre as (_ & Hpre).
      apply Forall_cons in Hpre' as (_ & Hpre'). by eapply IH. }
  assert (∀ pre tag post, tags = (pre ++ tag :: post)%list → is_strip_offset_tag tag →
            ¬ Forall (λ t, ¬ is_strip_offset_tag t) tags) as Hnot.
  { intros pre tag post -> Htag Hall. apply Forall_app in Hall as (_ & Hall).
    by apply Forall_cons in Hall as (? & _). }
  destruct (first_strip_offset tags) as [[v|]|e].
  - destruct Hspec as (pre & tag & post & Htags & Hpre & Htag & Hv).
    split; [|split].
    + intros v'. split.
      * intros [= <-]. by exists pre, tag, post.
      * intros (pre' & tag' & post' & Htags' & Hpre' & Htag' & Hv').
        rewrite <- (Hsame _ _ _ _ _ _ Htags Htags' Hpre Htag Hpre' Htag') in Hv'.
        congruence.
    + split; [done|]. intros Hall. exfalso. by eapply Hnot.
    + intros e. split; [done|].
      intros (_ & pre' & tag' & post' & Htags' & Hpre' & Htag' & Hv').
      rewrite <- (Hsame _ _ _ _ _ _ Htags Htags' Hpre Htag Hpre' Htag') in Hv'.
      rewrite Hv' in Hv. done.
  - split; [|split].
    + intros v. split; [done|].
      intros (pre & tag & post & Htags & _ & Htag & _). exfalso. by eapply Hnot.
    + done.
    + intros e. split; [done|].
      intros (_ & pre & tag & post & Htags & _ & Htag & _). exfalso. by eapply Hnot.
  - destruct Hspec as (-> & pre & tag & post & Htags & Hpre & Htag & Hv).
    split; [|split].
    + intros v. split; [done|].
      intros (pre' & tag' & post' & Htags' & Hpre' & Htag' & Hv').
      rewrite <- (Hsame _ _ _ _ _ _ Htags Htags' Hpre Htag Hpre' Htag') in Hv'.
      rewrite Hv in Hv'. done.
    + split; [done|]. intros Hall. exfalso. by eapply Hnot.
    + intros e. split.
      * intros [= <-]. split; [done|]. by exists pre, tag, post.
      * by intros (-> & _).
Qed.


Lemma get_byte_offset_raises (tf : TiffFile) (page : nat) (e : exn) :
  _get_byte_offset tf page = Raise e → e = IndexError.
Proof.
  unfold _get_byte_offset, getitem. destruct (pages tf !! page) as [tags|]; simpl.
  - pose proof (first_strip_offset_spec tags) as Hspec.
    destruct (first_strip_offset tags) as [o|e']; [done|].
    destruct Hspec as (-> & _). congruence.
  - congruence.
Qed.

Lemma page_record_functional (tf : TiffFile) (page : nat) (k k' : coord) (e e' : entry) :
  page_record tf page k e → page_record tf page k' e' → k = k' ∧ e = e'.
Proof.
  intros (p & t & c & z & off & Hp & Ht & Hc & Hz & Hoff & -> & ->)
         (p' & t' & c' & z' & off' & Hp' & Ht' & Hc' & Hz' & Hoff' & -> & ->).
  split; congruence.
Qed.

Lemma index_page_returns_iff (tf : TiffFile) (r : Reader) (page : nat) :
  (∃ r', index_page tf r page = Ok r') ↔ ∃ k e, page_record tf page k e.
Proof.
  split.
  - intros (r' & (k & e & Hrec & _)%index_page_Ok). eauto.
  - intros (k & e & p & t & c & z & off & Hp & Ht & Hc & Hz & Hoff & _).
    unfold index_page. rewrite <- getitem_Ok in Hp, Ht, Hc, Hz.
    rewrite Hp, Ht, Hc, Hz, Hoff. simpl. eauto.
Qed.

Lemma index_page_raises (tf : TiffFile) (r : Reader) (page : nat) (e : exn) :
  index_page tf r page = Raise e → e = IndexError.
Proof.
  unfold index_page, getitem.
  destruct (Position (index_map tf) !! page); simpl; [|congruence].
  destruct (Frame (index_map tf) !! page); simpl; [|congruence].
  destruct (Channel (index_map tf) !! page); simpl; [|congruence].
  destruct (Slice (index_map tf) !! page); simpl; [|congruence].
  destruct (_get_byte_offset tf page) as [off|e'] eqn:Hoff; simpl; [done|].
  intros [= <-]. by eapply get_byte_offset_raises.
Qed.

(** X6: the index is built exactly when every page that the [Channel]
    array of a file counts has its four coordinates and a readable byte
    offset; otherwise the build raises [IndexError]. *)
Theorem build_returns_iff (files : list TiffFile) (s : Summary) :
  ((∃ r, build files s = Ok r) ↔
   ∀ tf page, tf ∈ files → (page < length (Channel (index_map tf)))%nat →
              ∃ k e, page_record tf page k e) ∧
  (∀ e, build files s = Raise e → e = IndexError).
Proof.
  unfold build, _gather_index_maps. split.
  - rewrite (for_each_returns index_file
               (λ tf, ∀ page, (page < length (Channel (index_map tf)))%nat →
                              ∃ k e, page_record tf page k e));
      [split; intros Hall tf; [intros page Hin | intros Hin page]; by apply Hall|].
    intros r tf _. unfold index_file.
    rewrite (for_each_returns (index_page tf) (λ page, ∃ k e, page_record tf page k e)).
    + split; intros Hall page Hpage; apply Hall.
      * apply elem_of_seq. lia.
      * apply elem_of_seq in Hpage. lia.
    + intros r0 page _. apply index_page_returns_iff.
  - intros e (r & tf & _ & Hfile)%for_each_raises.
    apply for_each_raises in Hfile as (r' & page & _ & Hpage).
    by eapply index_page_raises.
Qed.

Lemma index_pages_untouched tf pgs r r' k :
  for_each (index_page tf) pgs r = Ok r' →
  (∀ page e, page ∈ pgs → ¬ page_record tf page k e) →
  coord_map r' !! k = coord_map r !! k.
Proof.
  revert r. induction pgs as [|pg pgs IH]; intros r H Hno; simpl in H.
  - by injection H as <-.
  - apply bind_Ok in H as (r1 & H1 & H).
    rewrite (IH _ H) by (intros page e Hin; apply Hno; by right).
    apply index_page_Ok in H1 as (k1 & e1 & Hrec & ->).
    apply lookup_insert_ne. intros ->. eapply Hno; [left | done].
Qed.

Lemma gather_untouched files r r' k :
  _gather_index_maps files r = Ok r' →
  (∀ tf page e, tf ∈ files → ¬ page_record tf page k e) →
  coord_map r' !! k = coord_map r !! k.
Proof.
  unfold _gather_index_maps.
  revert r. induction files as [|tf files IH]; intros r H Hno; simpl in H.
  - by injection H as <-.
  - apply bind_Ok in H as (r1 & H1 & H).
    rewrite (IH _ H) by (intros tf' page e Hin; apply Hno; by right).
    apply (index_pages_untouched _ _ _ _ _ H1).
    intros page e _. apply Hno. left.
Qed.

(** X7: when several pages record the same coordinate, the look-up
    returns the entry of the last of them, in the order of the files and,
    within a file, of the pages. *)
Theorem lookup_last_page_wins (before after : list TiffFile) (tf : TiffFile)
    (s : Summary) (r : Reader) (page : nat) (k : coord) (e : entry) :
  build (before ++ tf :: after) s = Ok r →
  page_record tf page k e →
  (∀ page' e', (page < page')%nat → ¬ page_record tf page' k e') →
  (∀ tf' page' e', tf' ∈ after → ¬ page_record tf' page' k e') →
  lookup_coord r k = Ok e.
Proof.
  unfold build, _gather_index_maps. intros Hbuild Hrec Hlater Hafter.
  rewrite for_each_app in Hbuild. apply bind_Ok in Hbuild as (r1 & _ & Hbuild).
  simpl in Hbuild. apply bind_Ok in Hbuild as (r2 & Hfile & Hrest).
  unfold lookup_coord.
  rewrite (gather_untouched _ _ _ _ Hrest Hafter).
  unfold index_file in Hfile.
  pose proof (page_record_in_range _ _ _ _ Hrec) as Hrange.
  apply elem_of_seq in Hrange as (_ & Hrange). simpl in Hrange.
  set (n := length (Channel (index_map tf))) in *.
  assert (seq 0 n = seq 0 page ++ page :: seq (S page) (n - S page))%list as Hsplit.
  { replace n with (page + S (n - S page))%nat at 1 by lia. by rewrite seq_app. }
  rewrite Hsplit in Hfile.
  rewrite for_each_app in Hfile. apply bind_Ok in Hfile as (r3 & _ & Hfile).
  simpl in Hfile. apply bind_Ok in Hfile as (r4 & Hpage & Hfile).
  rewrite (index_pages_untouched _ _ _ _ _ Hfile).
  2:{ intros page' e' Hin. apply Hlater. apply elem_of_seq in Hin. lia. }
  apply index_page_Ok in Hpage as (k' & e' & Hrec' & ->).
  destruct (page_record_functional _ _ _ _ _ _ Hrec Hrec') as (<- & <-).
  by rewrite lookup_insert_eq.
Qed.

End PageDirectories.

(** ** Extents of the data set and position arrays *)

Section Assemblies.
Import MultipageTiff.

Lemma for_each_invariant {A S : Type} (body : S → A → result S) (I : S → Prop)
    (xs : list A) (s s' : S) :
  (∀ s x s', x ∈ xs → I s → body s x = Ok s' → I s') →
  I s → for_each body xs s = Ok s' → I s'.
Proof.
  revert s. induction xs as [|x xs IH]; intros s Hstep Hs; simpl.
  - by intros [= <-].
  - intros (s1 & H1 & Hrest)%bind_Ok. apply (IH s1); [|by eapply Hstep; [left|..]|done].
    intros s0 x' s0' Hx'. apply Hstep. by right.
Qed.

Lemma index_page_step tf r page r' :
  index_page tf r page = Ok r' →
  ∃ p t c z e,
    coord_map r' = <[(p, t, c, z) := e]> (coord_map r) ∧
    positions r' = Z.max p (positions r) ∧
    frames r' = Z.max t (frames r) ∧
    channels r' = Z.max c (channels r).
Proof.
  unfold index_page. intros H.
  apply bind_Ok in H as (p & Hp & H). apply bind_Ok in H as (t & Ht & H).
  apply bind_Ok in H as (c & Hc & H). apply bind_Ok in H as (z & Hz & H).
  apply bind_Ok in H as (off & Hoff & H).
  injection H as <-. simpl. exists p, t, c, z, (filename tf, page, off).
  by rewrite !gtb_max.
Qed.

Lemma index_page_extents_bound tf r page r' p0 t0 c0 :
  extents_bound p0 t0 c0 r → index_page tf r page = Ok r' → extents_bound p0 t0 c0 r'.
Proof.
  intros (Hkeys & Hp0 & Ht0 & Hc0) (p & t & c & z & e & Hmap & Hp & Ht & Hc)%index_page_step.
  split; [|lia].
  intros p' t' c' z' Hin. rewrite Hmap, lookup_insert in Hin. case_decide as Hk.
  - injection Hk as <- <- <- <-. lia.
  - specialize (Hkeys _ _ _ _ Hin). lia.
Qed.

(** X8: on a built index the position, frame and channel extents are at
    least every position, frame and channel coordinate of the index, and
    at least 0 and the frame and channel counts of the summary. *)
Theorem build_extents_bound (files : list TiffFile) (s : Summary) (r : Reader) :
  build files s = Ok r →
  (∀ p t c z, is_Some (coord_map r !! (p, t, c, z)) →
              p ≤ positions r ∧ t ≤ frames r ∧ c ≤ channels r) ∧
  0 ≤ positions r ∧ Frames s ≤ frames r ∧ Channels s ≤ channels r.
Proof.
  unfold build, _gather_index_maps. intros Hbuild.
  apply (for_each_invariant index_file (extents_bound 0 (Frames s) (Channels s))
           files (init_reader s) r); [| |done].
  - intros r0 tf r1 _ Hr0 Hfile. unfold index_file in Hfile.
    apply (for_each_invariant (index_page tf) (extents_bound 0 (Frames s) (Channels s))
             _ r0 r1 (λ r2 page r3 _ Hr2 Hpage,
                        index_page_extents_bound tf r2 page r3 _ _ _ Hr2 Hpage) Hr0 Hfile).
  - split; [|simpl; lia]. intros p t c z [e He]. simpl in He.
    by rewrite lookup_empty in He.
Qed.

Lemma elem_of_range (n x : Z) : x ∈ range n ↔ 0 ≤ x < n.
Proof.
  unfold range. rewrite list_elem_of_fmap. split.
  - intros (i & -> & Hi%elem_of_seq). lia.
  - intros Hx. exists (Z.to_nat x). split; [lia|]. apply elem_of_seq. lia.
Qed.

Lemma NoDup_range (n : Z) : NoDup (range n).
Proof.
  unfold range. apply NoDup_fmap_2_strong; [|apply NoDup_seq].
  intros i j _ _ Hij. lia.
Qed.

Lemma elem_of_cells (T C Z0 t c z : Z) :
  (t, c, z) ∈ cells T C Z0 ↔ 0 ≤ t < T ∧ 0 ≤ c < C ∧ 0 ≤ z < Z0.
Proof.
  unfold cells. rewrite list_elem_of_bind. split.
  - intros (t' & Hin & Ht'%elem_of_range).
    apply list_elem_of_bind in Hin as (c' & Hin & Hc'%elem_of_range).
    apply list_elem_of_bind in Hin as (z' & Hin & Hz'%elem_of_range).
    apply list_elem_of_singleton in Hin as [= -> -> ->]. done.
  - intros (Ht & Hc & Hz). exists t. split; [|by apply elem_of_range].
    apply list_elem_of_bind. exists c. split; [|by apply elem_of_range].
    apply list_elem_of_bind. exists z. split; [|by apply elem_of_range].
    by apply list_elem_of_singleton.
Qed.

Lemma NoDup_cells (T C Z0 : Z) : NoDup (cells T C Z0).
Proof.
  unfold cells. apply NoDup_bind; [| |apply NoDup_range].
  - intros t1 t2 [[t c] z] _ _ H1 H2.
    apply list_elem_of_bind in H1 as (c1 & H1 & _).
    apply list_elem_of_bind in H1 as (z1 & H1 & _).
    apply list_elem_of_bind in H2 as (c2 & H2 & _).
    apply list_elem_of_bind in H2 as (z2 & H2 & _).
    apply list_elem_of_singleton in H1, H2. congruence.
  - intros t _. apply NoDup_bind; [| |apply NoDup_range].
    + intros c1 c2 [[t' c] z] _ _ H1 H2.
      apply list_elem_of_bind in H1 as (z1 & H1 & _).
      apply list_elem_of_bind in H2 as (z2 & H2 & _).
      apply list_elem_of_singleton in H1, H2. congruence.
    + intros c _. apply NoDup_bind; [| |apply NoDup_range].
      * intros z1 z2 [[t' c'] z] _ _ H1 H2.
        apply list_elem_of_singleton in H1, H2. congruence.
      * intros z _. apply NoDup_singleton.
Qed.

End Assemblies.

(** ** Position arrays and their cache *)

Section PositionArrays.
Import MultipageTiff.
Context {plane : Type}.
Variable memmap : string → option Z → result plane.

(** What [fill_planes] leaves: the cells it got through, all fetched, each
    holding its plane; the other cells as they were. *)
Lemma fill_planes_spec (pos : Z) (cs : list (Z * Z * Z)) (st : ReaderState plane)
    (a0 : position_array plane) :
  position_arrays st !! pos = Some a0 →
  ∃ written a' r,
    fill_planes memmap pos cs st
      = (mkReaderState (reader st) (<[pos := a']> (position_arrays st)), r) ∧
    pa_shape a' = pa_shape a0 ∧
    (∀ t c z pl, pa_planes a' !! (t, c, z) = Some pl ↔
                 ((t, c, z) ∈ written ∧ _get_image memmap (reader st) pos t c z = Ok pl) ∨
                 (¬ (t, c, z) ∈ written ∧ pa_planes a0 !! (t, c, z) = Some pl)) ∧
    (∀ t c z, (t, c, z) ∈ written → ∃ pl, _get_image memmap (reader st) pos t c z = Ok pl) ∧
    match r with
    | Ok _ => written = cs
    | Raise e => ∃ t c z rest, cs = (written ++ (t, c, z) :: rest)%list ∧
                               _get_image memmap (reader st) pos t c z = Raise e
    end.
Proof.
  revert st a0. induction cs as [|[[t c] z] cs IH]; intros st a0 Hpos; simpl.
  - exists [], a0, (Ok tt). rewrite insert_id by done. destruct st; simpl.
    split; [done|]. split; [done|]. split; [|split; [|done]].
    + intros t c z pl. split.
      * intros H. right. split; [apply not_elem_of_nil | done].
      * intros [[Hin _] | [_ H]]; [by apply elem_of_nil in Hin | done].
    + intros t c z Hin. by apply elem_of_nil in Hin.
  - destruct (_get_image memmap (reader st) pos t c z) as [pl0|e] eqn:Himg.
    + set (a1 := mkPositionArray (pa_shape a0) (<[(t, c, z) := pl0]> (pa_planes a0))).
      assert (write_plane st pos (t, c, z) pl0
              = mkReaderState (reader st) (<[pos := a1]> (position_arrays st))) as Hw.
      { unfold write_plane. by rewrite Hpos. }
      rewrite Hw.
      destruct (IH (mkReaderState (reader st) (<[pos := a1]> (position_arrays st))) a1)
        as (written & a' & r & Hfill & Hshape & Hplanes & Hall & Hr).
      { simpl. apply lookup_insert_eq. }
      simpl in *. rewrite insert_insert_eq in Hfill.
      exists ((t, c, z) :: written), a', r. split; [done|]. split; [done|].
      split; [|split].
      * intros t' c' z' pl. rewrite Hplanes. rewrite elem_of_cons.
        destruct (decide ((t', c', z') = (t, c, z))) as [Heq | Hne].
        -- injection Heq as -> -> ->. rewrite lookup_insert_eq. rewrite Himg.
           split.
           ++ intros [[Hin Hp] | [Hnin Hp]]; left; (split; [by left|]); congruence.
           ++ intros [[_ Hp] | [Hn _]]; [|exfalso; apply Hn; by left].
              destruct (decide ((t, c, z) ∈ written)); [left | right]; split;
                try done; congruence.
        -- rewrite lookup_insert_ne by done. tauto.
      * intros t' c' z' [[= -> -> ->] | Hin]%elem_of_cons; [eauto | by apply Hall].
      * destruct r as [u|e]; [by rewrite Hr|].
        destruct Hr as (t' & c' & z' & rest & -> & Hcell). by exists t', c', z', rest.
    + exists [], a0, (Raise e). rewrite insert_id by done. destruct st; simpl in *.
      split; [done|]. split; [done|]. split; [|split].
      * intros t' c' z' pl. split.
        -- intros H. right. split; [apply not_elem_of_nil | done].
        -- intros [[Hin _] | [_ H]]; [by apply elem_of_nil in Hin | done].
      * intros t' c' z' Hin. by apply elem_of_nil in Hin.
      * by exists t, c, z, cs.
Qed.


Lemma create_position_array_spec (st : ReaderState plane) (pos T C Z0 : Z) :
  _get_dimensions (reader st) pos = (T, C, Z0) →
  ∃ written a r,
    create_position_array memmap st pos
      = (mkReaderState (reader st) (<[pos := a]> (position_arrays st)), r) ∧
    pa_shape a = [T; C; Z0; height (reader st); width (reader st)] ∧
    (∀ t c z pl, pa_planes a !! (t, c, z) = Some pl ↔
                 (t, c, z) ∈ written ∧ _get_image memmap (reader st) pos t c z = Ok pl) ∧
    (∀ t c z, (t, c, z) ∈ written → ∃ pl, _get_image memmap (reader st) pos t c z = Ok pl) ∧
    match r with
    | Ok _ => written = cells T C Z0
    | Raise e => ∃ t c z rest, cells T C Z0 = (written ++ (t, c, z) :: rest)%list ∧
                               _get_image memmap (reader st) pos t c z = Raise e
    end.
Proof.
  intros Hdims. unfold create_position_array. rewrite Hdims.
  set (a0 := mkPositionArray [T; C; Z0; height (reader st); width (reader st)] ∅).
  destruct (fill_planes_spec pos (cells T C Z0)
              (mkReaderState (reader st) (<[pos := a0]> (position_arrays st))) a0)
    as (written & a & r & Hfill & Hshape & Hplanes & Hall & Hr).
  { simpl. apply lookup_insert_eq. }
  simpl in *. rewrite insert_insert_eq in Hfill.
  exists written, a, r. split; [done|]. split; [done|]. split; [|done].
  intros t c z pl. rewrite Hplanes, lookup_empty. split.
  - by intros [? | [_ ?]].
  - by left.
Qed.

(** X9: [get_zarr] on a position that is not cached yet, when every plane
    of the box that [_get_dimensions] spans can be fetched: it returns the
    new array, stores it under the position, gives it the shape
    (T, C, Z, height, width) and writes into each cell of the box, and into
    no other, the plane of [_get_image]. *)
Theorem get_zarr_assembles (st : ReaderState plane) (pos T C Z0 : Z) :
  position_arrays st !! pos = None →
  _get_dimensions (reader st) pos = (T, C, Z0) →
  (∀ t c z, 0 ≤ t < T → 0 ≤ c < C → 0 ≤ z < Z0 →
            ∃ pl, _get_image memmap (reader st) pos t c z = Ok pl) →
  ∃ a, get_zarr memmap st pos
         = (mkReaderState (reader st) (<[pos := a]> (position_arrays st)), Ok a) ∧
       pa_shape a = [T; C; Z0; height (reader st); width (reader st)] ∧
       ∀ t c z pl, pa_planes a !! (t, c, z) = Some pl ↔
                   0 ≤ t < T ∧ 0 ≤ c < C ∧ 0 ≤ z < Z0 ∧
                   _get_image memmap (reader st) pos t c z = Ok pl.
Proof.
  intros Hnone Hdims Hbox. unfold get_zarr. rewrite Hnone.
  destruct (create_position_array_spec st pos T C Z0 Hdims)
    as (written & a & r & -> & Hshape & Hplanes & _ & Hr).
  destruct r as [u|e].
  - subst written. simpl. rewrite lookup_insert_eq. exists a.
    split; [done|]. split; [done|].
    intros t c z pl. rewrite Hplanes, elem_of_cells. tauto.
  - destruct Hr as (t & c & z & rest & Hcells & Hfail).
    assert ((t, c, z) ∈ cells T C Z0) as Hin.
    { rewrite Hcells. apply elem_of_app. right. left. }
    apply elem_of_cells in Hin as (Ht & Hc & Hz).
    destruct (Hbox t c z Ht Hc Hz) as (pl & Hpl). congruence.
Qed.

(** X10: when [get_zarr] raises on a position that was not cached, the
    array it had allocated stays in the cache: the next [get_zarr] for that
    position returns it without an exception, although the cell whose plane
    could not be fetched, a cell of the box, was never written. *)
Theorem get_zarr_failure_is_cached (st st' : ReaderState plane) (pos T C Z0 : Z) (e : exn) :
  position_arrays st !! pos = None →
  _get_dimensions (reader st) pos = (T, C, Z0) →
  get_zarr memmap st pos = (st', Raise e) →
  ∃ a t c z,
    get_zarr memmap st' pos = (st', Ok a) ∧
    pa_shape a = [T; C; Z0; height (reader st); width (reader st)] ∧
    (0 ≤ t < T ∧ 0 ≤ c < C ∧ 0 ≤ z < Z0) ∧
    _get_image memmap (reader st) pos t c z = Raise e ∧
    pa_planes a !! (t, c, z) = None.
Proof.
  intros Hnone Hdims. unfold get_zarr at 1. rewrite Hnone.
  destruct (create_position_array_spec st pos T C Z0 Hdims)
    as (written & a & r & -> & Hshape & Hplanes & _ & Hr).
  destruct r as [u|e'].
  - simpl. rewrite lookup_insert_eq. congruence.
  - intros [= <- <-]. destruct Hr as (t & c & z & rest & Hcells & Hfail).
    exists a, t, c, z. split; [|split; [done|split; [|split; [done|]]]].
    + unfold get_zarr. simpl. rewrite lookup_insert_eq. simpl. by rewrite lookup_insert_eq.
    + apply elem_of_cells. rewrite Hcells. apply elem_of_app. right. left.
    + destruct (pa_planes a !! (t, c, z)) as [pl|] eqn:Hpl; [|done].
      apply Hplanes in Hpl as (_ & Hpl). congruence.
Qed.

End PositionArrays.

(** ** The properties above on sample data sets *)

Section ReaderSamples.
Import MultipageTiff.

Lemma get_byte_offset_first_tag_witness :
  (∀ v, _get_byte_offset ragged_file 0 = Ok (Some v) ↔
        ∃ pre tag post, sample_tags 8 = (pre ++ tag :: post)%list ∧
                        Forall (λ t, ¬ is_strip_offset_tag t) pre ∧
                        is_strip_offset_tag tag ∧ tag_value tag !! 0%nat = Some v) ∧
  (_get_byte_offset ragged_file 0 = Ok None ↔
   Forall (λ t, ¬ is_strip_offset_tag t) (sample_tags 8)) ∧
  (∀ e, _get_byte_offset ragged_file 0 = Raise e ↔
        e = IndexError ∧
        ∃ pre tag post, sample_tags 8 = (pre ++ tag :: post)%list ∧
                        Forall (λ t, ¬ is_strip_offset_tag t) pre ∧
                        is_strip_offset_tag tag ∧ tag_value tag = []).
Proof. apply (get_byte_offset_first_tag ragged_file 0 (sample_tags 8)). reflexivity. Defined.

Lemma lookup_last_page_wins_witness :
  lookup_coord (reader_of (build [twice_a; twice_b] ragged_summary)) (0, 0, 0, 0)
  = Ok ("b.ome.tif", 0%nat, Some 16).
Proof.
  apply (lookup_last_page_wins [twice_a] [] twice_b ragged_summary
           (reader_of (build [twice_a; twice_b] ragged_summary)) 0).
  - vm_compute. reflexivity.
  - exists 0, 0, 0, 0, (Some 16). repeat split; reflexivity.
  - intros page' e' Hlt (p & t & c & z & off & Hp & _).
    destruct page' as [|page']; [lia | discriminate Hp].
  - intros tf' page' e' Hin. by apply elem_of_nil in Hin.
Defined.

Lemma build_extents_bound_witness :
  (∀ p t c z,
     is_Some (coord_map (reader_of (build [ragged_file] ragged_summary)) !! (p, t, c, z)) →
     p ≤ positions (reader_of (build [ragged_file] ragged_summary)) ∧
     t ≤ frames (reader_of (build [ragged_file] ragged_summary)) ∧
     c ≤ channels (reader_of (build [ragged_file] ragged_summary))) ∧
  0 ≤ positions (reader_of (build [ragged_file] ragged_summary)) ∧
  Frames ragged_summary ≤ frames (reader_of (build [ragged_file] ragged_summary)) ∧
  Channels ragged_summary ≤ channels (reader_of (build [ragged_file] ragged_summary)).
Proof.
  apply (build_extents_bound [ragged_file] ragged_summary). vm_compute. reflexivity.
Defined.

Lemma get_zarr_assembles_witness :
  ∃ a, get_zarr sample_memmap (fresh_state [boxed_file]) 0
         = (mkReaderState (reader (fresh_state [boxed_file]))
              (<[0 := a]> (position_arrays (fresh_state [boxed_file]))), Ok a) ∧
       pa_shape a = [1; 1; 1; height (reader (fresh_state [boxed_file]));
                     width (reader (fresh_state [boxed_file]))] ∧
       ∀ t c z pl, pa_planes a !! (t, c, z) = Some pl ↔
                   0 ≤ t < 1 ∧ 0 ≤ c < 1 ∧ 0 ≤ z < 1 ∧
                   _get_image sample_memmap (reader (fresh_state [boxed_file])) 0 t c z = Ok pl.
Proof.
  apply (get_zarr_assembles sample_memmap (fresh_state [boxed_file]) 0 1 1 1).
  - reflexivity.
  - vm_compute. reflexivity.
  - intros t c z Ht Hc Hz. assert (t = 0) as -> by lia. assert (c = 0) as -> by lia.
    assert (z = 0) as -> by lia. exists ("boxed.ome.tif", 8). vm_compute. reflexivity.
Defined.

Lemma get_zarr_failure_is_cached_witness :
  ∃ a t c z,
    get_zarr sample_memmap (after_get_zarr (fresh_state [holed_file]) 0) 0
    = (after_get_zarr (fresh_state [holed_file]) 0, Ok a) ∧
    pa_shape a = [1; 1; 2; height (reader (fresh_state [holed_file]));
                  width (reader (fresh_state [holed_file]))] ∧
    (0 ≤ t < 1 ∧ 0 ≤ c < 1 ∧ 0 ≤ z < 2) ∧
    _get_image sample_memmap (reader (fresh_state [holed_file])) 0 t c z = Raise KeyError ∧
    pa_planes a !! (t, c, z) = None.
Proof.
  apply (get_zarr_failure_is_cached sample_memmap (fresh_state [holed_file])
           (after_get_zarr (fresh_state [holed_file]) 0) 0 1 1 2 KeyError).
  - reflexivity.
  - vm_compute. reflexivity.
  - vm_compute. reflexivity.
Defined.

End ReaderSamples.

(** ** Opening a data set *)

Section ReaderInit.
Import MultipageTiff.

Lemma index_page_positions_attained tf r page r' :
  positions_attained r → index_page tf r page = Ok r' → positions_attained r'.
Proof.
  intros Hr (p & t & c & z & e & Hmap & Hp & _)%index_page_step.
  unfold positions_attained. rewrite Hmap, Hp.
  destruct (Z.max_spec p (positions r)) as [[Hlt ->] | [Hle ->]].
  - destruct Hr as [H0 | (t' & c' & z' & Hin)]; [by left | right].
    exists t', c', z'. rewrite lookup_insert. case_decide; [eauto | done].
  - right. exists t, c, z. rewrite lookup_insert_eq. eauto.
Qed.

(** X11: for a data set whose planes lie at the positions 0 .. n-1, n at
    least 1, [get_num_positions] returns n - 1, the largest position
    index. *)
Theorem get_num_positions_is_largest_index (files : list TiffFile) (s : Summary)
    (r : Reader) (n : Z) :
  build files s = Ok r →
  0 < n →
  (∀ p, (∃ t c z, is_Some (coord_map r !! (p, t, c, z))) ↔ 0 ≤ p < n) →
  get_num_positions r = n - 1.
Proof.
  intros Hbuild Hn Hkeys. unfold get_num_positions.
  assert (extents_bound 0 (Frames s) (Channels s) r ∧ positions_attained r) as [Hb Ha].
  { unfold build, _gather_index_maps in Hbuild.
    apply (for_each_invariant index_file
             (λ r, extents_bound 0 (Frames s) (Channels s) r ∧ positions_attained r)
             files (init_reader s) r); [| |done].
    - intros r0 tf r1 _ Hr0 Hfile. unfold index_file in Hfile.
      apply (for_each_invariant (index_page tf)
               (λ r, extents_bound 0 (Frames s) (Channels s) r ∧ positions_attained r)
               (seq 0 (length (Channel (index_map tf)))) r0 r1); [|done|done].
      intros r2 page r3 _ [Hb2 Ha2] Hpage. split.
      + by eapply index_page_extents_bound.
      + by eapply index_page_positions_attained.
    - split; [|by left]. split; [|simpl; lia]. intros p t c z [e He]. simpl in He.
      by rewrite lookup_empty in He. }
  destruct Hb as (Hle & _).
  assert (n - 1 ≤ positions r) as Hlow.
  { destruct (proj2 (Hkeys (n - 1))) as (t & c & z & Hin); [lia|].
    by apply Hle in Hin as (? & _). }
  destruct Ha as [H0 | (t & c & z & Hin)]; [lia|].
  assert (0 ≤ positions r < n) by (apply Hkeys; eauto). lia.
Qed.

Context {plane : Type}.
Variable memmap : string → option Z → result plane.

Lemma create_position_array_cache (st st' : ReaderState plane) (pos : Z) (u : result unit) :
  create_position_array memmap st pos = (st', u) →
  reader st' = reader st ∧
  ∀ p, is_Some (position_arrays st' !! p) ↔ p = pos ∨ is_Some (position_arrays st !! p).
Proof.
  destruct (_get_dimensions (reader st) pos) as [[T C] Z0] eqn:Hdims.
  destruct (create_position_array_spec memmap st pos T C Z0 Hdims)
    as (written & a & r & -> & _).
  intros [= <- <-]. split; [done|]. intros p. simpl.
  rewrite lookup_insert. case_decide as Hp.
  - split; [by left | eauto].
  - split; [by right | by intros [? | ?]].
Qed.

Lemma extract_positions_cache (ps : list Z) (st st' : ReaderState plane) (u : unit) :
  extract_positions memmap ps st = (st', Ok u) →
  reader st' = reader st ∧
  ∀ p, is_Some (position_arrays st' !! p) ↔ p ∈ ps ∨ is_Some (position_arrays st !! p).
Proof.
  revert st. induction ps as [|i ps IH]; intros st; simpl.
  - intros [= <- _]. split; [done|]. intros p. rewrite elem_of_nil. tauto.
  - destruct (create_position_array memmap st i) as [st1 [u1|e1]] eqn:Hc; [|done].
    apply create_position_array_cache in Hc as (Hr1 & Hc).
    intros (Hr & Hps)%IH. split; [congruence|].
    intros p. rewrite Hps, Hc, elem_of_cons. tauto.
Qed.

(** X12: a reader opened with [extract_data] holds the arrays of the
    positions 0 .. [positions] - 1 and of no other: the position of index
    [positions], the largest of the data set, is not extracted. *)
Theorem init_extracts_below_positions (files : list TiffFile) (s : Summary)
    (st : ReaderState plane) :
  MicromanagerOmeTiffReader_init memmap files s true = Ok st →
  build files s = Ok (reader st) ∧
  (∀ p, is_Some (position_arrays st !! p) ↔ 0 ≤ p < positions (reader st)) ∧
  position_arrays st !! positions (reader st) = None.
Proof.
  unfold MicromanagerOmeTiffReader_init. destruct files as [|first files]; [done|].
  intros (pg & _ & H)%bind_Ok. apply bind_Ok in H as (r & Hbuild & H).
  destruct (extract_positions memmap (range (positions r)) (mkReaderState r ∅))
    as [st1 [u|e]] eqn:Hx; [|done].
  injection H as <-. apply extract_positions_cache in Hx as (Hr & Hps). simpl in *.
  rewrite Hr. split; [done|].
  assert (∀ p, is_Some (position_arrays st1 !! p) ↔ 0 ≤ p < positions r) as Hdom.
  { intros p. rewrite Hps, elem_of_range, lookup_empty. split; [|by left].
    intros [? | [? ?]]; done. }
  split; [done|].
  destruct (position_arrays st1 !! positions r) eqn:Hp; [|done].
  assert (0 ≤ positions r < positions r) by (apply Hdom; eauto). lia.
Qed.

End ReaderInit.

Section ReaderInitSamples.
Import MultipageTiff.

Lemma get_num_positions_is_largest_index_witness :
  get_num_positions (reader_of (build [ragged_file] ragged_summary)) = 2 - 1.
Proof.
  apply (get_num_positions_is_largest_index [ragged_file] ragged_summary).
  - vm_compute. reflexivity.
  - lia.
  - intros p. split.
    + intros (t & c & z & [e He]). apply elem_of_map_to_list in He.
      set (l := map_to_list _) in He. vm_compute in l. subst l.
      repeat (apply elem_of_cons in He as [Heq | He]; [injection Heq; intros; lia|]).
      by apply elem_of_nil in He.
    + intros Hp. assert (p = 0 ∨ p = 1) as [-> | ->] by lia;
        exists 0, 0, 0; vm_compute; eauto.
Defined.

Lemma init_extracts_below_positions_witness :
  build [ragged_file] ragged_summary
  = Ok (reader (opened_with_data [ragged_file])) ∧
  (∀ p, is_Some (position_arrays (opened_with_data [ragged_file]) !! p) ↔
        0 ≤ p < positions (reader (opened_with_data [ragged_file]))) ∧
  position_arrays (opened_with_data [ragged_file])
    !! positions (reader (opened_with_data [ragged_file])) = None.
Proof.
  apply (init_extracts_below_positions sample_memmap [ragged_file] ragged_summary).
  vm_compute. reflexivity.
Defined.

End ReaderInitSamples.

(** ** Writing images *)

Section Images.
Import Ngff.
Context `{Display, !Schema, Engine}.

(** X13: [_check_shape] on a node whose axes and channel names are set
    raises [ValueError], and nothing else, exactly when the rank of the
    data differs from the number of axes or the channel axis has an index
    i of at least 1 and the data have more than [len(channel_names)]
    entries along it; a channel axis at index 0 is not checked.  The store
    and the list objects stay as they are. *)
Theorem check_shape_raises_iff (self : Position) (data_shape : list Z) (w : World)
    (ax : list AxisMeta) (a : nat) (names : list string) :
  axes self = Some ax → _channel_names self = Some a → lists w !! a = Some names →
  ∃ w' r, _check_shape self data_shape w = (w', r) ∧
          lists w' = lists w ∧ disk w' = disk w ∧ groups w' = groups w ∧
          (r = Ok tt ∨ r = Raise ValueError) ∧
          (r = Raise ValueError ↔
           length data_shape ≠ length ax ∨
           ∃ i n, _find_axis self "channel" = Ok (Some (S i)) ∧
                  data_shape !! S i = Some n ∧ n > Z.of_nat (length names)).
Proof.
  intros Hax Hcn Hl. unfold _check_shape, _find_axis. rewrite Hax.
  case_bool_decide as Hlen; simpl.
  2:{ exists w, (Raise ValueError). unfold raise. repeat split; eauto. }
  unfold bindM at 1, read_list. rewrite Hcn, Hl.
  unfold bindM at 1, lift.
  destruct (list_find (λ a0, axis_type a0 = "channel") ax) as [[i x]|] eqn:Hfind; simpl.
  2:{ exists w, (Ok tt). unfold ret. repeat split; eauto; try done.
      intros [? | (i & n & [=] & _)]. done. }
  destruct i as [|i].
  { exists w, (Ok tt). unfold ret. repeat split; eauto; try done.
    intros [? | (i & n & [=] & _)]. done. }
  apply list_find_Some in Hfind as (Hi & _).
  apply lookup_lt_Some in Hi. rewrite <- Hlen in Hi.
  destruct (lookup_lt_is_Some_2 data_shape (S i) Hi) as (n & Hn).
  unfold bindM, getitem. rewrite Hn.
  destruct (Z.gtb_spec n (Z.of_nat (length names))) as [Hgt | Hle].
  { exists w, (Raise ValueError). unfold raise. repeat split; eauto.
    intros _. right. exists i, n. repeat split; [done | lia]. }
  assert (¬ (length data_shape ≠ length ax ∨
             ∃ i0 n0, Ok (Some (S i)) = Ok (Some (S i0)) ∧
                      data_shape !! S i0 = Some n0 ∧ n0 > Z.of_nat (length names))) as Hno.
  { intros [? | (i0 & n0 & [= <-] & Hn0 & Hgt)]; [done|]. rewrite Hn in Hn0.
    injection Hn0 as <-. lia. }
  destruct (Z.ltb_spec n (Z.of_nat (length names))).
  - eexists _, (Ok tt). unfold logging_warning. split; [reflexivity|]. simpl.
    repeat split; eauto; try done.
  - exists w, (Ok tt). unfold ret. repeat split; eauto; try done.
Qed.

(** X14: [append_channel] with [resize_arrays] on a position without a
    channel axis raises [KeyError] after the name has been appended to the
    list of channel names: the list keeps the name, and a second attempt
    with the same name raises [ValueError]. *)
Theorem append_channel_without_channel_axis (self : Position) (chan_name : string)
    (w : World) (a : nat) (names : list string) :
  _channel_names self = Some a → lists w !! a = Some names → chan_name ∉ names →
  _find_axis self "channel" = Ok None →
  append_channel self chan_name true w
  = (after_append w a names chan_name, Raise KeyError) ∧
  ∀ resize_arrays,
    append_channel self chan_name resize_arrays (after_append w a names chan_name)
    = (after_append w a names chan_name, Raise ValueError).
Proof.
  intros Hcn Hl Hnew Hax. split.
  - unfold append_channel, bindM at 1, read_list. rewrite Hcn, Hl.
    rewrite bool_decide_false by done.
    unfold bindM at 1, list_append. rewrite Hl.
    unfold bindM at 1, bindM at 1, lift. rewrite Hax. reflexivity.
  - intros resize_arrays. unfold append_channel, bindM, read_list. rewrite Hcn.
    unfold after_append at 1. simpl. rewrite lookup_insert_eq.
    rewrite bool_decide_true; [done|]. apply elem_of_app. right. left.
Qed.

(** X15: on a position that has no metadata yet, as one that was created
    and holds no image, [append_channel] with a new name never returns: it
    raises after the name has been appended to the list of channel names,
    with [AttributeError] and nothing else changed when the arrays are not
    to be resized. *)
Theorem append_channel_without_metadata (self : Position) (chan_name : string)
    (resize_arrays : bool) (w : World) (a : nat) (names : list string) :
  metadata self = None →
  _channel_names self = Some a → lists w !! a = Some names → chan_name ∉ names →
  ∃ w' e, append_channel self chan_name resize_arrays w = (w', Raise e) ∧
          lists w' = <[a := (names ++ [chan_name])%list]> (lists w) ∧
          (resize_arrays = false →
           e = AttributeError ∧ w' = after_append w a names chan_name).
Proof.
  intros Hmeta Hcn Hl Hnew.
  unfold append_channel, bindM at 1, read_list. rewrite Hcn, Hl.
  rewrite bool_decide_false by done.
  unfold bindM at 1, list_append. rewrite Hl. fold (after_append w a names chan_name).
  rewrite Hmeta. destruct resize_arrays.
  - unfold bindM at 1, bindM at 1, lift.
    destruct (_find_axis self "channel") as [[k|]|e]; simpl.
    + unfold bindM at 1, get_world.
      destruct (for_eachM (resize_image self k) _ _) as [w2 [[]|e]] eqn:Hloop.
      * apply resize_loop_frame in Hloop as (Hlists & _).
        exists w2, AttributeError. by repeat split.
      * apply resize_loop_frame in Hloop as (Hlists & _).
        exists w2, e. by repeat split.
    + unfold raise. eexists _, KeyError. by repeat split.
    + eexists _, e. by repeat split.
  - unfold bindM, ret, raise. eexists _, AttributeError. by repeat split.
Qed.


Lemma length_pad_shape (shape : list Z) (target : nat) :
  length (_pad_shape shape target) = (target `max` length shape)%nat.
Proof. unfold _pad_shape. rewrite length_app, length_replicate. lia. Qed.

(** X16: [create_image] of data of more than five dimensions, without the
    shape check, raises [ValueError] only after the array has been
    written: the store holds the new array, while the attribute documents
    and the list objects are as before. *)
Theorem create_image_rank_above_five (self : Position) (name : string)
    (data_shape : list Z) (transform : list TransformationMeta) (w : World) (g : GroupData) :
  groups w !! _group self = Some g →
  arrays g !! name = None → groups w !! join_path (_group self) name = None →
  (5 < length data_shape)%nat →
  ∃ w', create_image self name data_shape transform false w = (w', Raise ValueError) ∧
        arrays_at w' (_group self) name = Some data_shape ∧
        attrs <$> groups w' !! _group self = Some (attrs g) ∧
        lists w' = lists w.
Proof.
  intros Hg Hnew Hnogrp Hrank.
  unfold create_image, bindM at 1, ret, bindM at 1, group_array, bindM at 1, get_world.
  rewrite Hg, Hnew, Hnogrp.
  rewrite !bool_decide_false by (by intros [? ?]). rewrite !andb_false_r.
  rewrite bool_decide_false by (rewrite length_pad_shape; lia). simpl.
  eexists. split; [reflexivity|]. unfold arrays_at. simpl.
  rewrite lookup_insert_eq. simpl. by rewrite lookup_insert_eq.
Qed.


(** X17: when [_create_image_meta] returns, the first multiscale of the
    node lists the image: on a node without metadata it is the only
    dataset of the only multiscale; on a node with metadata the name is
    appended unless it is listed already, so that dataset paths that were
    distinct stay distinct, and the other multiscales and the omero part
    are kept.  The document of the new metadata is what the store holds. *)
Theorem create_image_meta_lists_dataset (self self' : Position) (name : string)
    (transform : list TransformationMeta) (w w' : World) :
  _create_image_meta self name transform w = (w', Ok self') →
  ∃ meta' ms0 rest g,
    metadata self' = Some meta' ∧ multiscales meta' = ms0 :: rest ∧
    name ∈ get_dataset_paths ms0 ∧
    (metadata self = None → get_dataset_paths ms0 = [name] ∧ rest = []) ∧
    (∀ meta ms rest0, metadata self = Some meta → multiscales meta = ms :: rest0 →
       rest = rest0 ∧ omero meta' = omero meta ∧
       get_dataset_paths ms0
       = (if bool_decide (name ∈ get_dataset_paths ms) then get_dataset_paths ms
          else get_dataset_paths ms ++ [name])%list ∧
       (NoDup (get_dataset_paths ms) → NoDup (get_dataset_paths ms0))) ∧
    groups w !! _group self = Some g ∧
    groups w'
    = <[_group self :=
          mkGroupData (foldl (λ m kv, <[kv.1 := kv.2]> m) (attrs g) (ImagesMeta_dict meta'))
                      (arrays g)]> (groups w).
Proof.
  unfold _create_image_meta, bindM at 1.
  set (tr := match transform with [] => [mkTransformationMeta "identity"] | _ => transform end).
  destruct (metadata self) as [meta|] eqn:Hmeta.
  - destruct (multiscales meta) as [|ms rest0] eqn:Hms; [done|].
    case_bool_decide as Hin; unfold ret at 1.
    + unfold bindM, Position_dump_meta. rewrite Hmeta. unfold zattrs_update.
      destruct (groups w !! _group self) as [g|] eqn:Hg; [|done].
      intros [= <- <-]. exists meta, ms, rest0, g.
      split; [done|]. split; [done|]. split; [done|]. split; [done|]. split; [|done].
      intros mt ms1 rest1 Hmt Heq. injection Hmt as <-. rewrite Hms in Heq.
      injection Heq as <- <-.
      rewrite bool_decide_true by done. done.
    + unfold bindM, Position_dump_meta. simpl. unfold zattrs_update.
      destruct (groups w !! _group self) as [g|] eqn:Hg; [|done].
      intros [= <- <-]. eexists _, _, rest0, g. simpl.
      split; [reflexivity|]. split; [reflexivity|].
      unfold get_dataset_paths. simpl. rewrite fmap_app. simpl.
      split; [apply elem_of_app; right; left|]. split; [done|]. split; [|done].
      intros mt ms1 rest1 Hmt Heq. injection Hmt as <-. rewrite Hms in Heq.
      injection Heq as <- <-.
      fold (get_dataset_paths ms). rewrite bool_decide_false by done.
      split; [done|]. split; [done|]. split; [done|].
      intros Hnd. apply NoDup_app. repeat split; [done| |apply NoDup_singleton].
      intros x Hx ->%list_elem_of_singleton. done.
  - destruct (axes self) as [ax|]; [|done].
    unfold bindM at 1, _omero_meta, bindM at 1, read_list.
    destruct (_channel_names self) as [a|]; [|done].
    destruct (lists w !! a) as [names|]; [|done].
    unfold ret at 1, ret at 1.
    unfold bindM, Position_dump_meta. simpl. unfold zattrs_update.
    destruct (groups w !! _group self) as [g|] eqn:Hg; [|done].
    intros [= <- <-]. eexists _, _, [], g. simpl.
    split; [reflexivity|]. split; [reflexivity|].
    unfold get_dataset_paths. simpl.
    split; [left|]. done.
Qed.

End Images.

(** ** Writing the documents *)

Section Documents.
Import Ngff.
Context `{Display, !Schema, Engine}.

(** [attrs.update(doc)]: the keys of [doc] take their last value in [doc],
    whatever they held; the other keys are kept. *)
Lemma update_lookup (doc : list (string * json)) (m : gmap string json) (k : string) :
  foldl (λ m kv, <[kv.1 := kv.2]> m) m doc !! k
  = (if bool_decide (k ∈ doc.*1)
     then foldl (λ (m : gmap string json) kv, <[kv.1 := kv.2]> m) ∅ doc !! k
     else m !! k).
Proof.
  revert m. induction doc as [|[k' v] doc IH]; intros m.
  - rewrite bool_decide_false by apply not_elem_of_nil. done.
  - cbn [foldl fmap list_fmap fst snd]. rewrite IH, (IH (<[k' := v]> ∅)).
    destruct (decide (k ∈ doc.*1)) as [Hin | Hout].
    + rewrite !bool_decide_true; [done | by right | done].
    + rewrite (bool_decide_false (k ∈ doc.*1)) by done.
      destruct (decide (k = k')) as [-> | Hne].
      * rewrite bool_decide_true by left. by rewrite !lookup_insert_eq.
      * rewrite bool_decide_false by (by intros [? | ?]%elem_of_cons).
        by rewrite lookup_insert_ne.
Qed.

Lemma update_idempotent (doc : list (string * json)) (m : gmap string json) :
  foldl (λ m kv, <[kv.1 := kv.2]> m) (foldl (λ m kv, <[kv.1 := kv.2]> m) m doc) doc
  = foldl (λ m kv, <[kv.1 := kv.2]> m) m doc.
Proof.
  apply map_eq. intros k. rewrite update_lookup, (update_lookup doc m).
  by case_bool_decide.
Qed.

(** X18: [Position.dump_meta] is idempotent: once it has written the
    document, writing it again leaves the store as it is. *)
Theorem Position_dump_meta_idempotent (self : Position) (w w' : World) :
  Position_dump_meta self w = (w', Ok tt) →
  Position_dump_meta self w' = (w', Ok tt).
Proof.
  unfold Position_dump_meta, zattrs_update, raise.
  destruct (metadata self) as [meta|]; [|done].
  destruct (groups w !! _group self) as [g|] eqn:Hg; [|done].
  intros [= <-]. simpl. rewrite lookup_insert_eq. simpl.
  rewrite update_idempotent, insert_insert_eq. done.
Qed.

(** A node built with [parse_meta=False] is a node on the group it was
    given, without metadata. *)
Lemma NGFFNode_init_fresh {Meta : Type} (parse : NGFFNode Meta → M (NGFFNode Meta))
    (group : string) (cn : option nat) (ax : option (list AxisMeta)) (version : string)
    (overwriting : bool) (w w' : World) (node : NGFFNode Meta) :
  NGFFNode_init parse group false cn ax version overwriting w = (w', Ok node) →
  _group node = group ∧ metadata node = None.
Proof.
  unfold NGFFNode_init, bindM, get_world, ret, raise.
  destruct (list_truthy w cn); simpl; [|done].
  intros [= <- <-]. by destruct ax as [[|? ?]|].
Qed.

(** X20: [Well.create_position], when it returns, has appended one image
    record to the metadata of the well, after those it held, whether or
    not a record of that path was there; the record holds the acquisition
    and the base name of the new group, the document of the new metadata
    is stored under ['well'], and the position is a node on the new group
    without metadata. *)
Theorem Well_create_position_records (self self' : Well) (name : string) (acq : Z)
    (pos : Position) (w w' : World) :
  Well_create_position self name acq w = (w', Ok (self', pos)) →
  ∃ meta' g',
    metadata self' = Some meta' ∧
    images meta'
    = (match metadata self with Some meta => images meta | None => [] end
       ++ [mkImageMeta acq (basename (join_path (_group self) name))])%list ∧
    _group self' = _group self ∧
    groups w' !! _group self = Some g' ∧
    attrs g' !! "well" = Some (WellGroupMeta_dict meta') ∧
    _group pos = join_path (_group self) name ∧
    is_Some (groups w' !! _group pos) ∧
    metadata pos = None.
Proof.
  unfold Well_create_position, bindM at 1.
  destruct (create_group _ _ _ w) as [w1 [pos_grp|e]] eqn:Hgrp; [|done].
  assert (pos_grp = join_path (_group self) name ∧
          groups w1 !! join_path (_group self) name = Some empty_group) as [-> Hnew].
  { revert Hgrp. unfold create_group.
    repeat match goal with |- context [if ?b then _ else _] => destruct b end;
      try done; intros [= <- <-]; simpl; by rewrite lookup_insert_eq. }
  unfold bindM at 1, Well_dump_meta. simpl. unfold zattrs_update.
  destruct (groups w1 !! _group self) as [g|] eqn:Hg; [|done].
  unfold bindM at 1, lift, _child_attrs. simpl.
  destruct (axes self) as [ax|]; [|done].
  destruct (_channel_names self) as [a|] eqn:Hcn; [|done].
  unfold bindM, Position_init. simpl.
  match goal with
  | |- context [NGFFNode_init ?p ?g0 ?b ?c ?x ?v ?o ?w0] =>
      destruct (NGFFNode_init p g0 b c x v o w0) as [w3 [node|e]] eqn:Hinit; [|done]
  end.
  pose proof Hinit as Hnode.
  apply NGFFNode_init_keeps_list in Hinit as (-> & _).
  intros [= <- <- <-]. simpl.
  eexists _, _. split; [reflexivity|]. split.
  { by destruct (metadata self). }
  split; [done|]. rewrite lookup_insert_eq. split; [reflexivity|]. simpl.
  rewrite lookup_insert_eq. split; [done|].
  apply NGFFNode_init_fresh in Hnode as (Hgrp' & Hmeta').
  rewrite Hgrp'. split; [done|]. split; [|done].
  rewrite lookup_insert. case_decide; [eauto | rewrite Hnew; eauto].
Qed.

End Documents.

(** ** Opening a store of another version *)

Section Versions.
Import Ngff.
Context `{Display, !Schema, Engine}.

(** X19: with a [version] other than ["0.4"], [open_ome_zarr] never
    returns a node: it raises the error of its mode checks or, past them,
    the [TypeError] of the warning it fails to build, and the store is
    neither created nor changed. *)
Theorem open_other_version_never_returns (layout mode : string) (cn : option nat)
    (ax : option (list AxisMeta)) (version : string) (kw : kwargs) (w : World) :
  version ≠ "0.4" →
  ∃ w' e, open_ome_zarr layout mode cn ax version kw w = (w', Raise e) ∧
          (e = FileNotFoundError ∨ e = FileExistsError ∨ e = ValueError ∨ e = TypeError) ∧
          lists w' = lists w ∧ disk w' = disk w ∧ groups w' = groups w.
Proof.
  intros Hv. unfold open_ome_zarr, bindM at 1, open_root, bindM at 1, get_world.
  unfold bindM at 1.
  assert (∀ m w0, ∃ e, _open_store m version w0 = (w0, Raise e) ∧
                       (e = FileNotFoundError ∨ e = TypeError)) as Hstore.
  { intros m w0. unfold _open_store, bindM, get_world, raise.
    destruct (negb (os_path_isdir (disk w0)) && _); [eauto|].
    rewrite bool_decide_false by done. simpl. eauto. }
  destruct (bool_decide (resolve_mode mode w = "r") || bool_decide (resolve_mode mode w = "r+")).
  { unfold ret at 1, bindM at 1.
    destruct (Hstore (resolve_mode mode w) w) as (e & -> & He).
    exists w, e. split; [done|]. split; [tauto | done]. }
  destruct (bool_decide (resolve_mode mode w = "w-")).
  { destruct (os_path_exists (disk w)).
    - exists w, FileExistsError. split; [done|]. split; [tauto | done].
    - unfold ret at 1, bindM at 1.
      destruct (Hstore (resolve_mode mode w) w) as (e & -> & He).
      exists w, e. split; [done|]. split; [tauto | done]. }
  destruct (bool_decide (resolve_mode mode w = "w")).
  { destruct (os_path_exists (disk w)).
    - unfold bindM at 1, logging_warning, ret at 1, bindM at 1.
      match goal with
      | |- context [_open_store ?m ?v ?w0] => destruct (Hstore m w0) as (e & -> & He)
      end.
      eexists _, e. split; [reflexivity|]. split; [tauto | done].
    - unfold ret at 1, bindM at 1.
      destruct (Hstore (resolve_mode mode w) w) as (e & -> & He).
      exists w, e. split; [done|]. split; [tauto | done]. }
  exists w, ValueError. split; [done|]. split; [tauto | done].
Qed.

End Versions.

(** ** The properties of the node tree on sample stores *)

Section ImageSamples.
Import Ngff Ngff.Sample.
#[local] Existing Instance sample_display.
#[local] Existing Instance sample_schema.
#[local] Existing Instance sample_engine.

Lemma check_shape_raises_iff_witness :
  ∃ w' r, _check_shape two_arrays_position [2; 4; 4; 5; 6] two_arrays_world = (w', r) ∧
          lists w' = lists two_arrays_world ∧ disk w' = disk two_arrays_world ∧
          groups w' = groups two_arrays_world ∧
          (r = Ok tt ∨ r = Raise ValueError) ∧
          (r = Raise ValueError ↔
           length [2; 4; 4; 5; 6] ≠ length _DEFAULT_AXES ∨
           ∃ i n, _find_axis two_arrays_position "channel" = Ok (Some (S i)) ∧
                  [2; 4; 4; 5; 6] !! S i = Some n ∧
                  n > Z.of_nat (length ["DAPI"; "GFP"; "Cy5"])).
Proof.
  apply (check_shape_raises_iff two_arrays_position [2; 4; 4; 5; 6] two_arrays_world
           _DEFAULT_AXES 0 ["DAPI"; "GFP"; "Cy5"]); vm_compute; reflexivity.
Defined.

Lemma append_channel_without_channel_axis_witness :
  append_channel no_channel_axis_position "Cy7" true blank_world
  = (after_append blank_world 0 ["DAPI"; "GFP"; "Cy5"] "Cy7", Raise KeyError) ∧
  ∀ resize_arrays,
    append_channel no_channel_axis_position "Cy7" resize_arrays
                   (after_append blank_world 0 ["DAPI"; "GFP"; "Cy5"] "Cy7")
    = (after_append blank_world 0 ["DAPI"; "GFP"; "Cy5"] "Cy7", Raise ValueError).
Proof.
  apply (append_channel_without_channel_axis no_channel_axis_position "Cy7" blank_world
           0 ["DAPI"; "GFP"; "Cy5"]).
  - reflexivity.
  - vm_compute. reflexivity.
  - by apply (bool_decide_unpack _).
  - vm_compute. reflexivity.
Defined.

Lemma append_channel_without_metadata_witness :
  ∃ w' e, append_channel second_position "Cy7" false two_positions_world = (w', Raise e) ∧
          lists w' = <[0%nat := (["DAPI"; "GFP"; "Cy5"] ++ ["Cy7"])%list]>
                       (lists two_positions_world) ∧
          (false = false →
           e = AttributeError ∧
           w' = after_append two_positions_world 0 ["DAPI"; "GFP"; "Cy5"] "Cy7").
Proof.
  apply (append_channel_without_metadata second_position "Cy7" false two_positions_world
           0 ["DAPI"; "GFP"; "Cy5"]).
  - vm_compute. reflexivity.
  - vm_compute. reflexivity.
  - vm_compute. reflexivity.
  - by apply (bool_decide_unpack _).
Defined.

Lemma create_image_rank_above_five_witness :
  ∃ w', create_image two_arrays_position "2" [1; 1; 1; 1; 1; 1] [] false two_arrays_world
        = (w', Raise ValueError) ∧
        arrays_at w' (_group two_arrays_position) "2" = Some [1; 1; 1; 1; 1; 1] ∧
        attrs <$> groups w' !! _group two_arrays_position
        = Some (attrs (root_group two_arrays_world)) ∧
        lists w' = lists two_arrays_world.
Proof.
  apply (create_image_rank_above_five two_arrays_position "2" [1; 1; 1; 1; 1; 1] []
           two_arrays_world (root_group two_arrays_world)).
  - vm_compute. reflexivity.
  - vm_compute. reflexivity.
  - vm_compute. reflexivity.
  - simpl. lia.
Defined.

Lemma create_image_meta_lists_dataset_witness :
  ∃ meta' ms0 rest g,
    metadata (default no_node (value_of list_third_image)) = Some meta' ∧
    multiscales meta' = ms0 :: rest ∧
    "2" ∈ get_dataset_paths ms0 ∧
    (metadata two_arrays_position = None → get_dataset_paths ms0 = ["2"] ∧ rest = []) ∧
    (∀ meta ms rest0, metadata two_arrays_position = Some meta →
       multiscales meta = ms :: rest0 →
       rest = rest0 ∧ omero meta' = omero meta ∧
       get_dataset_paths ms0
       = (if bool_decide ("2" ∈ get_dataset_paths ms) then get_dataset_paths ms
          else get_dataset_paths ms ++ ["2"])%list ∧
       (NoDup (get_dataset_paths ms) → NoDup (get_dataset_paths ms0))) ∧
    groups two_arrays_world !! _group two_arrays_position = Some g ∧
    groups (world_of list_third_image)
    = <[_group two_arrays_position :=
          mkGroupData (foldl (λ m kv, <[kv.1 := kv.2]> m) (attrs g) (ImagesMeta_dict meta'))
                      (arrays g)]> (groups two_arrays_world).
Proof.
  apply (create_image_meta_lists_dataset two_arrays_position
           (default no_node (value_of list_third_image)) "2" []
           two_arrays_world (world_of list_third_image)).
  vm_compute. reflexivity.
Defined.

Lemma open_other_version_never_returns_witness :
  ∃ w' e, open_ome_zarr "fov" "w-" (Some 0%nat) None "0.1" no_kwargs blank_world
          = (w', Raise e) ∧
          (e = FileNotFoundError ∨ e = FileExistsError ∨ e = ValueError ∨ e = TypeError) ∧
          lists w' = lists blank_world ∧ disk w' = disk blank_world ∧
          groups w' = groups blank_world.
Proof.
  apply (open_other_version_never_returns "fov" "w-" (Some 0%nat) None "0.1" no_kwargs
           blank_world).
  discriminate.
Defined.

Lemma Position_dump_meta_idempotent_witness :
  Position_dump_meta two_arrays_position
    (world_of (Position_dump_meta two_arrays_position two_arrays_world))
  = (world_of (Position_dump_meta two_arrays_position two_arrays_world), Ok tt).
Proof.
  apply (Position_dump_meta_idempotent two_arrays_position two_arrays_world).
  vm_compute. reflexivity.
Defined.

Lemma Well_create_position_records_witness :
  ∃ meta' g',
    metadata (default (no_node, no_node) (value_of third_position)).1 = Some meta' ∧
    images meta'
    = (match metadata sample_well with Some meta => images meta | None => [] end
       ++ [mkImageMeta 0 (basename (join_path (_group sample_well) "2"))])%list ∧
    _group (default (no_node, no_node) (value_of third_position)).1 = _group sample_well ∧
    groups (world_of third_position) !! _group sample_well = Some g' ∧
    attrs g' !! "well" = Some (WellGroupMeta_dict meta') ∧
    _group (default (no_node, no_node) (value_of third_position)).2
    = join_path (_group sample_well) "2" ∧
    is_Some (groups (world_of third_position)
               !! _group (default (no_node, no_node) (value_of third_position)).2) ∧
    metadata (default (no_node, no_node) (value_of third_position)).2 = None.
Proof.
  apply (Well_create_position_records sample_well
           (default (no_node, no_node) (value_of third_position)).1 "2" 0
           (default (no_node, no_node) (value_of third_position)).2
           two_positions_world (world_of third_position)).
  vm_compute. reflexivity.
Defined.

End ImageSamples.

(** ** Creating wells in a store that holds some *)

Section ExistingRows.
Import Ngff.
Context `{Display, !Schema, Engine}.

Lemma create_group_overwrite (p name : string) (w : World) :
  ∃ w1, create_group p name true w = (w1, Ok (join_path p name)) ∧
        ∀ k, under (join_path p name) k = true → k ≠ join_path p name →
             groups w1 !! k = None.
Proof.
  unfold create_group. simpl. eexists. split; [reflexivity|].
  intros k Hunder Hne. simpl. rewrite lookup_insert_ne by done.
  set (kept := filter (λ kv : string * GroupData, under (join_path p name) kv.1 = false)
                      (groups w)).
  assert (kept !! k = None) as Hk.
  { apply map_lookup_filter_None. right. intros g _. simpl. congruence. }
  destruct (kept !! p) as [g|] eqn:Hp; [|done].
  rewrite lookup_insert_ne; [done|]. intros ->. congruence.
Qed.

Lemma create_group_keeps_absent (p name : string) (overwrite : bool) (w w1 : World)
    (r : result string) (k : string) :
  create_group p name overwrite w = (w1, r) →
  groups w !! k = None → k ≠ join_path p name → groups w1 !! k = None.
Proof.
  unfold create_group. intros Hc Hk Hne.
  repeat match type of Hc with context [if ?b then _ else _] => destruct b end;
    try (injection Hc as <- <-; done).
  injection Hc as <- <-. simpl. rewrite lookup_insert_ne by done.
  set (kept := filter (λ kv : string * GroupData, under (join_path p name) kv.1 = false)
                      (groups w)).
  assert (kept !! k = None) as Hk'.
  { apply map_lookup_filter_None. by left. }
  destruct (kept !! p) as [g|] eqn:Hp; [|done].
  rewrite lookup_insert_ne; [done|]. intros ->. congruence.
Qed.

Lemma zattrs_update_keeps_absent (p : string) (doc : list (string * json)) (w w1 : World)
    (r : result unit) (k : string) :
  zattrs_update p doc w = (w1, r) → groups w !! k = None → groups w1 !! k = None.
Proof.
  unfold zattrs_update. destruct (groups w !! p) as [g|] eqn:Hp; intros [= <- <-] Hk; [|done].
  simpl. rewrite lookup_insert_ne; [done|]. intros ->. congruence.
Qed.

(** A node built with [parse_meta=False] leaves the world as it is, also
    when it raises. *)
Lemma NGFFNode_init_world {Meta : Type} (parse : NGFFNode Meta → M (NGFFNode Meta))
    (group : string) (cn : option nat) (ax : option (list AxisMeta)) (version : string)
    (overwriting : bool) (w w' : World) (r : result (NGFFNode Meta)) :
  NGFFNode_init parse group false cn ax version overwriting w = (w', r) → w' = w.
Proof.
  unfold NGFFNode_init, bindM, get_world, ret, raise.
  destruct (list_truthy w cn); simpl; by intros [= <- <-].
Qed.

(** The end of [create_well], from the creation of the well group on. *)
Lemma create_well_tail_keeps_absent (self : Plate) (row_grp col_name : string)
    (w w' : World) (r : result (Plate * Well)) (k : string) :
  (let! well_grp := create_group row_grp col_name (_overwrite (plate_node self)) in
   do! Plate_dump_meta self in
   let! ca := lift (_child_attrs (plate_node self)) in
   let! well := Well_init well_grp false (Some (ca_channel_names ca)) (Some (ca_axes ca))
                          (ca_version ca) (ca_overwriting_creation ca) in
   ret (self, well)) w = (w', r) →
  groups w !! k = None → k ≠ join_path row_grp col_name → groups w' !! k = None.
Proof.
  unfold bindM at 1. intros Hrun Hk Hne.
  destruct (create_group _ _ _ w) as [w1 [well_grp|e]] eqn:Hgrp.
  2:{ injection Hrun as <- <-. by eapply create_group_keeps_absent. }
  pose proof (create_group_keeps_absent _ _ _ _ _ _ _ Hgrp Hk Hne) as Hk1.
  revert Hrun. unfold bindM at 1, Plate_dump_meta.
  destruct (metadata (plate_node self)) as [meta|].
  2:{ unfold raise. by intros [= <- <-]. }
  destruct (zattrs_update _ _ w1) as [w2 [[]|e]] eqn:Hupd.
  2:{ intros [= <- <-]. by eapply zattrs_update_keeps_absent. }
  pose proof (zattrs_update_keeps_absent _ _ _ _ _ _ Hupd Hk1) as Hk2.
  unfold bindM at 1, lift.
  destruct (_child_attrs (plate_node self)) as [ca|e]; [|by intros [= <- <-]].
  unfold bindM, Well_init.
  match goal with
  | |- context [NGFFNode_init ?p ?g0 ?b ?c ?x ?v ?o ?w0] =>
      destruct (NGFFNode_init p g0 b c x v o w0) as [w3 [node|e]] eqn:Hinit
  end; apply NGFFNode_init_world in Hinit as ->; by intros [= <- <-].
Qed.

(** X21: [create_well] for a row that the store holds but the plate has
    not registered in [_rows], as on a plate that was opened from an
    existing store.  Without [overwriting_creation] it raises
    [ContainsGroupError] and changes nothing; with it, the row group is
    created anew, so that of all that was stored below the row nothing is
    left but the new well. *)
Theorem create_well_unregistered_row (self : Plate) (row_name col_name : string)
    (row_index col_index : option Z) (w : World) :
  _rows self !! normalize_storage_path row_name = None →
  is_Some (groups w !! join_path (_group (plate_node self))
                                 (normalize_storage_path row_name)) →
  arrays_at w (_group (plate_node self)) (normalize_storage_path row_name) = None →
  (_overwrite (plate_node self) = false →
   create_well self row_name col_name row_index col_index w = (w, Raise ContainsGroupError)) ∧
  (_overwrite (plate_node self) = true →
   ∀ w' r k,
     create_well self row_name col_name row_index col_index w = (w', r) →
     under (join_path (_group (plate_node self)) (normalize_storage_path row_name)) k = true →
     k ≠ join_path (_group (plate_node self)) (normalize_storage_path row_name) →
     k ≠ join_path (join_path (_group (plate_node self)) (normalize_storage_path row_name))
                   (normalize_storage_path col_name) →
     groups w' !! k = None).
Proof.
  set (row := join_path (_group (plate_node self)) (normalize_storage_path row_name)).
  intros Hrows Hrow Harr. split; intros Hov.
  - unfold create_well. rewrite Hrows. unfold bindM at 1, bindM at 1, create_group.
    rewrite Hov. fold row. simpl.
    unfold arrays_at in Harr.
    destruct (groups w !! _group (plate_node self)) as [g|].
    + rewrite Harr. rewrite bool_decide_false by (by intros [? ?]).
      by rewrite bool_decide_true.
    + by rewrite bool_decide_true.
  - intros w' r k. unfold create_well. rewrite Hrows. unfold bindM at 1, bindM at 1.
    rewrite Hov.
    destruct (create_group_overwrite (_group (plate_node self))
                (normalize_storage_path row_name) w) as (w1 & -> & Hgone).
    fold row in Hgone |- *. unfold ret at 1. intros Hrun Hunder Hne Hnw.
    specialize (Hgone k Hunder Hne).
    revert Hrun. unfold bindM at 1. simpl.
    match goal with
    | |- context [bool_decide ?P] => destruct (bool_decide P)
    end; unfold ret at 1; intros Hrun;
      by eapply create_well_tail_keeps_absent.
Qed.

End ExistingRows.

(** ** Fetching a child that was just created *)

Section NewChildren.
Import Ngff.
Context `{Display, !Schema, Engine}.

Lemma prefix_slash_self (q : string) : String.prefix (q +:+ "/") q = false.
Proof.
  induction q as [|c q IH]; [done|].
  change (String c q +:+ "/") with (String c (q +:+ "/")). simpl.
  by destruct (Ascii.ascii_dec c c).
Qed.

Lemma child_key_outside (q k : string) :
  q ≠ "" → (k = q ∨ under q k = false) → child_key q k = None.
Proof.
  intros Hq Hk. unfold child_key.
  destruct (String.eqb_spec q "") as [? | _]; [done|].
  assert (String.prefix (q +:+ "/") k = false) as ->; [|done].
  destruct Hk as [-> | Hk]; [apply prefix_slash_self|].
  unfold under in Hk. by apply orb_false_iff in Hk as (_ & ?).
Qed.

Lemma join_path_nonempty (p name : string) : name ≠ "" → join_path p name ≠ "".
Proof.
  intros Hname. unfold join_path. destruct p as [|c p]; [done|]. simpl. done.
Qed.

Lemma create_group_memberless (p name : string) (overwrite : bool) (w w1 : World)
    (q : string) :
  create_group p name overwrite w = (w1, Ok q) → name ≠ "" →
  q = join_path p name ∧ memberless w1 q.
Proof.
  unfold create_group. intros Hc Hname.
  repeat match type of Hc with context [if ?b then _ else _] => destruct b end;
    try done.
  injection Hc as <- <-. split; [done|].
  set (q := join_path p name).
  set (kept := filter (λ kv : string * GroupData, under q kv.1 = false) (groups w)).
  assert (q ≠ "") as Hq by by apply join_path_nonempty.
  split.
  - exists empty_group. simpl. by rewrite lookup_insert_eq.
  - intros k. simpl. rewrite lookup_insert. case_decide as Hk.
    { intros _. apply child_key_outside; [done | by left]. }
    intros Hin. apply child_key_outside; [done|]. right.
    assert (is_Some (kept !! k)) as [g Hg].
    { destruct (kept !! p) as [gp|] eqn:Hp; [|done].
      rewrite lookup_insert in Hin. case_decide as Hkp; [subst; eauto | done]. }
    by apply map_lookup_filter_Some in Hg as (_ & ?).
Qed.

Lemma zattrs_update_memberless (p : string) (doc : list (string * json)) (w w1 : World)
    (r : result unit) (q : string) :
  zattrs_update p doc w = (w1, r) → memberless w q → memberless w1 q.
Proof.
  unfold zattrs_update. destruct (groups w !! p) as [g|] eqn:Hp; intros [= <- <-]; [|done].
  intros ((gq & Hq & Harr) & Hkeys). split.
  - simpl. rewrite lookup_insert. case_decide as Hpq.
    + subst. eexists. split; [done|]. simpl. congruence.
    + eauto.
  - intros k. simpl. rewrite lookup_insert. case_decide as Hpk.
    + subst. intros _. apply Hkeys. eauto.
    + apply Hkeys.
Qed.

Lemma omap_none {A B : Type} (f : A → option B) (l : list A) :
  (∀ x, x ∈ l → f x = None) → omap f l = [].
Proof.
  induction l as [|x l IH]; intros Hall; [done|]. simpl.
  rewrite (Hall x) by left. apply IH. intros y Hy. apply Hall. by right.
Qed.

(** [__getitem__] on a key of a group without members raises [KeyError]:
    the group is falsy. *)
Lemma getitem_child_memberless {Meta Meta' : Type}
    (parse : NGFFNode Meta' → M (NGFFNode Meta')) (self : NGFFNode Meta) (key : string)
    (w : World) :
  memberless w (join_path (_group self) (normalize_storage_path key)) →
  getitem_child parse self key w = (w, Raise KeyError).
Proof.
  intros ((g & Hg & Harr) & Hkeys).
  unfold getitem_child, bindM, get_world. rewrite Hg.
  rewrite bool_decide_true; [done|].
  unfold group_len, group_keys, array_keys. rewrite Hg, Harr.
  rewrite dom_empty_L, elements_empty. simpl.
  assert (omap (child_key (join_path (_group self) (normalize_storage_path key)))
               (elements (dom (groups w))) = []) as ->; [|done].
  apply omap_none. intros k Hk%elem_of_elements%elem_of_dom. by apply Hkeys.
Qed.


(** X22: the position that [Well.create_position] has just created
    cannot be fetched from the well: the new group has no member yet, so
    it is falsy and [__getitem__] raises [KeyError] on its name. *)
Theorem created_position_not_fetched (self self' : Well) (name key : string) (acq : Z)
    (pos : Position) (w w' : World) :
  Well_create_position self name acq w = (w', Ok (self', pos)) →
  name ≠ "" → normalize_storage_path key = name →
  Well_getitem self' key w' = (w', Raise KeyError).
Proof.
  unfold Well_create_position, bindM at 1. intros Hrun Hname Hkey.
  destruct (create_group _ _ _ w) as [w1 [pos_grp|e]] eqn:Hgrp; [|done].
  apply create_group_memberless in Hgrp as (-> & Hnew); [|done].
  revert Hrun. unfold bindM at 1, Well_dump_meta. simpl.
  destruct (zattrs_update _ _ w1) as [w2 [[]|e]] eqn:Hupd; [|done].
  eapply zattrs_update_memberless in Hnew; [|exact Hupd].
  unfold bindM at 1, lift, _child_attrs. simpl.
  destruct (axes self) as [ax|]; [|done].
  destruct (_channel_names self) as [a|] eqn:Hcn; [|done].
  unfold bindM, Position_init. simpl.
  match goal with
  | |- context [NGFFNode_init ?p ?g0 ?b ?c ?x ?v ?o ?w0] =>
      destruct (NGFFNode_init p g0 b c x v o w0) as [w3 [node|e]] eqn:Hinit; [|done]
  end.
  apply NGFFNode_init_keeps_list in Hinit as (-> & _).
  intros [= <- <- <-]. unfold Well_getitem.
  apply getitem_child_memberless. simpl. by rewrite Hkey.
Qed.

(** The end of [create_well], from the creation of the well group on,
    when it returns. *)
Lemma create_well_tail_memberless (self self' : Plate) (row_grp col_name : string)
    (w w' : World) (well : Well) :
  (let! well_grp := create_group row_grp col_name (_overwrite (plate_node self)) in
   do! Plate_dump_meta self in
   let! ca := lift (_child_attrs (plate_node self)) in
   let! well := Well_init well_grp false (Some (ca_channel_names ca)) (Some (ca_axes ca))
                          (ca_version ca) (ca_overwriting_creation ca) in
   ret (self, well)) w = (w', Ok (self', well)) →
  col_name ≠ "" →
  self' = self ∧ memberless w' (join_path row_grp col_name).
Proof.
  unfold bindM at 1. intros Hrun Hcol.
  destruct (create_group _ _ _ w) as [w1 [well_grp|e]] eqn:Hgrp; [|done].
  apply create_group_memberless in Hgrp as (-> & Hnew); [|done].
  revert Hrun. unfold bindM at 1, Plate_dump_meta.
  destruct (metadata (plate_node self)) as [meta|]; [|done].
  destruct (zattrs_update _ _ w1) as [w2 [[]|e]] eqn:Hupd; [|done].
  eapply zattrs_update_memberless in Hnew; [|exact Hupd].
  unfold bindM at 1, lift.
  destruct (_child_attrs (plate_node self)) as [ca|e]; [|done].
  unfold bindM, Well_init.
  match goal with
  | |- context [NGFFNode_init ?p ?g0 ?b ?c ?x ?v ?o ?w0] =>
      destruct (NGFFNode_init p g0 b c x v o w0) as [w3 [node|e]] eqn:Hinit; [|done]
  end.
  apply NGFFNode_init_keeps_list in Hinit as (-> & _).
  by intros [= <- <- <-].
Qed.

(** X23: the well that [Plate.create_well] has just created cannot be
    fetched from the plate: on any key that addresses the group of the new
    well, [__getitem__] raises [KeyError], the group having no member yet. *)
Theorem created_well_not_fetched (self self' : Plate) (row_name col_name key : string)
    (row_index col_index : option Z) (well : Well) (w w' : World) :
  create_well self row_name col_name row_index col_index w = (w', Ok (self', well)) →
  normalize_storage_path col_name ≠ "" →
  join_path (_group (plate_node self)) (normalize_storage_path key)
  = join_path (join_path (_group (plate_node self)) (normalize_storage_path row_name))
              (normalize_storage_path col_name) →
  getitem_child Well_parse_meta (plate_node self') key w' = (w', Raise KeyError).
Proof.
  unfold create_well. intros Hrun Hcol Hkey.
  revert Hrun. unfold bindM at 1.
  destruct (_rows self !! normalize_storage_path row_name) as [i|].
  - unfold bindM at 1, group_getitem.
    destruct (groups w !! _) as [g|]; [|done].
    destruct (metadata (plate_node self)) as [meta|]; [|done].
    unfold ret at 1, bindM at 1. simpl.
    match goal with
    | |- context [bool_decide ?P] => destruct (bool_decide P)
    end; unfold ret at 1; intros Hrun;
      apply create_well_tail_memberless in Hrun as (-> & Hnew); try done;
      apply getitem_child_memberless; simpl; by rewrite Hkey.
  - unfold bindM at 1.
    destruct (create_group _ _ _ w) as [w1 [row_grp|e]] eqn:Hgrp; [|done].
    assert (row_grp = join_path (_group (plate_node self))
                                (normalize_storage_path row_name)) as ->.
    { revert Hgrp. unfold create_group.
      repeat match goal with |- context [if ?b then _ else _] => destruct b end;
        try done; by intros [= <- <-]. }
    unfold ret at 1, bindM at 1. simpl.
    match goal with
    | |- context [bool_decide ?P] => destruct (bool_decide P)
    end; unfold ret at 1; intros Hrun;
      apply create_well_tail_memberless in Hrun as (-> & Hnew); try done;
      apply getitem_child_memberless; simpl; by rewrite Hkey.
Qed.

End NewChildren.

(** ** Iterating and deleting *)

Section Members.
Import Ngff.
Context `{Display, !Schema, Engine}.

(** X24: [__delitem__] never deletes anything.  Whatever the depth the
    interpreter allows, the world is as before; on a key that names a
    member the call recurses until it raises [RecursionError], and on any
    other key it returns at once. *)
Theorem delitem_never_deletes {Meta : Type} (member_names : World → string → list string)
    (depth : nat) (self : NGFFNode Meta) (key : string) (w : World) :
  ∃ r, NGFFNode_delitem member_names depth self key w = (w, r) ∧
       (r = Ok tt ∨ r = Raise RuntimeError) ∧
       (normalize_storage_path (normalize_storage_path key) = normalize_storage_path key →
        normalize_storage_path key ∈ member_names w (_group self) →
        r = Raise RuntimeError) ∧
       (normalize_storage_path key ∉ member_names w (_group self) → depth ≠ 0%nat →
        r = Ok tt).
Proof.
  revert key. induction depth as [|depth IH]; intros key; simpl.
  - exists (Raise RuntimeError). unfold raise. by repeat split; eauto.
  - unfold bindM, get_world. case_bool_decide as Hin.
    + destruct (IH (normalize_storage_path key)) as (r & -> & Hr & Hrec & _).
      exists r. split; [done|]. split; [done|]. split; [|done].
      intros Hidem _. apply Hrec; by rewrite !Hidem.
    + exists (Ok tt). unfold ret. split; [done|]. split; [by left|]. split; done.
Qed.

Lemma yield_images_spec (self : Position) (keys : list string)
    (acc : list (string * list Z)) (w : World) :
  ∃ w', yield_images self keys acc w
          = (w', Ok (acc ++ filter (λ kv, loadable kv.2 = true)
                              (omap (λ k, (λ s, (k, s)) <$> arrays_at w (_group self) k) keys))%list) ∧
        lists w' = lists w ∧ disk w' = disk w ∧ groups w' = groups w ∧
        (length (warnings w') + length (filter (λ kv, loadable kv.2 = true)
                              (omap (λ k, (λ s, (k, s)) <$> arrays_at w (_group self) k) keys))
         = length (warnings w) + length keys)%nat.
Proof.
  revert acc w. induction keys as [|key keys IH]; intros acc w.
  - exists w. simpl. unfold ret. rewrite app_nil_r. repeat split; try done; simpl; lia.
  - assert (∀ msg acc',
              ∃ w', yield_images self keys acc' (logging_warning msg w).1
                    = (w', Ok (acc' ++ filter (λ kv, loadable kv.2 = true)
                                (omap (λ k, (λ s, (k, s)) <$> arrays_at w (_group self) k)
                                      keys))%list) ∧
                    lists w' = lists w ∧ disk w' = disk w ∧ groups w' = groups w ∧
                    (length (warnings w') + length (filter (λ kv, loadable kv.2 = true)
                                (omap (λ k, (λ s, (k, s)) <$> arrays_at w (_group self) k)
                                      keys))
                     = length (warnings w) + 1 + length keys)%nat) as IHlog.
    { intros msg acc'. destruct (IH acc' (logging_warning msg w).1) as (w' & Hrun & Hl & Hd & Hg & Hn).
      exists w'. change (arrays_at (logging_warning msg w).1) with (arrays_at w) in Hrun, Hn.
      split; [exact Hrun|]. repeat split; try done.
      simpl in Hn. rewrite length_app in Hn. simpl in Hn. lia. }
    simpl. unfold bindM at 1, yield_image, bindM at 1, get_world.
    destruct (arrays_at w (_group self) key) as [shape|] eqn:Hat; simpl.
    + destruct (loadable shape) eqn:Hload.
      * unfold ret at 1.
        destruct (IH (acc ++ [(key, shape)])%list w) as (w' & -> & Hl & Hd & Hg & Hn).
        exists w'. rewrite filter_cons_True by done. rewrite <- app_assoc. simpl.
        repeat split; try done. unfold omap in *. simpl in *. lia.
      * unfold bindM at 1, ret at 1.
        destruct (IHlog ("Skipped item at " +:+ key) acc) as (w' & Hrun & Hl & Hd & Hg & Hn).
        exists w'. rewrite filter_cons_False by (simpl; congruence).
        split; [exact Hrun|]. repeat split; try done. unfold omap in *. simpl in *. lia.
    + destruct (IHlog ("Skipped item at " +:+ key) acc) as (w' & Hrun & Hl & Hd & Hg & Hn).
      exists w'. split; [exact Hrun|]. repeat split; try done. unfold omap in *. simpl in *. lia.
Qed.

(** X25: [images] never raises and changes neither the store nor the list
    objects: it yields, in the sorted order of their names, the arrays of
    the position that [__getitem__] and [ImageArray] accept, those of rank
    1 to 5 whose first axis is not empty, and logs one warning for each of
    the others. *)
Theorem images_yields_loadable (self : Position) (w : World) :
  ∃ w', images_list self w
          = (w', Ok (filter (λ kv, loadable kv.2 = true) (array_shapes w self))) ∧
        lists w' = lists w ∧ disk w' = disk w ∧ groups w' = groups w ∧
        (length (warnings w') + length (filter (λ kv, loadable kv.2 = true) (array_shapes w self))
         = length (warnings w) + length (array_keys w (_group self)))%nat.
Proof.
  unfold images_list, bindM, get_world, array_shapes.
  destruct (yield_images_spec self (array_keys w (_group self)) [] w)
    as (w' & -> & Hrest).
  by exists w'.
Qed.

End Members.

Section TreeSamples.
Import Ngff Ngff.Sample.
#[local] Existing Instance sample_display.
#[local] Existing Instance sample_schema.
#[local] Existing Instance sample_engine.

Lemma create_well_unregistered_row_witness :
  (_overwrite (plate_node reopened_plate) = false →
   create_well reopened_plate "A" "3" None None reopened_world
   = (reopened_world, Raise ContainsGroupError)) ∧
  (_overwrite (plate_node reopened_plate) = true →
   ∀ w' r k,
     create_well reopened_plate "A" "3" None None reopened_world = (w', r) →
     under (join_path (_group (plate_node reopened_plate)) (normalize_storage_path "A")) k
     = true →
     k ≠ join_path (_group (plate_node reopened_plate)) (normalize_storage_path "A") →
     k ≠ join_path (join_path (_group (plate_node reopened_plate))
                              (normalize_storage_path "A"))
                   (normalize_storage_path "3") →
     groups w' !! k = None).
Proof.
  apply (create_well_unregistered_row reopened_plate "A" "3" None None reopened_world).
  - vm_compute. reflexivity.
  - vm_compute. eauto.
  - vm_compute. reflexivity.
Defined.

Lemma created_position_not_fetched_witness :
  Well_getitem (default (no_node, no_node) (value_of third_position)).1 "2"
               (world_of third_position)
  = (world_of third_position, Raise KeyError).
Proof.
  apply (created_position_not_fetched sample_well
           (default (no_node, no_node) (value_of third_position)).1 "2" "2" 0
           (default (no_node, no_node) (value_of third_position)).2
           two_positions_world (world_of third_position)).
  - vm_compute. reflexivity.
  - discriminate.
  - vm_compute. reflexivity.
Defined.

Lemma created_well_not_fetched_witness :
  getitem_child Well_parse_meta
    (plate_node (default (no_plate, no_node) (value_of fourth_well)).1) "B/2"
    (world_of fourth_well)
  = (world_of fourth_well, Raise KeyError).
Proof.
  apply (created_well_not_fetched three_wells_plate
           (default (no_plate, no_node) (value_of fourth_well)).1 "B" "2" "B/2" None None
           (default (no_plate, no_node) (value_of fourth_well)).2
           three_wells_world (world_of fourth_well)).
  - vm_compute. reflexivity.
  - vm_compute. discriminate.
  - vm_compute. reflexivity.
Defined.

End TreeSamples.

(** ** The summary metadata *)

Section SummaryMetadata.
Import MultipageTiff.

(** A dictionary filled by a loop holds, for a key, the value of the last
    turn that wrote it. *)
Lemma foldl_insert_last {A V : Type} (key : A → string) (val : A → V) (l : list A)
    (m : gmap string V) (k : string) :
  foldl (λ out d, <[key d := val d]> out) m l !! k
  = match list_find (λ d, key d = k) (reverse l) with
    | Some (_, d) => Some (val d)
    | None => m !! k
    end.
Proof.
  induction l as [|x l IH] using rev_ind; [done|].
  rewrite foldl_app, reverse_app. simpl.
  case_decide as Hk.
  - subst k. by rewrite lookup_insert_eq.
  - rewrite lookup_insert_ne by done. rewrite IH.
    by destruct (list_find _ (reverse l)) as [[i d]|].
Qed.

(** X26: [_simplify_stage_position] raises [KeyError] on a stage position
    without ['DevicePositions']; otherwise the dictionary it returns maps
    the name of each device to the position of the last device of that
    name, holds no ['DevicePositions'] unless a device has that name, and
    keeps every other entry whose key is not the name of a device. *)
Theorem simplify_stage_position_last_device {value : Type} (stage_pos : stage_position value) :
  (DevicePositions stage_pos = None → _simplify_stage_position stage_pos = Raise KeyError) ∧
  (∀ devs, DevicePositions stage_pos = Some devs →
     ∃ out, _simplify_stage_position stage_pos = Ok out ∧
            ∀ k, out !! k
                 = match list_find (λ d, Device d = k) (reverse devs) with
                   | Some (_, d) => Some (Position_um d)
                   | None => if decide (k = "DevicePositions") then None
                             else entries stage_pos !! k
                   end).
Proof.
  unfold _simplify_stage_position. split.
  - by intros ->.
  - intros devs ->. eexists. split; [reflexivity|]. intros k.
    rewrite foldl_insert_last.
    destruct (list_find _ (reverse devs)) as [[i d]|]; [done|].
    case_decide as Hk; [subst; apply lookup_delete_eq | by apply lookup_delete_ne].
Qed.

Section Beta.
Context {value num : Type} `{EqDecision num}.
Variable zero : num.

(** X27: the dictionary of [_simplify_stage_position_beta] maps the name
    of a stage to the entry of the last subposition of that name: the one
    coordinate that is not zero when there is exactly one, the list of the
    coordinates that are not zero otherwise, which is empty for a stage at
    the origin; the other keys are ['Label'], ['GridRow'] and ['GridCol']. *)
Theorem simplify_stage_position_beta_entries (stage_pos : stage_position_beta value num)
    (k : string) :
  _simplify_stage_position_beta zero stage_pos !! k
  = match list_find (λ s, stageName s = k) (reverse (subpositions stage_pos)) with
    | Some (_, sub) =>
        Some (match filter (λ v, v ≠ zero) [sub_x sub; sub_y sub; sub_z sub] with
              | [v] => BNum v
              | values => BNums values
              end)
    | None =>
        if decide (k = "GridCol") then Some (BValue (gridCol stage_pos))
        else if decide (k = "GridRow") then Some (BValue (gridRow stage_pos))
        else if decide (k = "Label") then Some (BValue (label stage_pos))
        else None
    end.
Proof.
  unfold _simplify_stage_position_beta. rewrite foldl_insert_last.
  destruct (list_find _ (reverse (subpositions stage_pos))) as [[i sub]|]; [done|].
  rewrite !lookup_insert. repeat case_decide; try done; congruence.
Qed.

End Beta.

Section SetMeta.
Context {raw simplified value : Type}.
Variable simplify_beta : raw → result simplified.
Variable simplify : raw → result simplified.

Lemma list_index_Ok (x : string) (l : list string) (i : nat) :
  list_index x l = Ok i → l !! i = Some x ∧ ∀ j, (j < i)%nat → l !! j ≠ Some x.
Proof.
  unfold list_index.
  destruct (list_find (λ y, y = x) l) as [[i' y]|] eqn:Hfind; [|done].
  intros [= <-]. apply list_find_Some in Hfind as (Hi & -> & Hbefore).
  split; [done|]. intros j Hj Hjx. by eapply Hbefore.
Qed.

Lemma simplify_each_length (f : raw → result simplified) (positions : list raw)
    (indices : list nat) (l : list simplified) :
  simplify_each f positions indices = Ok l → length l = length indices.
Proof.
  unfold simplify_each.
  assert (∀ acc, for_each (λ acc p, let* sp := getitem positions p in
                                    let* pos := f sp in Ok (acc ++ [pos])%list)
                          indices acc = Ok l →
                 length l = (length acc + length indices)%nat) as Hgen.
  { induction indices as [|p indices IH]; intros acc; simpl.
    - intros [= <-]. lia.
    - intros (acc' & Hstep & Hrest)%bind_Ok.
      apply bind_Ok in Hstep as (sp & _ & Hstep).
      apply bind_Ok in Hstep as (pos & _ & [= <-]).
      apply IH in Hrest. rewrite length_app in Hrest. simpl in Hrest. lia. }
  intros Hl. by apply Hgen in Hl.
Qed.

(** X28: what [_set_mm_meta] assigns when it returns.  [dim_order] is the
    reversed ['AxisOrder'] and the four dimension indices are the first
    places of ['position'], ['time'], ['channel'] and ['z'] in it.  With a
    version that holds ['beta'] the channel names stay empty, with any
    other they are ['ChNames'].  The stage positions stay the integer 0
    with version ['1.4.22'] and whenever ['Positions'] is at most 1;
    otherwise they are a list of as many entries as ['StagePositions'] has
    (beta) or as ['Positions'] says. *)
Theorem set_mm_meta_assigns (s : SummaryMeta (raw := raw) (value := value))
    (a : MetaAttrs (simplified := simplified) (value := value)) :
  _set_mm_meta simplify_beta simplify s = Ok a →
  dim_order a = reverse (AxisOrder s) ∧
  (dim_order a !! p_dim a = Some "position" ∧ dim_order a !! t_dim a = Some "time" ∧
   dim_order a !! c_dim a = Some "channel" ∧ dim_order a !! z_dim a = Some "z") ∧
  (∀ j, (j < p_dim a)%nat → dim_order a !! j ≠ Some "position") ∧
  channel_names a
  = (if str_contains "beta" (MicroManagerVersion s) then [] else ChNames s) ∧
  (MicroManagerVersion s = "1.4.22" ∨ Positions s ≤ 1 →
   stage_positions a = stage_positions_zero) ∧
  (MicroManagerVersion s ≠ "1.4.22" → 1 < Positions s →
   ∃ l, stage_positions a = stage_positions_list l ∧
        length l = (if str_contains "beta" (MicroManagerVersion s)
                    then length (StagePositions s)
                    else Z.to_nat (Positions s))) ∧
  z_step_size a = z_step_um s ∧ attr_extents a = extents s.
Proof.
  unfold _set_mm_meta. intros Hrun.
  apply bind_Ok in Hrun as ([sp names] & Hfirst & Hrun).
  apply bind_Ok in Hrun as (p & Hp%list_index_Ok & Hrun).
  apply bind_Ok in Hrun as (t & Ht%list_index_Ok & Hrun).
  apply bind_Ok in Hrun as (c & Hc%list_index_Ok & Hrun).
  apply bind_Ok in Hrun as (z & Hz%list_index_Ok & Hrun).
  injection Hrun as <-. simpl.
  split; [done|]. split; [by intuition|]. split; [apply Hp|].
  assert (names = (if str_contains "beta" (MicroManagerVersion s) then [] else ChNames s) ∧
          (MicroManagerVersion s = "1.4.22" ∨ Positions s ≤ 1 → sp = stage_positions_zero) ∧
          (MicroManagerVersion s ≠ "1.4.22" → 1 < Positions s →
           ∃ l, sp = stage_positions_list l ∧
                length l = (if str_contains "beta" (MicroManagerVersion s)
                            then length (StagePositions s)
                            else Z.to_nat (Positions s)))) as (Hn & Hz0 & Hl); [|done].
  clear Hp Ht Hc Hz. revert Hfirst.
  destruct (str_contains "beta" (MicroManagerVersion s)) eqn:Hbeta.
  - assert (MicroManagerVersion s ≠ "1.4.22") as Hne.
    { intros Heq. rewrite Heq in Hbeta. vm_compute in Hbeta. done. }
    destruct (Z.gtb_spec (Positions s) 1) as [Hgt | Hle]; simpl.
    + intros (sp' & (l & Hl & [= <-])%bind_Ok & [= <- <-])%bind_Ok.
      split; [done|]. split; [intros [? | ?]; [done | lia]|].
      intros _ _. exists l. split; [done|].
      apply simplify_each_length in Hl. by rewrite length_seq in Hl.
    + intros [= <- <-]. split; [done|]. split; [done|]. intros _ ?. lia.
  - destruct (String.eqb_spec (MicroManagerVersion s) "1.4.22") as [Heq | Hne].
    + intros [= <- <-]. split; [done|]. split; [done|]. intros ?. done.
    + destruct (Z.gtb_spec (Positions s) 1) as [Hgt | Hle]; simpl.
      * intros (sp' & (l & Hl & [= <-])%bind_Ok & [= <- <-])%bind_Ok.
        split; [done|]. split; [intros [? | ?]; [done | lia]|].
        intros _ _. exists l. split; [done|].
        apply simplify_each_length in Hl. by rewrite length_seq in Hl.
      * intros [= <- <-]. split; [done|]. split; [done|]. intros _ ?. lia.
Qed.

End SetMeta.

End SummaryMetadata.

Section SummarySamples.
Import MultipageTiff.

Lemma set_mm_meta_assigns_witness :
  dim_order sample_meta_attrs = reverse (AxisOrder sample_summary_meta) ∧
  (dim_order sample_meta_attrs !! p_dim sample_meta_attrs = Some "position" ∧
   dim_order sample_meta_attrs !! t_dim sample_meta_attrs = Some "time" ∧
   dim_order sample_meta_attrs !! c_dim sample_meta_attrs = Some "channel" ∧
   dim_order sample_meta_attrs !! z_dim sample_meta_attrs = Some "z") ∧
  (∀ j, (j < p_dim sample_meta_attrs)%nat →
        dim_order sample_meta_attrs !! j ≠ Some "position") ∧
  channel_names sample_meta_attrs
  = (if str_contains "beta" (MicroManagerVersion sample_summary_meta) then []
     else ChNames sample_summary_meta) ∧
  (MicroManagerVersion sample_summary_meta = "1.4.22" ∨ Positions sample_summary_meta ≤ 1 →
   stage_positions sample_meta_attrs = stage_positions_zero) ∧
  (MicroManagerVersion sample_summary_meta ≠ "1.4.22" → 1 < Positions sample_summary_meta →
   ∃ l, stage_positions sample_meta_attrs = stage_positions_list l ∧
        length l = (if str_contains "beta" (MicroManagerVersion sample_summary_meta)
                    then length (StagePositions sample_summary_meta)
                    else Z.to_nat (Positions sample_summary_meta))) ∧
  z_step_size sample_meta_attrs = z_step_um sample_summary_meta ∧
  attr_extents sample_meta_attrs = extents sample_summary_meta.
Proof.
  apply (set_mm_meta_assigns sample_simplify_beta _simplify_stage_position
           sample_summary_meta sample_meta_attrs).
  vm_compute. reflexivity.
Defined.

End SummarySamples.
